(** * pbf2html_station_users: tile decoding, station extraction, marker sizing

    A shallow embedding of [scr/pbf2html_station_users.py] and the proofs of
    the properties its specification states.

    Modelling conventions.
    - A Python [float] is a real number, or an infinity, or nan
      ([Py.float]).  A finite result is the exact real number: rounding is
      outside the model.  The range of doubles is inside it: an operation
      whose exact result rounds beyond the largest double gives an
      infinity or raises [OverflowError], as the operation does in Python.
    - Python [int] values are [Z].  The coordinates and the extent of a
      decoded vector tile are integers.  numpy's 64-bit integers wrap
      around.
    - Exceptions are the [Raise] case of the result type [res]; [print]
      appends a diagnostic to the log that every computation threads.
    - Strings are sequences of code points below 256. *)

From Stdlib Require Import ZArith Reals Lra Lia List.
From Stdlib Require Import Ascii String DecimalString DecimalPos Machin.
From stdpp Require Import gmap strings.

Local Open Scope Z_scope.

(* ================================================================== *)
(** ** The Python run-time model                                       *)
(* ================================================================== *)

Module Py.

(** The exception classes the program can meet.  All of them derive from
    [Exception], so the handler of [read_pbf] catches every one. *)
Inductive exn : Type :=
| IndexError
| KeyError
| ValueError
| TypeError
| ZeroDivisionError
| OverflowError
| OSError
| DecodeError.

Inductive res (A : Type) : Type :=
| Ok (a : A)
| Raise (e : exn).
Arguments Ok {A} a.
Arguments Raise {A} e.

(** What the program prints; one constructor per [print] call of the
    source, with the values its f-string interpolates. *)
Inductive diag : Type :=
| WarnEmptyFile (file_path : string)
| WarnUnsupportedGeometry (gtype : string)
| InfoFeatureCount (file_path : string) (n : nat)
| ErrorFile (file_path : string) (e : exn)
| InfoFileCount (file_count : nat)
| WarnNoData.

(** A computation reads the log printed so far and returns a value or an
    exception together with the extended log. *)
Definition M (A : Type) : Type := list diag -> res A * list diag.

Definition ret {A} (a : A) : M A := fun out => (Ok a, out).
Definition raise {A} (e : exn) : M A := fun out => (Raise e, out).
Definition bind {A B} (m : M A) (k : A -> M B) : M B :=
  fun out =>
    match m out with
    | (Ok a, out') => k a out'
    | (Raise e, out') => (Raise e, out')
    end.
Definition print (d : diag) : M unit := fun out => (Ok tt, out ++ [d]).
Definition lift {A} (r : res A) : M A := fun out => (r, out).

(** [try: body / except Exception as e: handler e]. *)
Definition try_except {A} (body : M A) (handler : exn -> M A) : M A :=
  fun out =>
    match body out with
    | (Ok a, out') => (Ok a, out')
    | (Raise e, out') => handler e out'
    end.

(** Running a computation from an empty log. *)
Definition run {A} (m : M A) : res A * list diag := m [].

(** The computations form a monad; stdpp's [x ← m; k] and [m;; k] are used
    for sequencing. *)
#[global] Instance M_ret : MRet M := @ret.
#[global] Instance M_bind : MBind M := fun A B k m => bind m k.

(** So do the results of pure code that may raise. *)
#[global] Instance res_ret : MRet res := @Ok.
#[global] Instance res_bind : MBind res :=
  fun A B k r => match r with Ok a => k a | Raise e => Raise e end.

(** *** Lists and subscripts *)

(** [l[i]] for a non-negative literal index. *)
Definition getitem {A} (l : list A) (i : nat) : res A :=
  match nth_error l i with
  | Some a => Ok a
  | None => Raise IndexError
  end.

(** [l[-k]] for a literal [k >= 1]. *)
Definition getitem_neg {A} (l : list A) (k : nat) : res A :=
  if (k <=? length l)%nat then getitem l (length l - k) else Raise IndexError.

(** *** Strings *)

(** [s.split(sep)] for a one-character separator: every occurrence of the
    separator cuts, so the result has one part more than there are
    separators. *)
Fixpoint split (sep : ascii) (s : string) : list string :=
  match s with
  | EmptyString => [EmptyString]
  | String c s' =>
      if Ascii.eqb c sep then EmptyString :: split sep s'
      else match split sep s' with
           | [] => [String c EmptyString]
           | p :: ps => String c p :: ps
           end
  end.

(** [s.endswith(suffix)]. *)
Definition endswith (s suffix : string) : bool :=
  let n := String.length s in
  let k := String.length suffix in
  (k <=? n)%nat && String.eqb (substring (n - k) k s) suffix.

(** [os.path.basename] on POSIX: what follows the last slash. *)
Definition basename (p : string) : string :=
  List.last (split "/"%char p) EmptyString.

Definition startswith_char (c : ascii) (s : string) : bool :=
  match s with
  | String c' _ => Ascii.eqb c' c
  | EmptyString => false
  end.

(** [os.path.join(a, b)] on POSIX, for two components. *)
Definition path_join (a b : string) : string :=
  if startswith_char "/"%char b then b
  else if String.eqb a EmptyString || endswith a "/" then String.append a b
  else String.append a (String "/"%char b).

(** *** [int(str)] *)

(** The characters [int] skips around a numeral, among the code points
    below 256: TAB, LF, VT, FF, CR, the space, NEL and the no-break space.
    (The separators FS, GS, RS and US, which [str.strip] removes, are none
    of them: [int] refuses a numeral next to one.) *)
Definition is_space (c : ascii) : bool :=
  let n := nat_of_ascii c in
  ((9 <=? n) && (n <=? 13) || (n =? 32) || (n =? 133) || (n =? 160))%nat.

Definition digit_of (c : ascii) : option Z :=
  let n := nat_of_ascii c in
  if ((48 <=? n) && (n <=? 57))%nat then Some (Z.of_nat n - 48) else None.

Fixpoint lstrip (s : string) : string :=
  match s with
  | String c s' => if is_space c then lstrip s' else s
  | EmptyString => EmptyString
  end.

Fixpoint string_rev (s acc : string) : string :=
  match s with
  | String c s' => string_rev s' (String c acc)
  | EmptyString => acc
  end.

Definition strip (s : string) : string :=
  string_rev (lstrip (string_rev (lstrip s) EmptyString)) EmptyString.

(** Decimal digits, most significant first, onto an accumulator.  A single
    underscore may stand between two digits, as in Python's literals.
    [None] at a character that is neither, at an underscore that does not
    follow a digit, and at the end when the last character was no digit. *)
Fixpoint digits (s : string) (acc : Z) (after_digit : bool) : option Z :=
  match s with
  | EmptyString => if after_digit then Some acc else None
  | String c s' =>
      match digit_of c with
      | Some d => digits s' (10 * acc + d) true
      | None =>
          if Ascii.eqb c "_" && after_digit then digits s' acc false else None
      end
  end.

Fixpoint count_digits (s : string) : nat :=
  match s with
  | EmptyString => 0
  | String c s' =>
      match digit_of c with
      | Some _ => S (count_digits s')
      | None => count_digits s'
      end
  end.

(** The longest numeral [int] and [str] convert: CPython refuses more
    digits with a [ValueError] ([sys.int_info.default_max_str_digits]). *)
Definition max_str_digits : nat := 4300.

Definition unsigned_literal (s : string) : res Z :=
  match digits s 0 false with
  | Some n =>
      if (count_digits s <=? max_str_digits)%nat then Ok n
      else Raise ValueError
  | None => Raise ValueError
  end.

(** [int(s)] in base ten: blanks around, an optional sign, at least one
    digit and at most [max_str_digits] of them. *)
Definition int (s : string) : res Z :=
  match strip s with
  | String c s' =>
      if Ascii.eqb c "-" then n ← unsigned_literal s'; mret (- n)
      else if Ascii.eqb c "+" then unsigned_literal s'
      else unsigned_literal (String c s')
  | EmptyString => Raise ValueError
  end.

(** [str(n)] for an integer of at most [max_str_digits] digits: its
    decimal numeral, with a minus sign when it is negative. *)
Definition str (n : Z) : string := NilZero.string_of_int (Z.to_int n).

(** *** Floating-point numbers *)

(** A double: a real number, an infinity with its sign, or nan. *)
Inductive float : Type :=
| Finite (r : R)
| Infinity (negative : bool)
| NaN.

(** The largest double, [(2 - 2^-52) * 2^1023]. *)
Definition DBL_MAX : R := IZR (2 ^ 1024 - 2 ^ 971).

(** The least magnitude that rounds beyond the largest double: half way
    between [DBL_MAX] and [2^1024]. *)
Definition int_overflow : Z := 2 ^ 1024 - 2 ^ 970.

Definition is_negative (r : R) : bool := if Rlt_dec r 0%R then true else false.

(** The result of an arithmetic operation with exact value [r]: [r]
    itself when it rounds to a double, an infinity when it rounds beyond
    the largest one. *)
Definition round (r : R) : float :=
  if Rlt_dec (Rabs r) (IZR int_overflow) then Finite r
  else Infinity (is_negative r).

Definition fneg (a : float) : float :=
  match a with
  | Finite x => Finite (- x)%R
  | Infinity s => Infinity (negb s)
  | NaN => NaN
  end.

(** [a + b], [a - b] and [a * b] on floats: they never raise. *)
Definition fadd (a b : float) : float :=
  match a, b with
  | Finite x, Finite y => round (x + y)%R
  | Finite _, Infinity s | Infinity s, Finite _ => Infinity s
  | Infinity s, Infinity t => if Bool.eqb s t then Infinity s else NaN
  | _, _ => NaN
  end.

Definition fsub (a b : float) : float := fadd a (fneg b).

Definition fmul (a b : float) : float :=
  match a, b with
  | Finite x, Finite y => round (x * y)%R
  | Finite x, Infinity s | Infinity s, Finite x =>
      if Req_dec_T x 0%R then NaN else Infinity (xorb s (is_negative x))
  | Infinity s, Infinity t => Infinity (xorb s t)
  | _, _ => NaN
  end.

(** [a / b] on floats: a zero divisor raises. *)
Definition fdiv (a b : float) : res float :=
  match b with
  | Finite y =>
      if Req_dec_T y 0%R then Raise ZeroDivisionError
      else match a with
           | Finite x => Ok (round (x / y)%R)
           | Infinity s => Ok (Infinity (xorb s (is_negative y)))
           | NaN => Ok NaN
           end
  | Infinity _ =>
      match a with
      | Finite _ => Ok (Finite 0%R)
      | _ => Ok NaN
      end
  | NaN => Ok NaN
  end.

(** The conversion of an integer operand of a float operation. *)
Definition float_of_int (n : Z) : res float :=
  if Z.abs n <? int_overflow then Ok (Finite (IZR n)) else Raise OverflowError.

(** [a / b] on integers: true division, a float. *)
Definition int_truediv (a b : Z) : res float :=
  if Z.eqb b 0 then Raise ZeroDivisionError
  else if Z.abs a <? int_overflow * Z.abs b then Ok (Finite (IZR a / IZR b)%R)
  else Raise OverflowError.

(** [n + a] for an integer [n] and a float [a]. *)
Definition int_add_float (n : Z) (a : float) : res float :=
  x ← float_of_int n; mret (fadd x a).

(** [2.0 ** z] for an integer [z]: the exponent is converted, the power
    raises beyond the range of doubles and is zero below it. *)
Definition pow2 (z : Z) : res float :=
  _ ← float_of_int z;
  if 1024 <=? z then Raise OverflowError
  else if z <=? -1075 then Ok (Finite 0%R)
  else Ok (Finite (powerRZ 2 z)).

(** [math.sinh]: it raises when the hyperbolic sine of a finite number
    lies beyond the range of doubles. *)
Definition math_sinh (a : float) : res float :=
  match a with
  | Finite x =>
      if Rle_dec (Rabs (sinh x)) DBL_MAX then Ok (Finite (sinh x))
      else Raise OverflowError
  | Infinity s => Ok (Infinity s)
  | NaN => Ok NaN
  end.

(** [math.atan], [math.pi] and [math.degrees]. *)
Definition math_atan (a : float) : float :=
  match a with
  | Finite x => Finite (atan x)
  | Infinity s => Finite (if s then - (PI / 2) else PI / 2)%R
  | NaN => NaN
  end.

Definition math_pi : float := Finite PI.

Definition math_degrees (a : float) : float := fmul a (Finite (180 / PI)%R).

(** The order of floats, for minima and maxima. *)
Definition fle (a b : float) : bool :=
  match a, b with
  | Finite x, Finite y => if Rle_dec x y then true else false
  | Infinity true, _ | _, Infinity false => true
  | _, _ => false
  end.

Definition fmin (a b : float) : float := if fle a b then a else b.
Definition fmax (a b : float) : float := if fle a b then b else a.

End Py.

Import Py.
Local Open Scope string_scope.
Local Open Scope list_scope.
Local Open Scope Z_scope.

(* ================================================================== *)
(** ** Data model                                                      *)
(* ================================================================== *)

(** Coordinate data of a decoded geometry: a number or a list, nested as
    deep as the geometry type asks ([x, y] for a point, a list of pairs for
    a line, a list of rings for a polygon). *)
#[warnings="-register-all"]
Inductive pyval : Type :=
| PInt (n : Z)
| PList (l : list pyval).

(** A property value of a feature. *)
Inductive value : Type :=
| VInt (n : Z)
| VStr (s : string).

(** The dict [{'type': ..., 'coordinates': ...}]. *)
Record geometry : Type := {
  gtype : string;
  coordinates : pyval
}.

(** A decoded feature.  [f_properties] is [None] when the dict has no
    ['properties'] key. *)
Record feature : Type := {
  f_properties : option (gmap string value);
  f_geometry : geometry
}.

Record layer : Type := {
  extent : Z;
  features : list feature
}.

(** The decoder's result: a dict from layer names to layers, in insertion
    order. *)
Definition tile : Type := list (string * layer).

(** One extracted station: the dict
    [{'geometry': Point(lon, lat), 'properties': {'name': ..., 'passengers': ...}}]. *)
Record station : Type := {
  location : float * float;
  name : value;
  passengers : value
}.

(* ================================================================== *)
(** ** The coordinate transform                                        *)
(* ================================================================== *)

(** [math.degrees] on a real number. *)
Definition degrees (x : R) : R := (x * (180 / PI))%R.

(** The value of [tile_to_latlon] in exact arithmetic: what the function
    returns when it returns and every double on the way is finite. *)
Definition tile_to_latlon (x y : R) (z : Z) : R * R :=
  let n := powerRZ 2 z in
  let lon_deg := (x / n * 360 - 180)%R in
  let lat_rad := atan (sinh (PI * (1 - 2 * y / n))) in
  let lat_deg := degrees lat_rad in
  (lon_deg, lat_deg).

(** [tile_to_latlon] as it runs, on doubles: the power and [math.sinh]
    raise [OverflowError] beyond the range of doubles, a division by a
    power that has become zero raises [ZeroDivisionError], and the other
    operations go on with an infinity. *)
Definition tile_to_latlon_float (x y : float) (z : Z) : res (float * float) :=
  n ← pow2 z;
  t ← fdiv x n;
  let lon_deg := fsub (fmul t (Finite 360)) (Finite 180) in
  u ← fdiv (fmul (Finite 2) y) n;
  s ← math_sinh (fmul math_pi (fsub (Finite 1) u));
  let lat_rad := math_atan s in
  let lat_deg := math_degrees lat_rad in
  mret (lon_deg, lat_deg).

(* ================================================================== *)
(** ** Decoding one file                                               *)
(* ================================================================== *)

(** [v[i]] on coordinate data. *)
Definition subscript (v : pyval) (i : nat) : res pyval :=
  match v with
  | PList l => getitem l i
  | PInt _ => Raise TypeError
  end.

(** [v / d] for an integer divisor: true division, a float. *)
Definition truediv (v : pyval) (d : Z) : res float :=
  match v with
  | PInt n => int_truediv n d
  | PList _ => Raise TypeError
  end.

(** [n + v / d]: the fractional tile position of a local coordinate [v] in
    the tile with index [n], for the extent [d]. *)
Definition position (n : Z) (v : pyval) (d : Z) : res float :=
  f ← truediv v d; int_add_float n f.

(** A [for] loop whose body updates the loop-carried state. *)
Fixpoint for_in {A S : Type} (body : A -> S -> M S) (l : list A) (s : S) : M S :=
  match l with
  | [] => mret s
  | a :: l' => s' ← body a s; for_in body l' s'
  end.

(** The [if]/[elif] chain on the geometry type; [None] is the [else]
    branch. *)
Definition select_coords (geom : geometry) : res (option pyval) :=
  if String.eqb (gtype geom) "LineString" then
    c ← subscript (coordinates geom) 0; mret (Some c)
  else if String.eqb (gtype geom) "Polygon" then
    ring ← subscript (coordinates geom) 0;
    c ← subscript ring 0; mret (Some c)
  else if String.eqb (gtype geom) "Point" then mret (Some (coordinates geom))
  else mret None.

(** The body of the loop over [layer['features']]; [acc] is the list
    [features] the loop appends to. *)
Definition feature_body (lay : layer) (x y z : Z) (feat : feature)
    (acc : list station) : M (list station) :=
  let properties := default ∅ (f_properties feat) in
  match properties !! "S12_001_ja" with
  | Some name_ja =>
      let count := default (VInt 0) (properties !! "S12_009") in
      let geom := f_geometry feat in
      sel ← lift (select_coords geom);
      match sel with
      | None => print (WarnUnsupportedGeometry (gtype geom));; mret acc
      | Some coords =>
          c0 ← lift (subscript coords 0);
          px ← lift (position x c0 (extent lay));
          c1 ← lift (subscript coords 1);
          py ← lift (position y c1 (extent lay));
          loc ← lift (tile_to_latlon_float px py z);
          mret (acc ++ [ {| location := loc;
                            name := name_ja;
                            passengers := count |} ])
      end
  | None => mret acc
  end.

(** [z, x, y = map(int, [15, parts[-2], parts[-1].split('.')[0]])]. *)
Definition tile_of_name (file_name : string) : res (Z * Z * Z) :=
  let parts := split "_" file_name in
  xs ← getitem_neg parts 2;
  last_part ← getitem_neg parts 1;
  ys ← getitem (split "." last_part) 0;
  let z := 15 in
  x ← int xs;
  y ← int ys;
  mret (z, x, y).

Section Pipeline.

(** The world outside the program: reading a file's bytes, listing a
    directory, and the tile decoder of [mapbox_vector_tile].  Each may
    raise. *)
Variable open_read : string -> res (list Byte.byte).
Variable listdir : string -> res (list string).
Variable decode : list Byte.byte -> res tile.

Definition read_pbf_body (file_path : string) : M (option (list station)) :=
  data ← lift (open_read file_path);
  t ← lift (decode data);
  match t with
  | [] => print (WarnEmptyFile file_path);; mret None
  | (_, lay) :: _ =>
      let file_name := basename file_path in
      '(z, x, y) ← lift (tile_of_name file_name);
      feats ← for_in (feature_body lay x y z) (features lay) [];
      print (InfoFeatureCount file_path (length feats));;
      mret (Some feats)
  end.

Definition read_pbf (file_path : string) : M (option (list station)) :=
  try_except (read_pbf_body file_path)
    (fun e => print (ErrorFile file_path e);; mret None).

(** The body of the loop over the directory listing; the state is
    [(all_data, file_count)]. *)
Definition file_body (directory file : string) (st : list station * nat)
    : M (list station * nat) :=
  let '(all_data, file_count) := st in
  if endswith file ".pbf" then
    let file_count := S file_count in
    let file_path := path_join directory file in
    feats ← read_pbf file_path;
    match feats with
    | Some (r :: rs) => mret (all_data ++ r :: rs, file_count)
    | _ => mret (all_data, file_count)
    end
  else mret (all_data, file_count).

Definition load_all_pbf_files (directory : string) : M (list station) :=
  files ← lift (listdir directory);
  '(all_data, file_count) ← for_in (file_body directory) files ([], 0%nat);
  print (InfoFileCount file_count);;
  match all_data with
  | [] => print WarnNoData;; mret []
  | _ => mret all_data
  end.

End Pipeline.

(* ================================================================== *)
(** ** Drawing the map                                                 *)
(* ================================================================== *)

(** One [folium.CircleMarker]: its location [[lat, lon]], its radius and
    the two values its popup shows. *)
Record marker : Type := {
  m_location : float * float;
  radius : float;
  popup : value * value
}.

Record folium_map : Type := {
  map_center : R * R;
  zoom_start : Z;
  markers : list marker
}.

(** Arithmetic needs a number; a string operand is a [TypeError]. *)
Definition count_of (v : value) : res Z :=
  match v with
  | VInt n => Ok n
  | VStr _ => Raise TypeError
  end.

Fixpoint counts_of (data : list station) : res (list Z) :=
  match data with
  | [] => mret []
  | r :: data' => c ← count_of (passengers r); cs ← counts_of data'; mret (c :: cs)
  end.

(** The type pandas gives a column of integers: 64-bit signed when every
    value fits, 64-bit unsigned when every value is non-negative and fits,
    and Python's own integers otherwise. *)
Inductive dtype : Type := Int64 | UInt64 | Object.

Definition in_int64 (n : Z) : bool := (- 2 ^ 63 <=? n) && (n <? 2 ^ 63).
Definition in_uint64 (n : Z) : bool := (0 <=? n) && (n <? 2 ^ 64).

Definition series_dtype (counts : list Z) : dtype :=
  if forallb in_int64 counts then Int64
  else if forallb in_uint64 counts then UInt64
  else Object.

(** The result of an integer operation with exact value [n] in a type:
    numpy's integers wrap around, Python's do not. *)
Definition wrap (dt : dtype) (n : Z) : Z :=
  match dt with
  | Int64 => (n + 2 ^ 63) mod 2 ^ 64 - 2 ^ 63
  | UInt64 => n mod 2 ^ 64
  | Object => n
  end.

(** numpy's true division of integers: a zero divisor gives nan or an
    infinity (and a warning), not an exception. *)
Definition np_divide (a b : Z) : float :=
  if Z.eqb b 0 then (if Z.eqb a 0 then NaN else Infinity (a <? 0))
  else Finite (IZR a / IZR b)%R.

(** [Series.min()] and [Series.max()] of a series with first value [c]. *)
Definition series_min (c : Z) (cs : list Z) : Z := fold_left Z.min cs c.
Definition series_max (c : Z) (cs : list Z) : Z := fold_left Z.max cs c.

(** [5 + (p - min) / (max - min) * 15], where [min] and [max] are values
    of the column and [p] is the integer of the row.  Nothing is checked
    before the division. *)
Definition marker_size (dt : dtype) (p min_passengers max_passengers : Z)
    : res float :=
  let difference := wrap dt (p - min_passengers) in
  let divisor := wrap dt (max_passengers - min_passengers) in
  quotient ← match dt with
             | Object => int_truediv difference divisor
             | _ => Ok (np_divide difference divisor)
             end;
  mret (fadd (Finite 5) (fmul quotient (Finite 15))).

Fixpoint add_markers (data : list station) (dt : dtype) (mn mx : Z)
    : res (list marker) :=
  match data with
  | [] => mret []
  | row :: data' =>
      p ← count_of (passengers row);
      size ← marker_size dt p mn mx;
      ms ← add_markers data' dt mn mx;
      mret ({| m_location := (snd (location row), fst (location row));
               radius := size;
               popup := (name row, passengers row) |} :: ms)
  end.

(** [data['properties']] raises [KeyError] on the frame without columns
    that an empty list of stations makes. *)
Definition create_map (data : list station) (center : R * R) (zoom : Z)
    : res folium_map :=
  match data with
  | [] => Raise KeyError
  | _ :: _ =>
      counts ← counts_of data;
      match counts with
      | [] => Raise KeyError
      | c :: cs =>
          let min_passengers := series_min c cs in
          let max_passengers := series_max c cs in
          ms ← add_markers data (series_dtype counts)
                           min_passengers max_passengers;
          mret {| map_center := center; zoom_start := zoom; markers := ms |}
      end
  end.

(* ================================================================== *)
(** ** Notions the statements use                                      *)
(* ================================================================== *)

(** A computation only ever appends to the log, and what it returns and
    appends does not depend on what was printed before. *)
Definition appends {A} (m : M A) : Prop :=
  forall out, m out = (fst (m []), out ++ snd (m [])).

(** The property mapping the loop body works on: [feature.get('properties', {})]. *)
Definition props (feat : feature) : gmap string value :=
  default ∅ (f_properties feat).

(** The geometry types with a branch of their own. *)
Definition supported (ty : string) : bool :=
  String.eqb ty "LineString" || String.eqb ty "Polygon" || String.eqb ty "Point".

(** The features that end up in the output: those with a station name and
    a supported geometry type. *)
Definition kept (feat : feature) : bool :=
  bool_decide (is_Some (props feat !! "S12_001_ja"))
  && supported (gtype (f_geometry feat)).

(** The station a kept feature gives: its name, its passenger count (0 when
    the feature has none) and the transform of the fractional tile position
    of its first coordinate. *)
Definition station_of (lay : layer) (x y z : Z) (feat : feature) (r : station)
    : Prop :=
  props feat !! "S12_001_ja" = Some (name r) /\
  passengers r = default (VInt 0) (props feat !! "S12_009") /\
  exists coords cx cy px py,
    select_coords (f_geometry feat) = Ok (Some coords) /\
    subscript coords 0 = Ok (PInt cx) /\
    subscript coords 1 = Ok (PInt cy) /\
    position x (PInt cx) (extent lay) = Ok px /\
    position y (PInt cy) (extent lay) = Ok py /\
    tile_to_latlon_float px py z = Ok (location r).

(** A pair of finite doubles. *)
Definition finite_pair (p : R * R) : float * float :=
  (Finite (fst p), Finite (snd p)).

(** Integers far inside the range of doubles. *)
Definition moderate (n : Z) : Prop := Z.abs n <= 2 ^ 999.

(** The rows [math.sinh] does not overflow on. *)
Definition sinh_in_range (y : R) (z : Z) : Prop :=
  (Rabs (sinh (PI * (1 - 2 * y / powerRZ 2 z))) <= DBL_MAX)%R.

(** A tile, an extent and a local coordinate with which every double of
    the transform is finite. *)
Definition in_range (ext x y z cx cy : Z) : Prop :=
  ext <> 0 /\ 0 <= z <= 1023 /\
  moderate x /\ moderate y /\ moderate cx /\ moderate cy /\
  sinh_in_range (IZR y + IZR cy / IZR ext)%R z.

Section Files.

Variable open_read : string -> res (list Byte.byte).
Variable decode : list Byte.byte -> res tile.

(** The files the loop looks at: those whose name ends with [.pbf]. *)
Definition matching (files : list string) : list string :=
  List.filter (fun file => endswith file ".pbf") files.

(** What [read_pbf] returns for one file of the directory, and what it
    prints. *)
Definition file_result (directory file : string) : option (list station) :=
  match fst (run (read_pbf open_read decode (path_join directory file))) with
  | Ok r => r
  | Raise _ => None
  end.

Definition file_log (directory file : string) : list diag :=
  snd (run (read_pbf open_read decode (path_join directory file))).

(** The stations a file contributes: those it returned, none when it
    returned [None]. *)
Definition file_records (directory file : string) : list station :=
  default [] (file_result directory file).

(** Whether the decode of a file gave a result ("valid" file) or [None]. *)
Definition decodes (directory file : string) : bool :=
  match file_result directory file with
  | Some _ => true
  | None => false
  end.

(** The file-count rule as the specification words it, to compare with
    what the program prints: on a directory with [N] valid matching files
    the file-count diagnostic reports [N]. *)
Definition count_reports_valid (listdir : string -> res (list string))
    (directory : string) : Prop :=
  forall files recs log,
    listdir directory = Ok files ->
    run (load_all_pbf_files open_read listdir decode directory) = (Ok recs, log) ->
    In (InfoFileCount (length (List.filter (decodes directory) (matching files))))
       log.

End Files.

(** The local coordinate the loop body reads from a geometry, when the
    geometry has one: the first two numbers of what [select_coords] picks. *)
Definition first_coordinate (geom : geometry) : option (Z * Z) :=
  match select_coords geom with
  | Ok (Some coords) =>
      match subscript coords 0, subscript coords 1 with
      | Ok (PInt cx), Ok (PInt cy) => Some (cx, cy)
      | _, _ => None
      end
  | _ => None
  end.

(** Whether a character occurs in a string. *)
Fixpoint occurs (c : ascii) (s : string) : bool :=
  match s with
  | EmptyString => false
  | String c' s' => Ascii.eqb c' c || occurs c s'
  end.

(** Whether every character of a string passes a test. *)
Fixpoint all_chars (P : ascii -> bool) (s : string) : bool :=
  match s with
  | EmptyString => true
  | String c s' => P c && all_chars P s'
  end.

(** The decimal digits, and the characters that are neither blank nor one
    of the separators of a file name. *)
Definition is_digit (c : ascii) : bool :=
  match digit_of c with Some _ => true | None => false end.

Definition plain (c : ascii) : bool :=
  negb (is_space c) && negb (Ascii.eqb c "_") && negb (Ascii.eqb c ".").

(** A file name the tile coordinate can be read from: at least two parts
    between underscores, the second to last an integer literal, and the
    last one an integer literal up to its first dot. *)
Definition name_matches (file_name : string) : Prop :=
  exists front xs last_part ys more x y,
    split "_" file_name = front ++ [xs; last_part] /\
    split "." last_part = ys :: more /\
    int xs = Ok x /\ int ys = Ok y.

(** The radius the linear rule gives a count between the observed minimum
    and maximum. *)
Definition linear_radius (p mn mx : Z) : R :=
  (5 + IZR (p - mn) / IZR (mx - mn) * 15)%R.

(** Counts whose differences numpy computes without wrapping around: in a
    column of 64-bit signed integers the spread stays below [2^63]. *)
Definition exact_spread (c : Z) (cs : list Z) : Prop :=
  series_dtype (c :: cs) = Int64 -> series_max c cs - series_min c cs < 2 ^ 63.

(** The tile coordinate as the specification words it, to compare with
    [tile_of_name]: [y] is the last part with its trailing extension
    stripped, that is, without what follows its last dot. *)
Fixpoint join_dots (parts : list string) : string :=
  match parts with
  | [] => EmptyString
  | [p] => p
  | p :: ps => p +:+ "." +:+ join_dots ps
  end.

Definition strip_extension (s : string) : string :=
  match split "." s with
  | (_ :: _ :: _) as parts => join_dots (removelast parts)
  | _ => s
  end.

Definition tile_of_name_as_worded (file_name : string) : res (Z * Z * Z) :=
  let parts := split "_" file_name in
  xs ← getitem_neg parts 2;
  last_part ← getitem_neg parts 1;
  x ← int xs;
  y ← int (strip_extension last_part);
  mret (15, x, y).

(** The number of digits of the numeral of an integer. *)
Definition digit_count (n : Z) : nat := String.length (str (Z.abs n)).

(* ================================================================== *)
(** ** Fixed-point bounds for the exponential                          *)
(* ================================================================== *)

(** Numbers with 64 fractional bits, to enclose [exp] between two values
    that can be computed: [exp x] is the [2^k]-th power of [exp (x / 2^k)],
    which lies between [1 + y] and [1 / (1 - y)] for [y = x / 2^k]. *)
Definition scale : Z := 2 ^ 64.

(** The real number a fixed-point number stands for. *)
Definition fix2R (n : Z) : R := (IZR n / IZR scale)%R.

(** Squaring, rounded down and rounded up. *)
Definition sq_down (n : Z) : Z := n * n / scale.
Definition sq_up (n : Z) : Z := n * n / scale + 1.

(** A lower and an upper bound of [exp x] for a fixed-point [x]. *)
Definition exp_lo (x : Z) (k : nat) : Z :=
  Nat.iter k sq_down (scale + x / 2 ^ Z.of_nat k).
Definition exp_hi (x : Z) (k : nat) : Z :=
  Nat.iter k sq_up (scale * scale / (scale - (x / 2 ^ Z.of_nat k + 1)) + 1).

(* ================================================================== *)
(** ** Sample data                                                     *)
(* ================================================================== *)

Module Sample.

Definition point (x y : Z) : geometry :=
  {| gtype := "Point"; coordinates := PList [PInt x; PInt y] |}.

Definition line : geometry :=
  {| gtype := "LineString";
     coordinates := PList [PList [PInt 3; PInt 4]; PList [PInt 5; PInt 6]] |}.

Definition polygon : geometry :=
  {| gtype := "Polygon";
     coordinates :=
       PList [PList [PList [PInt 7; PInt 8]; PList [PInt 9; PInt 8];
                     PList [PInt 9; PInt 10]; PList [PInt 7; PInt 8]]] |}.

Definition multipolygon : geometry :=
  {| gtype := "MultiPolygon"; coordinates := PList [] |}.

(** A station with a name and a passenger count. *)
Definition tokyo : feature :=
  {| f_properties :=
       Some (list_to_map [("S12_001_ja", VStr "Tokyo"); ("S12_009", VInt 100)]);
     f_geometry := point 1 2 |}.

(** A feature that is no station. *)
Definition road : feature :=
  {| f_properties := Some (list_to_map [("kind", VStr "road")]);
     f_geometry := line |}.

(** A station without a passenger count, drawn as a line. *)
Definition ueno : feature :=
  {| f_properties := Some (list_to_map [("S12_001_ja", VStr "Ueno")]);
     f_geometry := line |}.

(** A station drawn as a polygon. *)
Definition shinjuku : feature :=
  {| f_properties :=
       Some (list_to_map [("S12_001_ja", VStr "Shinjuku"); ("S12_009", VInt 50)]);
     f_geometry := polygon |}.

(** A station with a geometry type the program does not know. *)
Definition shibuya : feature :=
  {| f_properties := Some (list_to_map [("S12_001_ja", VStr "Shibuya")]);
     f_geometry := multipolygon |}.

Definition stations : layer :=
  {| extent := 4096; features := [tokyo; road; shibuya; ueno; shinjuku] |}.

Definition roads : layer :=
  {| extent := 4096; features := [ueno; tokyo] |}.

(** A decoder on one-byte files: [0x00] is an empty tile, [0x01] a tile
    with the layer [stations], [0x02] a tile with the layers [stations] and
    [roads]; anything else does not parse. *)
Definition decode (data : list Byte.byte) : res tile :=
  match data with
  | [Byte.x00] => Ok []
  | [Byte.x01] => Ok [("stations", stations)]
  | [Byte.x02] => Ok [("stations", stations); ("roads", roads)]
  | _ => Raise DecodeError
  end.

(** Three directories: [mesh] with tile files and a stray text file,
    [docs] without any tile file, and [bad] with tile files that all fail
    (one has no tile coordinate in its name, one holds an empty tile). *)
Definition listdir (directory : string) : res (list string) :=
  if String.eqb directory "mesh"
  then Ok ["mesh_29102_12903.pbf"; "notes.txt"; "mesh_29103_12903.pbf";
           "broken.pbf"]
  else if String.eqb directory "docs" then Ok ["notes.txt"; "README"]
  else if String.eqb directory "bad" then Ok ["broken.pbf"; "empty_1_2.pbf"]
  else Raise OSError.

Definition open_read (file_path : string) : res (list Byte.byte) :=
  if String.eqb file_path "mesh/mesh_29102_12903.pbf" then Ok [Byte.x02]
  else if String.eqb file_path "mesh/mesh_29103_12903.pbf" then Ok [Byte.xff]
  else if String.eqb file_path "mesh/broken.pbf" then Ok [Byte.x01]
  else if String.eqb file_path "mesh/notes.txt" then Ok [Byte.x00]
  else if String.eqb file_path "bad/broken.pbf" then Ok [Byte.x01]
  else if String.eqb file_path "bad/empty_1_2.pbf" then Ok [Byte.x00]
  else Raise OSError.

(** A decoder that only ever sees the layer [stations], under another
    name. *)
Definition decode_single (data : list Byte.byte) : res tile :=
  match data with
  | [Byte.x00] => Ok []
  | [Byte.x01] | [Byte.x02] => Ok [("only", stations)]
  | _ => Raise DecodeError
  end.

(** The stations of the layer [stations] in the tile (29102, 12903). *)
Definition extracted : list station :=
  [ {| location := finite_pair
                     (tile_to_latlon (IZR 29102 + IZR 1 / IZR 4096)
                                     (IZR 12903 + IZR 2 / IZR 4096) 15);
       name := VStr "Tokyo"; passengers := VInt 100 |};
    {| location := finite_pair
                     (tile_to_latlon (IZR 29102 + IZR 3 / IZR 4096)
                                     (IZR 12903 + IZR 4 / IZR 4096) 15);
       name := VStr "Ueno"; passengers := VInt 0 |};
    {| location := finite_pair
                     (tile_to_latlon (IZR 29102 + IZR 7 / IZR 4096)
                                     (IZR 12903 + IZR 8 / IZR 4096) 15);
       name := VStr "Shinjuku"; passengers := VInt 50 |} ].

Definition station_with (n : Z) : station :=
  {| location := (Finite 0, Finite 0); name := VStr "station";
     passengers := VInt n |}.


(** A station far below the tile grid: local row 4000000 in the tile
    (0, 0), in a layer of extent 1. *)
Definition far_south : feature :=
  {| f_properties := Some (list_to_map [("S12_001_ja", VStr "Far south")]);
     f_geometry := point 0 4000000 |}.

Definition unit_layer : layer := {| extent := 1; features := [far_south] |}.


End Sample.

(* ================================================================== *)
(** ** Further notions                                                 *)
(* ================================================================== *)

(** The named features the loop skips with a warning. *)
Definition skipped (feat : feature) : bool :=
  bool_decide (is_Some (props feat !! "S12_001_ja"))
  && negb (supported (gtype (f_geometry feat))).

(** The warnings a run of the loop prints, in order. *)
Definition warnings (feats : list feature) : list diag :=
  map (fun feat => WarnUnsupportedGeometry (gtype (f_geometry feat)))
      (List.filter skipped feats).

(** The radii of a drawn map, to compare two runs of [create_map]. *)
Definition radii_of (drawn : res folium_map) : res (list float) :=
  m ← drawn; mret (map radius (markers m)).

(** What [main] prints: its own lines, and the diagnostics of the
    functions it calls. *)
Inductive main_output : Type :=
| PrintLoading
| Printed (d : diag)
| PrintStationCount (n : nat)
| PrintBounds (bounds : float * float * float * float)
| PrintSaved.

(** [GeoDataFrame.total_bounds] of a frame of points with first row [r]:
    [(minx, miny, maxx, maxy)]. *)
Definition total_bounds (r : station) (rs : list station)
    : float * float * float * float :=
  (fold_left fmin (map (fun s => fst (location s)) rs) (fst (location r)),
   fold_left fmin (map (fun s => snd (location s)) rs) (snd (location r)),
   fold_left fmax (map (fun s => fst (location s)) rs) (fst (location r)),
   fold_left fmax (map (fun s => snd (location s)) rs) (snd (location r))).

Section Main.

Variable open_read : string -> res (list Byte.byte).
Variable listdir : string -> res (list string).
Variable decode : list Byte.byte -> res tile.

(** [folium.Map.save]: writing the document may fail. *)
Variable save : string -> folium_map -> res unit.

(** The entry point.  It returns nothing in Python; here its value is the
    map it has written to [tokyo_station_map.html], if any. *)
Definition main : res (option folium_map) * list main_output :=
  let pbf_dir := "500m_mesh/station_users_500m_mesh" in
  let center := (35.6852, 139.7528)%R in
  let zoom := 11 in
  let '(loaded, log) :=
    run (load_all_pbf_files open_read listdir decode pbf_dir) in
  let out := PrintLoading :: map Printed log in
  match loaded with
  | Raise e => (Raise e, out)
  | Ok [] => (Ok None, out ++ [Printed WarnNoData])
  | Ok (r :: rs) =>
      let out := out ++ [PrintStationCount (length (r :: rs));
                         PrintBounds (total_bounds r rs)] in
      match create_map (r :: rs) center zoom with
      | Raise e => (Raise e, out)
      | Ok m =>
          match save "tokyo_station_map.html" m with
          | Raise e => (Raise e, out)
          | Ok _ => (Ok (Some m), out ++ [PrintSaved])
          end
      end
  end.

End Main.

(** More sample data: features the loop cannot read. *)
Module Broken.

(** A named line without any point. *)
Definition empty_line : feature :=
  {| f_properties := Some (list_to_map [("S12_001_ja", VStr "Kanda")]);
     f_geometry := {| gtype := "LineString"; coordinates := PList [] |} |}.

(** A layer whose last feature cannot be read. *)
Definition stations : layer :=
  {| extent := 4096; features := [Sample.tokyo; Sample.ueno; empty_line] |}.

(** A layer without any station. *)
Definition roads : layer :=
  {| extent := 0; features := [Sample.road; Sample.road] |}.

Definition decode (data : list Byte.byte) : res tile :=
  match data with
  | [Byte.x01] => Ok [("stations", stations)]
  | [Byte.x02] => Ok [("roads", roads)]
  | _ => Raise DecodeError
  end.

Definition open_read (file_path : string) : res (list Byte.byte) :=
  if String.eqb file_path "mesh/mesh_1_2.pbf" then Ok [Byte.x01]
  else if String.eqb file_path "mesh/roads_1_2.pbf" then Ok [Byte.x02]
  else Raise OSError.

End Broken.

(** A tile file whose only station lies far below the tile grid. *)
Module Far.

Definition decode (data : list Byte.byte) : res tile :=
  match data with
  | [Byte.x01] => Ok [("stations", Sample.unit_layer)]
  | _ => Raise DecodeError
  end.

Definition open_read (file_path : string) : res (list Byte.byte) :=
  if String.eqb file_path "mesh/mesh_0_0.pbf" then Ok [Byte.x01]
  else Raise OSError.

End Far.

(** The input directory of [main], holding one tile file and a note. *)
Module Tokyo.

Definition listdir (directory : string) : res (list string) :=
  if String.eqb directory "500m_mesh/station_users_500m_mesh"
  then Ok ["mesh_29102_12903.pbf"; "notes.txt"]
  else Raise OSError.

Definition open_read (file_path : string) : res (list Byte.byte) :=
  if String.eqb file_path
       "500m_mesh/station_users_500m_mesh/mesh_29102_12903.pbf"
  then Ok [Byte.x02]
  else Raise OSError.

(** The same directory without the note. *)
Definition listdir_tiles (directory : string) : res (list string) :=
  if String.eqb directory "500m_mesh/station_users_500m_mesh"
  then Ok ["mesh_29102_12903.pbf"]
  else Raise OSError.

(** A directory without tile files, and one that does not exist. *)
Definition listdir_notes (directory : string) : res (list string) :=
  Ok ["notes.txt"].

Definition listdir_missing (directory : string) : res (list string) :=
  Raise OSError.

Definition save (path : string) (m : folium_map) : res unit := Ok tt.

End Tokyo.

(* ================================================================== *)
(** ** Facts about computations                                        *)
(* ================================================================== *)

Section Computations.

Context {A B : Type}.

Lemma bind_unfold (m : M A) (k : A -> M B) (out : list diag) :
  (m ≫= k) out =
  match m out with
  | (Ok a, out') => k a out'
  | (Raise e, out') => (Raise e, out')
  end.
Proof. reflexivity. Qed.

Lemma bind_lift_ok (a : A) (k : A -> M B) (out : list diag) :
  (lift (Ok a) ≫= k) out = k a out.
Proof. reflexivity. Qed.

Lemma bind_lift_raise (e : exn) (k : A -> M B) (out : list diag) :
  (lift (Raise e) ≫= k) out = (Raise e, out).
Proof. reflexivity. Qed.

End Computations.

Lemma appends_ret {A} (a : A) : appends (mret a : M A).
Proof. intros out. cbn. by rewrite app_nil_r. Qed.

Lemma appends_raise {A} (e : exn) : appends (raise e : M A).
Proof. intros out. cbn. by rewrite app_nil_r. Qed.

Lemma appends_lift {A} (r : res A) : appends (lift r).
Proof. intros out. cbn. by rewrite app_nil_r. Qed.

Lemma appends_print (d : diag) : appends (print d).
Proof. intros out. reflexivity. Qed.

Lemma appends_bind {A B} (m : M A) (k : A -> M B) :
  appends m -> (forall a, appends (k a)) -> appends (m ≫= k).
Proof.
  intros Hm Hk out. rewrite !bind_unfold, (Hm out).
  destruct (m []) as [[a|e] l]; cbn.
  - rewrite (Hk a (out ++ l)), (Hk a l). cbn. by rewrite <- List.app_assoc.
  - reflexivity.
Qed.

Lemma appends_try {A} (body : M A) (handler : exn -> M A) :
  appends body -> (forall e, appends (handler e)) ->
  appends (try_except body handler).
Proof.
  intros Hb Hh out. unfold try_except. rewrite (Hb out).
  destruct (body []) as [[a|e] l]; cbn.
  - reflexivity.
  - rewrite (Hh e (out ++ l)), (Hh e l). cbn. by rewrite <- List.app_assoc.
Qed.

Lemma appends_for_in {A S} (body : A -> S -> M S) (l : list A) :
  (forall a s, appends (body a s)) -> forall s, appends (for_in body l s).
Proof.
  intros Hb. induction l as [|a l IH]; intros s; cbn [for_in].
  - apply appends_ret.
  - apply appends_bind; [apply Hb | apply IH].
Qed.

Create HintDb appends.
#[local] Hint Resolve appends_ret appends_raise appends_lift appends_print
  appends_bind appends_try appends_for_in : appends.

Lemma appends_feature_body lay x y z feat acc :
  appends (feature_body lay x y z feat acc).
Proof.
  unfold feature_body.
  destruct (default ∅ (f_properties feat) !! "S12_001_ja"); [|apply appends_ret].
  apply appends_bind; [apply appends_lift|].
  intros [coords|]; [|apply appends_bind; auto with appends].
  repeat (apply appends_bind; [apply appends_lift|]; intros ?).
  apply appends_ret.
Qed.

Section PipelineFacts.

Variable open_read : string -> res (list Byte.byte).
Variable listdir : string -> res (list string).
Variable decode : list Byte.byte -> res tile.

Lemma appends_read_pbf_body file_path :
  appends (read_pbf_body open_read decode file_path).
Proof.
  unfold read_pbf_body.
  apply appends_bind; [apply appends_lift|]. intros data.
  apply appends_bind; [apply appends_lift|]. intros [|[k lay] rest].
  - apply appends_bind; auto with appends.
  - apply appends_bind; [apply appends_lift|]. intros [[z x] y].
    apply appends_bind.
    + apply appends_for_in. intros. apply appends_feature_body.
    + intros feats. apply appends_bind; auto with appends.
Qed.

Lemma appends_read_pbf file_path :
  appends (read_pbf open_read decode file_path).
Proof.
  apply appends_try; [apply appends_read_pbf_body|].
  intros e. apply appends_bind; auto with appends.
Qed.

End PipelineFacts.

(* ================================================================== *)
(** ** Numerical bounds                                                *)
(* ================================================================== *)

Section Numerics.

Local Open Scope R_scope.

Lemma scale_pos : 0 < IZR scale.
Proof. apply IZR_lt. reflexivity. Qed.

Lemma fix2R_le (m n : Z) : (m <= n)%Z -> fix2R m <= fix2R n.
Proof.
  intros H. unfold fix2R. apply Rmult_le_compat_r.
  - left. apply Rinv_0_lt_compat, scale_pos.
  - by apply IZR_le.
Qed.

Lemma fix2R_nonneg (n : Z) : (0 <= n)%Z -> 0 <= fix2R n.
Proof.
  intros H. unfold fix2R. apply Rmult_le_pos.
  - by apply IZR_le.
  - left. apply Rinv_0_lt_compat, scale_pos.
Qed.

Lemma sq_down_le (n : Z) : fix2R (sq_down n) <= fix2R n * fix2R n.
Proof.
  pose proof scale_pos as HS. unfold fix2R, sq_down.
  assert (H : IZR scale * IZR (n * n / scale) <= IZR n * IZR n).
  { rewrite <- !mult_IZR. apply IZR_le. apply Z.mul_div_le. reflexivity. }
  replace (IZR n / IZR scale * (IZR n / IZR scale))
    with (IZR n * IZR n * (/ IZR scale * / IZR scale)) by (field; lra).
  replace (IZR (n * n / scale) / IZR scale)
    with (IZR scale * IZR (n * n / scale) * (/ IZR scale * / IZR scale))
    by (field; lra).
  apply Rmult_le_compat_r; [|exact H].
  pose proof (Rinv_0_lt_compat _ HS). nra.
Qed.

Lemma sq_down_nonneg (n : Z) : (0 <= sq_down n)%Z.
Proof. unfold sq_down. apply Z.div_pos; [nia|reflexivity]. Qed.

Lemma sq_up_ge (n : Z) : fix2R n * fix2R n <= fix2R (sq_up n).
Proof.
  pose proof scale_pos as HS. unfold fix2R, sq_up.
  assert (H : IZR n * IZR n <= IZR scale * IZR (n * n / scale + 1)).
  { rewrite <- !mult_IZR. apply IZR_le.
    pose proof (Z.mul_succ_div_gt (n * n) scale eq_refl). lia. }
  replace (IZR n / IZR scale * (IZR n / IZR scale))
    with (IZR n * IZR n * (/ IZR scale * / IZR scale)) by (field; lra).
  replace (IZR (n * n / scale + 1) / IZR scale)
    with (IZR scale * IZR (n * n / scale + 1) * (/ IZR scale * / IZR scale))
    by (field; lra).
  apply Rmult_le_compat_r; [|exact H].
  pose proof (Rinv_0_lt_compat _ HS). nra.
Qed.

Lemma exp_double (y : R) : exp (2 * y) = exp y * exp y.
Proof. replace (2 * y) with (y + y) by ring. apply exp_plus. Qed.

Lemma iter_sq_down (k : nat) (n : Z) (y : R) :
  (0 <= n)%Z -> fix2R n <= exp y ->
  (0 <= Nat.iter k sq_down n)%Z /\
  fix2R (Nat.iter k sq_down n) <= exp (2 ^ k * y).
Proof.
  intros Hn Hy. induction k as [|k [IH0 IH]].
  - cbn. rewrite Rmult_1_l. auto.
  - cbn [Nat.iter]. split; [apply sq_down_nonneg|].
    eapply Rle_trans; [apply sq_down_le|].
    replace (2 ^ S k * y) with (2 * (2 ^ k * y)) by (cbn; ring).
    rewrite exp_double.
    pose proof (fix2R_nonneg _ IH0).
    apply Rmult_le_compat; assumption.
Qed.

Lemma iter_sq_up (k : nat) (n : Z) (y : R) :
  exp y <= fix2R n ->
  exp (2 ^ k * y) <= fix2R (Nat.iter k sq_up n).
Proof.
  intros Hy. induction k as [|k IH].
  - cbn. by rewrite Rmult_1_l.
  - cbn [Nat.iter]. eapply Rle_trans; [|apply sq_up_ge].
    replace (2 ^ S k * y) with (2 * (2 ^ k * y)) by (cbn; ring).
    rewrite exp_double.
    pose proof (exp_pos (2 ^ k * y)) as Hp.
    apply Rmult_le_compat; [left; exact Hp|left; exact Hp|exact IH|exact IH].
Qed.

Lemma pow2_pos (k : nat) : 0 < 2 ^ k.
Proof. apply pow_lt. lra. Qed.

Lemma exp_le (x y : R) : x <= y -> exp x <= exp y.
Proof.
  intros [H| ->]; [left; by apply exp_increasing | right; reflexivity].
Qed.

(** fix2R (x / 2^k) <= fix2R x / 2^k *)
Lemma fix2R_shift_le (x : Z) (k : nat) :
  fix2R (x / 2 ^ Z.of_nat k) <= fix2R x / 2 ^ k.
Proof.
  pose proof scale_pos as HS. pose proof (pow2_pos k) as Hk.
  unfold fix2R.
  assert (H : IZR (x / 2 ^ Z.of_nat k) * 2 ^ k <= IZR x).
  { rewrite pow_IZR, <- mult_IZR. apply IZR_le.
    rewrite Z.mul_comm. apply Z.mul_div_le. apply Z.pow_pos_nonneg; lia. }
  apply Rmult_le_reg_r with (IZR scale * 2 ^ k); [nra|].
  field_simplify; [|lra..]. lra.
Qed.

Lemma fix2R_shift_ge (x : Z) (k : nat) :
  fix2R x / 2 ^ k <= fix2R (x / 2 ^ Z.of_nat k + 1).
Proof.
  pose proof scale_pos as HS. pose proof (pow2_pos k) as Hk.
  unfold fix2R.
  assert (H : IZR x <= IZR (x / 2 ^ Z.of_nat k + 1) * 2 ^ k).
  { rewrite pow_IZR, <- mult_IZR. apply IZR_le.
    assert (0 < 2 ^ Z.of_nat k)%Z by (apply Z.pow_pos_nonneg; lia).
    pose proof (Z.mul_succ_div_gt x (2 ^ Z.of_nat k) H). lia. }
  apply Rmult_le_reg_r with (IZR scale * 2 ^ k); [nra|].
  field_simplify; [|lra..]. lra.
Qed.

Theorem exp_lo_correct (x : Z) (k : nat) (r : R) :
  (0 <= x)%Z -> fix2R x <= r -> fix2R (exp_lo x k) <= exp r.
Proof.
  intros Hx Hr. unfold exp_lo.
  pose proof (pow2_pos k) as Hk.
  set (y := fix2R x / 2 ^ k).
  assert (Hbase : fix2R (scale + x / 2 ^ Z.of_nat k) <= exp y).
  { eapply Rle_trans; [|apply exp_ineq1_le].
    pose proof (fix2R_shift_le x k) as Hs. fold y in Hs.
    pose proof scale_pos.
    unfold fix2R in *. rewrite plus_IZR.
    replace ((IZR scale + IZR (x / 2 ^ Z.of_nat k)) / IZR scale)
      with (1 + IZR (x / 2 ^ Z.of_nat k) / IZR scale) by (field; lra).
    lra. }
  assert (Hnn : (0 <= scale + x / 2 ^ Z.of_nat k)%Z).
  { assert (0 <= x / 2 ^ Z.of_nat k)%Z.
    { apply Z.div_pos; [lia|]. apply Z.pow_pos_nonneg; lia. }
    assert (0 < scale)%Z by reflexivity. lia. }
  destruct (iter_sq_down k _ y Hnn Hbase) as [_ H].
  eapply Rle_trans; [exact H|]. apply exp_le.
  unfold y. replace (2 ^ k * (fix2R x / 2 ^ k)) with (fix2R x) by (field; lra).
  exact Hr.
Qed.

Theorem exp_hi_correct (x : Z) (k : nat) (r : R) :
  r <= fix2R x -> (x / 2 ^ Z.of_nat k + 1 < scale)%Z ->
  exp r <= fix2R (exp_hi x k).
Proof.
  intros Hr Hlt. unfold exp_hi.
  pose proof (pow2_pos k) as Hk. pose proof scale_pos as HS.
  set (y := fix2R x / 2 ^ k).
  set (d := (x / 2 ^ Z.of_nat k + 1)%Z) in *.
  assert (Hd : y <= fix2R d) by apply fix2R_shift_ge.
  assert (Hd1 : fix2R d < 1).
  { assert (IZR d < IZR scale) by (by apply IZR_lt).
    unfold fix2R. apply Rmult_lt_reg_r with (IZR scale); [lra|].
    replace (IZR d / IZR scale * IZR scale) with (IZR d) by (field; lra).
    lra. }
  assert (Hbase : exp y <= fix2R (scale * scale / (scale - d) + 1)).
  { (* exp y <= / (1 - y) *)
    assert (He : exp y <= / (1 - fix2R d)).
    { pose proof (exp_ineq1_le (- y)) as H1.
      rewrite exp_Ropp in H1.
      pose proof (exp_pos y) as Hp.
      assert (0 < 1 - fix2R d) by lra.
      rewrite <- (Rinv_inv (exp y)).
      apply Rinv_le_contravar; lra. }
    eapply Rle_trans; [exact He|].
    assert (Hsd : (0 < scale - d)%Z) by lia.
    assert (HZ : (scale * scale <= (scale * scale / (scale - d) + 1) * (scale - d))%Z).
    { pose proof (Z.mul_succ_div_gt (scale * scale) (scale - d) Hsd). lia. }
    apply IZR_le in HZ. rewrite !mult_IZR, minus_IZR in HZ.
    assert (HsdR : 0 < IZR scale - IZR d).
    { rewrite <- minus_IZR. by apply IZR_lt. }
    unfold fix2R.
    replace (/ (1 - IZR d / IZR scale)) with (IZR scale / (IZR scale - IZR d))
      by (field; lra).
    apply Rmult_le_reg_r with ((IZR scale - IZR d) * IZR scale); [nra|].
    field_simplify; [|lra..]. lra. }
  pose proof (iter_sq_up k _ y Hbase) as H.
  eapply Rle_trans; [|exact H]. apply exp_le.
  unfold y. replace (2 ^ k * (fix2R x / 2 ^ k)) with (fix2R x) by (field; lra).
  exact Hr.
Qed.

Lemma PI_bounds : 31415926 / 10000000 < PI < 31415927 / 10000000.
Proof.
  pose proof (PI_2_3_7_ineq 4) as [Hl Hu].
  unfold PI_2_3_7_tg, tg_alt, Ratan_seq in Hl, Hu.
  simpl in Hl, Hu. split; lra.
Qed.

Lemma fix2R_ratio_le (a b n : Z) :
  (0 < b)%Z -> (a * scale <= b * n)%Z -> IZR a / IZR b <= fix2R n.
Proof.
  intros Hb H. pose proof scale_pos as HS.
  assert (HbR : 0 < IZR b) by (by apply IZR_lt).
  apply IZR_le in H. rewrite !mult_IZR in H. unfold fix2R.
  apply Rmult_le_reg_r with (IZR b * IZR scale); [nra|].
  field_simplify; [|lra..]. lra.
Qed.

Lemma fix2R_ratio_ge (a b n : Z) :
  (0 < b)%Z -> (b * n <= a * scale)%Z -> fix2R n <= IZR a / IZR b.
Proof.
  intros Hb H. pose proof scale_pos as HS.
  assert (HbR : 0 < IZR b) by (by apply IZR_lt).
  apply IZR_le in H. rewrite !mult_IZR in H. unfold fix2R.
  apply Rmult_le_reg_r with (IZR b * IZR scale); [nra|].
  field_simplify; [|lra..]. lra.
Qed.

Lemma exp_PI_bounds : 2314069 / 100000 <= exp PI <= 2314070 / 100000.
Proof.
  destruct PI_bounds as [Hl Hu]. split.
  - set (x := (31415926 * scale / 10000000)%Z).
    eapply Rle_trans; [|apply (exp_lo_correct x 27 PI)].
    + apply fix2R_ratio_le; [reflexivity|]. vm_compute. discriminate.
    + vm_compute. discriminate.
    + eapply Rle_trans; [apply (fix2R_ratio_ge 31415926 10000000)|lra].
      * reflexivity.
      * vm_compute. discriminate.
  - set (x := (31415927 * scale / 10000000 + 1)%Z).
    eapply Rle_trans; [apply (exp_hi_correct x 27 PI)|].
    + eapply Rle_trans; [|apply (fix2R_ratio_le 31415927 10000000)].
      * lra.
      * reflexivity.
      * vm_compute. discriminate.
    + vm_compute. reflexivity.
    + apply fix2R_ratio_ge; [reflexivity|]. vm_compute. discriminate.
Qed.

(** atan by its alternating series *)
Lemma atan_series (x : R) (N : nat) :
  0 < x < 1 ->
  sum_f_R0 (tg_alt (Ratan_seq x)) (S (2 * N)%nat) <= atan x
    <= sum_f_R0 (tg_alt (Ratan_seq x)) (2 * N)%nat.
Proof.
  intros Hx. rewrite (atan_eq_ps_atan x Hx). unfold ps_atan.
  destruct (Ratan.in_int x) as [Hin|Hout]; [|exfalso; apply Hout; lra].
  destruct (ps_atan_exists_1 x Hin) as [v Hv].
  apply alternated_series_ineq.
  - apply Ratan_seq_decreasing. lra.
  - apply Ratan_seq_converging. lra.
  - exact Hv.
Qed.

Lemma sinh_PI_bounds :
  (2314069 / 100000 - 100000 / 2314069) / 2 <= sinh PI
    <= (2314070 / 100000 - 100000 / 2314070) / 2.
Proof.
  destruct exp_PI_bounds as [Hl Hu]. unfold sinh. rewrite exp_Ropp.
  pose proof (exp_pos PI) as Hp.
  assert (H1 : / exp PI <= 100000 / 2314069).
  { replace (100000 / 2314069) with (/ (2314069 / 100000)) by (field; lra).
    apply Rinv_le_contravar; lra. }
  assert (H2 : 100000 / 2314070 <= / exp PI).
  { replace (100000 / 2314070) with (/ (2314070 / 100000)) by (field; lra).
    apply Rinv_le_contravar; lra. }
  split; lra.
Qed.

Lemma inv_sinh_PI_bounds :
  865895 / 10000000 < / sinh PI < 865896 / 10000000.
Proof.
  destruct sinh_PI_bounds as [Hl Hu].
  set (s := sinh PI) in *.
  assert (Hs : 0 < s) by lra.
  assert (Hu1 : / s * s = 1) by (field; lra).
  pose proof (Rinv_0_lt_compat s Hs) as Hi.
  split.
  - apply Rmult_lt_reg_r with s; [exact Hs|]. rewrite Hu1. lra.
  - apply Rmult_lt_reg_r with s; [exact Hs|]. rewrite Hu1. lra.
Qed.

Lemma atan_inv_sinh_PI_bounds :
  8637405 / 100000000 < atan (/ sinh PI) < 8637417 / 100000000.
Proof.
  destruct inv_sinh_PI_bounds as [Hl Hu]. split.
  - eapply Rlt_trans; [|apply atan_increasing; exact Hl].
    assert (Hx : 0 < 865895 / 10000000 < 1) by lra.
    destruct (atan_series _ 1 Hx) as [Hs _].
    unfold tg_alt, Ratan_seq in Hs. simpl in Hs. lra.
  - eapply Rlt_trans; [apply atan_increasing; exact Hu|].
    assert (Hx : 0 < 865896 / 10000000 < 1) by lra.
    destruct (atan_series _ 1 Hx) as [_ Hs].
    unfold tg_alt, Ratan_seq in Hs. simpl in Hs. lra.
Qed.

(** The latitude of the top edge of the world tile. *)
Lemma mercator_edge_bounds :
  8505112 / 100000 < degrees (atan (sinh PI)) < 8505114 / 100000.
Proof.
  destruct atan_inv_sinh_PI_bounds as [Hal Hau].
  destruct PI_bounds as [Hpl Hpu].
  destruct sinh_PI_bounds as [Hsl _].
  assert (Hs : 0 < sinh PI) by lra.
  pose proof (atan_inv (sinh PI) Hs) as Hinv.
  set (a := atan (/ sinh PI)) in *.
  assert (Hgd : atan (sinh PI) = PI / 2 - a) by lra.
  unfold degrees. rewrite Hgd.
  replace ((PI / 2 - a) * (180 / PI)) with (90 - 180 * (a * / PI))
    by (field; lra).
  assert (Hi1 : / PI < 10000000 / 31415926).
  { replace (10000000 / 31415926) with (/ (31415926 / 10000000)) by (field; lra).
    apply Rinv_lt_contravar; [|lra]. apply Rmult_lt_0_compat; lra. }
  assert (Hi2 : 10000000 / 31415927 < / PI).
  { replace (10000000 / 31415927) with (/ (31415927 / 10000000)) by (field; lra).
    apply Rinv_lt_contravar; [|lra]. apply Rmult_lt_0_compat; lra. }
  assert (Hlo : 8637405 / 100000000 * (10000000 / 31415927) < a * / PI).
  { apply Rmult_le_0_lt_compat; lra. }
  assert (Hhi : a * / PI < 8637417 / 100000000 * (10000000 / 31415926)).
  { apply Rmult_le_0_lt_compat; lra. }
  split; lra.
Qed.

Lemma sinh_opp (x : R) : sinh (- x) = - sinh x.
Proof. unfold sinh. rewrite Ropp_involutive. field. Qed.

Lemma pow2Z_pos (z : Z) : 0 < powerRZ 2 z.
Proof. apply powerRZ_lt. lra. Qed.

Lemma degrees_div (x : R) : degrees x = x * 180 / PI.
Proof. unfold degrees. field. apply PI_neq0. Qed.

Lemma degrees_lt (a b : R) : a < b -> degrees a < degrees b.
Proof.
  intros H. unfold degrees. apply Rmult_lt_compat_r; [|exact H].
  apply Rdiv_lt_0_compat; [lra|apply PI_RGT_0].
Qed.

Lemma degrees_half_pi : degrees (PI / 2) = 90.
Proof. unfold degrees. field. apply PI_neq0. Qed.

Lemma degrees_opp (a : R) : degrees (- a) = - degrees a.
Proof. unfold degrees. ring. Qed.

Lemma degrees_atan_bound (u : R) : -90 < degrees (atan u) < 90.
Proof.
  destruct (atan_bound u) as [Hl Hu].
  apply degrees_lt in Hl, Hu.
  replace (- PI / 2) with (- (PI / 2)) in Hl by (field).
  rewrite degrees_opp, degrees_half_pi in Hl. rewrite degrees_half_pi in Hu.
  split; assumption.
Qed.

End Numerics.

(* ================================================================== *)
(** ** Doubles                                                         *)
(* ================================================================== *)

Lemma int_overflow_large : 2 ^ 1000 < int_overflow.
Proof. apply Z.ltb_lt. vm_compute. reflexivity. Qed.

Lemma moderate_small (n : Z) : moderate n -> Z.abs n < int_overflow.
Proof.
  unfold moderate. intros H. pose proof int_overflow_large as Hl.
  assert (H9 : 2 ^ 999 < 2 ^ 1000) by (apply Z.ltb_lt; vm_compute; reflexivity).
  generalize dependent (2 ^ 999). generalize dependent (2 ^ 1000). lia.
Qed.

Lemma float_of_int_moderate (n : Z) :
  moderate n -> float_of_int n = Ok (Finite (IZR n)).
Proof.
  intros H%moderate_small. unfold float_of_int.
  by destruct (Z.ltb_spec (Z.abs n) int_overflow); [|lia].
Qed.

Section Doubles.

Local Open Scope R_scope.

(** A bound far inside the range of doubles, and what it leaves room for. *)
Lemma room : 1 <= IZR (2 ^ 999) /\ 10000 * IZR (2 ^ 999) <= DBL_MAX.
Proof.
  unfold DBL_MAX. split.
  - apply IZR_le. apply Z.leb_le. vm_compute. reflexivity.
  - rewrite <- mult_IZR. apply IZR_le. apply Z.leb_le. vm_compute. reflexivity.
Qed.

Lemma moderate_IZR (n : Z) : moderate n -> Rabs (IZR n) <= IZR (2 ^ 999).
Proof. unfold moderate. intros H. rewrite <- abs_IZR. by apply IZR_le. Qed.

Lemma DBL_MAX_rounds : DBL_MAX < IZR int_overflow.
Proof. unfold DBL_MAX. apply IZR_lt. apply Z.ltb_lt. vm_compute. reflexivity. Qed.

Lemma round_finite (r : R) : Rabs r <= DBL_MAX -> round r = Finite r.
Proof.
  intros H. pose proof DBL_MAX_rounds. unfold round.
  destruct (Rlt_dec (Rabs r) (IZR int_overflow)); [done|lra].
Qed.

Lemma Rabs_bound (r b : R) : - b <= r <= b -> Rabs r <= b.
Proof. intros [H1 H2]. apply Rabs_le. lra. Qed.

Lemma Rabs_bound_inv (r b : R) : Rabs r <= b -> - b <= r <= b.
Proof.
  intros H. unfold Rabs in H. destruct (Rcase_abs r); lra.
Qed.

(** Dividing by a number that is at least one does not enlarge. *)
Lemma div_shrinks (x n b : R) : 1 <= n -> - b <= x <= b -> - b <= x / n <= b.
Proof.
  intros Hn [H1 H2].
  assert (Hi : 0 < / n <= 1).
  { split; [apply Rinv_0_lt_compat; lra|].
    rewrite <- Rinv_1. apply Rinv_le_contravar; lra. }
  unfold Rdiv. destruct (Rle_dec 0 x); nra.
Qed.

Lemma pow2Z_ge_1 (z : Z) : (0 <= z)%Z -> 1 <= powerRZ 2 z.
Proof.
  intros H. rewrite <- (Z2Nat.id z H), <- pow_powerRZ.
  apply pow_R1_Rle. lra.
Qed.

Lemma pow2_run (z : Z) :
  (0 <= z <= 1023)%Z -> pow2 z = Ok (Finite (powerRZ 2 z)).
Proof.
  intros [H0 H1]. unfold pow2, float_of_int.
  pose proof int_overflow_large as Hl.
  assert (H10 : (1024 < 2 ^ 1000)%Z) by (apply Z.ltb_lt; vm_compute; reflexivity).
  destruct (Z.ltb_spec (Z.abs z) int_overflow) as [_|Hbad].
  2:{ exfalso. generalize dependent (2 ^ 1000)%Z. lia. }
  cbn. destruct (Z.leb_spec 1024 z); [lia|].
  by destruct (Z.leb_spec z (-1075)); [lia|].
Qed.

(** Dividing an integer by a non-zero integer does not enlarge it. *)
Lemma int_quotient_bound (c d : Z) (b : R) :
  d <> 0%Z -> Rabs (IZR c) <= b -> - b <= IZR c / IZR d <= b.
Proof.
  intros Hd Hc. apply Rabs_bound_inv in Hc.
  destruct (Z_lt_le_dec d 0) as [Hneg|Hpos].
  - replace (IZR c / IZR d) with (- IZR c / IZR (- d)).
    2:{ rewrite opp_IZR. field. by apply not_0_IZR. }
    apply div_shrinks; [|lra]. apply IZR_le. lia.
  - apply div_shrinks; [|lra]. apply IZR_le. lia.
Qed.

Lemma int_truediv_moderate (c d : Z) :
  d <> 0%Z -> moderate c ->
  int_truediv c d = Ok (Finite (IZR c / IZR d)).
Proof.
  intros Hd Hc%moderate_small. unfold int_truediv.
  destruct (Z.eqb_spec d 0); [done|].
  destruct (Z.ltb_spec (Z.abs c) (int_overflow * Z.abs d)); [done|]. nia.
Qed.

(** The fractional tile position, for moderate integers. *)
Lemma position_finite (n c d : Z) :
  d <> 0%Z -> moderate n -> moderate c ->
  position n (PInt c) d = Ok (Finite (IZR n + IZR c / IZR d)).
Proof.
  intros Hd Hn Hc. unfold position, truediv.
  rewrite (int_truediv_moderate c d Hd Hc). cbn.
  unfold int_add_float. rewrite (float_of_int_moderate n Hn). cbn.
  unfold mret, res_ret. f_equal. apply round_finite.
  destruct room as [_ Hroom].
  pose proof (Rabs_bound_inv _ _ (moderate_IZR n Hn)).
  pose proof (int_quotient_bound c d _ Hd (moderate_IZR c Hc)).
  apply Rabs_bound. lra.
Qed.

Lemma position_bound (n c d : Z) :
  d <> 0%Z -> moderate n -> moderate c ->
  Rabs (IZR n + IZR c / IZR d) <= 2 * IZR (2 ^ 999).
Proof.
  intros Hd Hn Hc.
  pose proof (Rabs_bound_inv _ _ (moderate_IZR n Hn)).
  pose proof (int_quotient_bound c d _ Hd (moderate_IZR c Hc)).
  apply Rabs_bound. lra.
Qed.

(** What a position that could be computed was computed from. *)
Lemma position_ok (n : Z) (v : pyval) (d : Z) (p : float) :
  position n v d = Ok p -> exists c, v = PInt c /\ d <> 0%Z.
Proof.
  unfold position, truediv, int_truediv. destruct v as [c|l]; [|discriminate].
  destruct (Z.eqb_spec d 0); [discriminate|]. eauto.
Qed.

Lemma position_zero_extent (n : Z) (v : pyval) :
  exists e, position n v 0 = Raise e.
Proof. destruct v; cbn; eauto. Qed.

Lemma position_list (n : Z) (l : list pyval) (d : Z) :
  position n (PList l) d = Raise TypeError.
Proof. reflexivity. Qed.

(** The transform on doubles, away from the ends of their range: it
    returns the exact value unless [math.sinh] overflows. *)
Lemma tile_to_latlon_float_run (x y : R) (z : Z) :
  (0 <= z <= 1023)%Z ->
  Rabs x <= 2 * IZR (2 ^ 999) -> Rabs y <= 2 * IZR (2 ^ 999) ->
  tile_to_latlon_float (Finite x) (Finite y) z =
  if Rle_dec (Rabs (sinh (PI * (1 - 2 * y / powerRZ 2 z)))) DBL_MAX
  then Ok (finite_pair (tile_to_latlon x y z))
  else Raise OverflowError.
Proof.
  intros Hz Hx Hy. destruct room as [Hone Hroom].
  pose proof (pow2Z_ge_1 z (proj1 Hz)) as Hn.
  apply Rabs_bound_inv in Hx, Hy.
  unfold tile_to_latlon_float. rewrite (pow2_run z Hz). cbn.
  set (n := powerRZ 2 z) in *. set (b := IZR (2 ^ 999)) in *.
  destruct (Req_dec_T n 0) as [H0|_]; [lra|].
  pose proof (div_shrinks x n (2 * b) Hn Hx) as Ht.
  rewrite (round_finite (x / n)) by (apply Rabs_bound; lra). cbn.
  rewrite (round_finite (x / n * 360)) by (apply Rabs_bound; lra).
  unfold fsub. cbn.
  rewrite (round_finite (x / n * 360 + - (180))) by (apply Rabs_bound; lra).
  rewrite (round_finite (2 * y)) by (apply Rabs_bound; lra).
  assert (Hy2 : - (4 * b) <= 2 * y <= 4 * b) by lra.
  pose proof (div_shrinks (2 * y) n (4 * b) Hn Hy2) as Hu.
  rewrite (round_finite (2 * y / n)) by (apply Rabs_bound; lra). cbn.
  rewrite (round_finite (1 + - (2 * y / n))) by (apply Rabs_bound; lra).
  cbn.
  assert (Hpi : 3 < PI < 4) by (pose proof PI_bounds; lra).
  rewrite (round_finite (PI * (1 + - (2 * y / n)))) by (apply Rabs_bound; nra).
  cbn. fold (1 - 2 * y / n).
  destruct (Rle_dec (Rabs (sinh (PI * (1 - 2 * y / n)))) DBL_MAX); [|done].
  cbn. unfold math_degrees. cbn.
  rewrite round_finite; [reflexivity|].
  pose proof (degrees_atan_bound (sinh (PI * (1 - 2 * y / n)))) as Hd.
  unfold degrees in Hd. apply Rabs_bound. lra.
Qed.

(** Inside the tile grid [math.sinh] stays in range. *)
Lemma sinh_le (a b : R) : a <= b -> sinh a <= sinh b.
Proof. intros [H| ->]; [left; by apply sinh_lt|right; reflexivity]. Qed.

Lemma sinh_in_range_grid (y : R) (z : Z) :
  0 <= y <= powerRZ 2 z -> sinh_in_range y z.
Proof.
  intros [H0 H1]. unfold sinh_in_range. pose proof (pow2Z_pos z) as Hn.
  destruct room as [Hone Hroom]. pose proof PI_RGT_0 as Hpi.
  set (n := powerRZ 2 z) in *.
  assert (Hi : 0 < / n) by (by apply Rinv_0_lt_compat).
  assert (Hy0 : 0 <= y / n) by (unfold Rdiv; nra).
  assert (Hy1 : y / n <= 1).
  { apply Rmult_le_reg_r with n; [exact Hn|].
    unfold Rdiv. rewrite Rmult_assoc, Rinv_l; lra. }
  set (t := PI * (1 - 2 * y / n)).
  assert (Ht : - PI <= t <= PI).
  { unfold t. replace (2 * y / n) with (2 * (y / n)) by (field; lra).
    split; nra. }
  pose proof (sinh_le _ _ (proj1 Ht)) as Hl.
  pose proof (sinh_le _ _ (proj2 Ht)) as Hu.
  rewrite sinh_opp in Hl. destruct sinh_PI_bounds as [_ Hs].
  apply Rabs_bound. lra.
Qed.

(** Far below the grid it overflows: row 4000000 at zoom 15. *)
Lemma exp_763 : IZR (2 ^ 1026) <= exp 763.
Proof.
  eapply Rle_trans; [|apply (exp_lo_correct (763 * scale) 30 763)].
  - unfold fix2R. apply Rmult_le_reg_r with (IZR scale); [apply scale_pos|].
    pose proof scale_pos.
    replace (IZR (exp_lo (763 * scale) 30) / IZR scale * IZR scale)
      with (IZR (exp_lo (763 * scale) 30)) by (field; lra).
    rewrite <- mult_IZR. apply IZR_le. apply Z.leb_le. vm_compute. reflexivity.
  - apply Z.leb_le. vm_compute. reflexivity.
  - unfold fix2R. rewrite mult_IZR. pose proof scale_pos. right. field. lra.
Qed.

Lemma sinh_overflows_far_south :
  ~ sinh_in_range (IZR 0 + IZR 4000000 / IZR 1) 15.
Proof.
  unfold sinh_in_range. change (powerRZ 2 15) with (2 ^ 15).
  set (t := PI * (1 - 2 * (IZR 0 + IZR 4000000 / IZR 1) / 2 ^ 15)).
  assert (Ht : t <= - (763)).
  { unfold t. pose proof PI_bounds. lra. }
  pose proof (sinh_le _ _ Ht) as Hs. rewrite sinh_opp in Hs.
  assert (H763 : IZR (2 ^ 1024) <= sinh 763).
  { unfold sinh. pose proof exp_763 as He.
    assert (Hsmall : exp (- (763)) <= 1).
    { rewrite <- exp_0. apply exp_le. lra. }
    assert (Hfour : IZR (2 ^ 1026) = 4 * IZR (2 ^ 1024)).
    { rewrite <- mult_IZR. f_equal. }
    assert (Hbig : 1 <= IZR (2 ^ 1024)).
    { apply IZR_le. apply Z.leb_le. vm_compute. reflexivity. }
    lra. }
  assert (Hmax : DBL_MAX < IZR (2 ^ 1024)).
  { unfold DBL_MAX. apply IZR_lt. apply Z.ltb_lt. vm_compute. reflexivity. }
  intros Habs. apply Rabs_bound_inv in Habs. lra.
Qed.

End Doubles.

(* ================================================================== *)
(** ** The loop over the features of a layer                           *)
(* ================================================================== *)

Lemma select_coords_none geom :
  select_coords geom = Ok None <-> supported (gtype geom) = false.
Proof.
  unfold select_coords, supported.
  destruct (String.eqb (gtype geom) "LineString").
  { cbn. destruct (subscript (coordinates geom) 0); cbn; split; discriminate. }
  destruct (String.eqb (gtype geom) "Polygon").
  { cbn. destruct (subscript (coordinates geom) 0) as [ring|]; cbn;
      [destruct (subscript ring 0); cbn|]; split; discriminate. }
  destruct (String.eqb (gtype geom) "Point"); cbn; split; try discriminate; done.
Qed.

Lemma select_coords_some geom coords :
  select_coords geom = Ok (Some coords) -> supported (gtype geom) = true.
Proof.
  intros H. destruct (supported (gtype geom)) eqn:E; [done|].
  apply select_coords_none in E. congruence.
Qed.

(** What one run of the loop body that does not raise has done. *)
Lemma feature_body_ok lay x y z feat acc out acc' out' :
  feature_body lay x y z feat acc out = (Ok acc', out') ->
  (kept feat = false /\ acc' = acc /\
   (out' = out \/ out' = out ++ [WarnUnsupportedGeometry (gtype (f_geometry feat))])) \/
  (kept feat = true /\ out' = out /\
   exists r, acc' = acc ++ [r] /\ station_of lay x y z feat r).
Proof.
  unfold feature_body, kept, station_of. fold (props feat).
  destruct (props feat !! "S12_001_ja") as [nm|] eqn:Hnm.
  2:{ intros [= <- <-]. left. split; [|auto].
      rewrite bool_decide_eq_false_2; [done|]. by intros [? ?]. }
  rewrite bool_decide_eq_true_2 by eauto. cbn [andb].
  rewrite bind_unfold. cbn [lift].
  destruct (select_coords (f_geometry feat)) as [[coords|]|e] eqn:Hsel;
    [| |discriminate].
  - rewrite (select_coords_some _ _ Hsel).
    rewrite bind_unfold. cbn [lift].
    destruct (subscript coords 0) as [c0|] eqn:H0; [|discriminate].
    rewrite bind_unfold. cbn [lift].
    destruct (position x c0 (extent lay)) as [px|] eqn:Hpx; [|discriminate].
    rewrite bind_unfold. cbn [lift].
    destruct (subscript coords 1) as [c1|] eqn:H1; [|discriminate].
    rewrite bind_unfold. cbn [lift].
    destruct (position y c1 (extent lay)) as [py|] eqn:Hpy; [|discriminate].
    rewrite bind_unfold. cbn [lift].
    destruct (tile_to_latlon_float px py z) as [loc|] eqn:Hloc; [|discriminate].
    intros [= <- <-]. right. split; [done|]. split; [done|].
    destruct (position_ok _ _ _ _ Hpx) as (cx & -> & _).
    destruct (position_ok _ _ _ _ Hpy) as (cy & -> & _).
    eexists. split; [reflexivity|]. cbn.
    split; [done|]. split; [done|]. exists coords, cx, cy, px, py. done.
  - apply select_coords_none in Hsel. rewrite Hsel.
    intros [= <- <-]. left. auto.
Qed.

(** The loop appends, in iteration order, one station per kept feature. *)
Lemma for_features_ok lay x y z feats :
  forall acc out recs out',
    for_in (feature_body lay x y z) feats acc out = (Ok recs, out') ->
    exists new,
      recs = acc ++ new /\
      Forall2 (station_of lay x y z) (List.filter kept feats) new.
Proof.
  induction feats as [|feat feats IH]; intros acc out recs out'; cbn [for_in].
  - intros [= <- <-]. exists []. rewrite app_nil_r. split; [done|constructor].
  - rewrite bind_unfold.
    destruct (feature_body lay x y z feat acc out) as [[acc1|e] out1] eqn:Hb;
      [|discriminate].
    intros Hrest. apply IH in Hrest as (new & -> & Hnew).
    apply feature_body_ok in Hb as [(Hk & -> & _)|(Hk & _ & r & -> & Hr)];
      cbn [List.filter]; rewrite Hk.
    + exists new. done.
    + exists (r :: new). rewrite <- List.app_assoc. split; [done|].
      by constructor.
Qed.

(** The three ways the loop body can go, from what the feature holds. *)
Lemma feature_body_drop lay x y z feat acc out :
  props feat !! "S12_001_ja" = None ->
  feature_body lay x y z feat acc out = (Ok acc, out).
Proof.
  unfold feature_body. fold (props feat). intros ->. reflexivity.
Qed.

Lemma feature_body_unsupported lay x y z feat acc out :
  is_Some (props feat !! "S12_001_ja") ->
  supported (gtype (f_geometry feat)) = false ->
  feature_body lay x y z feat acc out =
    (Ok acc, out ++ [WarnUnsupportedGeometry (gtype (f_geometry feat))]).
Proof.
  unfold feature_body. fold (props feat). intros [nm ->] Hs.
  apply select_coords_none in Hs.
  rewrite bind_unfold. cbn [lift]. rewrite Hs. reflexivity.
Qed.

(** A named feature with a coordinate pair: the station is added when the
    transform of its position returns, and the loop body raises what the
    transform raises. *)
Lemma feature_body_keep lay x y z feat acc out nm coords cx cy px py :
  props feat !! "S12_001_ja" = Some nm ->
  select_coords (f_geometry feat) = Ok (Some coords) ->
  subscript coords 0 = Ok (PInt cx) ->
  subscript coords 1 = Ok (PInt cy) ->
  position x (PInt cx) (extent lay) = Ok px ->
  position y (PInt cy) (extent lay) = Ok py ->
  feature_body lay x y z feat acc out =
    match tile_to_latlon_float px py z with
    | Ok loc =>
        (Ok (acc ++ [ {| location := loc; name := nm;
                         passengers := default (VInt 0) (props feat !! "S12_009") |} ]),
         out)
    | Raise e => (Raise e, out)
    end.
Proof.
  unfold feature_body. fold (props feat). intros -> Hsel H0 H1 Hpx Hpy.
  rewrite bind_unfold. cbn [lift]. rewrite Hsel.
  rewrite bind_unfold. cbn [lift]. rewrite H0.
  rewrite bind_unfold. cbn [lift]. rewrite Hpx.
  rewrite bind_unfold. cbn [lift]. rewrite H1.
  rewrite bind_unfold. cbn [lift]. rewrite Hpy.
  rewrite bind_unfold. cbn [lift].
  by destruct (tile_to_latlon_float px py z).
Qed.

(** The same, for a tile and a local coordinate in range: the station
    lies where the exact transform puts it. *)
Lemma feature_body_in_range lay x y z feat acc out nm coords cx cy :
  props feat !! "S12_001_ja" = Some nm ->
  select_coords (f_geometry feat) = Ok (Some coords) ->
  subscript coords 0 = Ok (PInt cx) ->
  subscript coords 1 = Ok (PInt cy) ->
  in_range (extent lay) x y z cx cy ->
  feature_body lay x y z feat acc out =
    (Ok (acc ++ [ {| location :=
                       finite_pair
                         (tile_to_latlon (IZR x + IZR cx / IZR (extent lay))
                                         (IZR y + IZR cy / IZR (extent lay)) z);
                     name := nm;
                     passengers := default (VInt 0) (props feat !! "S12_009") |} ]),
     out).
Proof.
  intros Hnm Hsel H0 H1 (Hext & Hz & Hx & Hy & Hcx & Hcy & Hsinh).
  rewrite (feature_body_keep lay x y z feat acc out nm coords cx cy _ _
             Hnm Hsel H0 H1 (position_finite x cx _ Hext Hx Hcx)
             (position_finite y cy _ Hext Hy Hcy)).
  rewrite tile_to_latlon_float_run;
    [|exact Hz|by apply position_bound|by apply position_bound].
  unfold sinh_in_range in Hsinh. by destruct (Rle_dec _ DBL_MAX).
Qed.

(** And for one on which [math.sinh] overflows. *)
Lemma feature_body_overflow lay x y z feat acc out nm coords cx cy :
  props feat !! "S12_001_ja" = Some nm ->
  select_coords (f_geometry feat) = Ok (Some coords) ->
  subscript coords 0 = Ok (PInt cx) ->
  subscript coords 1 = Ok (PInt cy) ->
  extent lay <> 0 -> 0 <= z <= 1023 ->
  moderate x -> moderate y -> moderate cx -> moderate cy ->
  ~ sinh_in_range (IZR y + IZR cy / IZR (extent lay))%R z ->
  feature_body lay x y z feat acc out = (Raise OverflowError, out).
Proof.
  intros Hnm Hsel H0 H1 Hext Hz Hx Hy Hcx Hcy Hsinh.
  rewrite (feature_body_keep lay x y z feat acc out nm coords cx cy _ _
             Hnm Hsel H0 H1 (position_finite x cx _ Hext Hx Hcx)
             (position_finite y cy _ Hext Hy Hcy)).
  rewrite tile_to_latlon_float_run;
    [|exact Hz|by apply position_bound|by apply position_bound].
  unfold sinh_in_range in Hsinh. by destruct (Rle_dec _ DBL_MAX).
Qed.

(* ================================================================== *)
(** ** [read_pbf], case by case                                        *)
(* ================================================================== *)

Section ReadPbf.

Variable open_read : string -> res (list Byte.byte).
Variable decode : list Byte.byte -> res tile.

Lemma read_pbf_cases file_path out :
  read_pbf open_read decode file_path out =
  match open_read file_path with
  | Raise e => (Ok None, out ++ [ErrorFile file_path e])
  | Ok data =>
      match decode data with
      | Raise e => (Ok None, out ++ [ErrorFile file_path e])
      | Ok [] => (Ok None, out ++ [WarnEmptyFile file_path])
      | Ok ((_, lay) :: _) =>
          match tile_of_name (basename file_path) with
          | Raise e => (Ok None, out ++ [ErrorFile file_path e])
          | Ok (z, x, y) =>
              match for_in (feature_body lay x y z) (features lay) [] out with
              | (Ok feats, out') =>
                  (Ok (Some feats),
                   out' ++ [InfoFeatureCount file_path (length feats)])
              | (Raise e, out') => (Ok None, out' ++ [ErrorFile file_path e])
              end
          end
      end
  end.
Proof.
  unfold read_pbf, try_except, read_pbf_body.
  rewrite bind_unfold. cbn [lift].
  destruct (open_read file_path) as [data|e]; [|reflexivity].
  rewrite bind_unfold. cbn [lift].
  destruct (decode data) as [[|[k lay] rest]|e]; [reflexivity| |reflexivity].
  rewrite bind_unfold. cbn [lift].
  destruct (tile_of_name (basename file_path)) as [[[z x] y]|e]; [|reflexivity].
  rewrite bind_unfold.
  destruct (for_in (feature_body lay x y z) (features lay) [] out)
    as [[feats|e] out']; reflexivity.
Qed.

(** [read_pbf] returns; it never hands an exception to its caller. *)
Lemma read_pbf_returns file_path out :
  exists r out', read_pbf open_read decode file_path out = (Ok r, out').
Proof.
  rewrite read_pbf_cases.
  destruct (open_read file_path) as [data|e]; [|eauto].
  destruct (decode data) as [[|[k lay] rest]|e]; [eauto| |eauto].
  destruct (tile_of_name (basename file_path)) as [[[z x] y]|e]; [|eauto].
  destruct (for_in (feature_body lay x y z) (features lay) [] out)
    as [[feats|e] out']; eauto.
Qed.

End ReadPbf.

(* ================================================================== *)
(** ** The loop over the directory listing                             *)
(* ================================================================== *)

Section Aggregation.

Variable open_read : string -> res (list Byte.byte).
Variable listdir : string -> res (list string).
Variable decode : list Byte.byte -> res tile.

Lemma read_pbf_run directory file out :
  read_pbf open_read decode (path_join directory file) out =
  (Ok (file_result open_read decode directory file), out ++ file_log open_read decode directory file).
Proof.
  rewrite (appends_read_pbf open_read decode _ out).
  unfold file_result, file_log, run.
  destruct (read_pbf_returns open_read decode (path_join directory file) [])
    as (r & out' & ->).
  reflexivity.
Qed.

Lemma file_body_run directory file all_data file_count out :
  file_body open_read decode directory file (all_data, file_count) out =
  if endswith file ".pbf" then
    (Ok (all_data ++ file_records open_read decode directory file, S file_count),
     out ++ file_log open_read decode directory file)
  else (Ok (all_data, file_count), out).
Proof.
  unfold file_body. destruct (endswith file ".pbf"); [|reflexivity].
  rewrite bind_unfold, read_pbf_run. unfold file_records.
  destruct (file_result open_read decode directory file) as [[|r rs]|]; cbn;
    rewrite ?app_nil_r; reflexivity.
Qed.

Lemma for_files_run directory files :
  forall all_data file_count out,
    for_in (file_body open_read decode directory) files
           (all_data, file_count) out =
    (Ok (all_data ++ flat_map (file_records open_read decode directory) (matching files),
         (file_count + length (matching files))%nat),
     out ++ flat_map (file_log open_read decode directory) (matching files)).
Proof.
  induction files as [|file files IH]; intros all_data file_count out;
    cbn [for_in].
  - cbn. rewrite !app_nil_r, Nat.add_0_r. reflexivity.
  - rewrite bind_unfold, file_body_run. unfold matching. cbn [List.filter].
    destruct (endswith file ".pbf"); fold (matching files).
    + rewrite IH. cbn [flat_map length].
      rewrite <- !List.app_assoc, Nat.add_succ_r. reflexivity.
    + apply IH.
Qed.

(** The whole of [load_all_pbf_files] on a directory that can be listed. *)
Lemma load_all_pbf_files_run directory files out :
  listdir directory = Ok files ->
  let all_data := flat_map (file_records open_read decode directory) (matching files) in
  load_all_pbf_files open_read listdir decode directory out =
  (Ok all_data,
   out ++ flat_map (file_log open_read decode directory) (matching files)
       ++ InfoFileCount (length (matching files))
       :: match all_data with [] => [WarnNoData] | _ => [] end).
Proof.
  intros Hls all_data. unfold load_all_pbf_files.
  rewrite bind_unfold. cbn [lift]. rewrite Hls.
  rewrite bind_unfold, for_files_run. cbn [app Nat.add].
  fold all_data. rewrite bind_unfold. cbn [print].
  destruct all_data as [|r rs].
  - rewrite bind_unfold. cbn. rewrite <- !List.app_assoc. reflexivity.
  - cbn. rewrite <- !List.app_assoc. reflexivity.
Qed.

End Aggregation.

(* ================================================================== *)
(** ** File names                                                      *)
(* ================================================================== *)

Lemma split_nonempty sep s : split sep s <> [].
Proof.
  destruct s as [|c s]; cbn; [done|].
  destruct (Ascii.eqb c sep); [done|]. by destruct (split sep s).
Qed.

Lemma split_no_sep sep s : occurs sep s = false -> split sep s = [s].
Proof.
  induction s as [|c s IH]; cbn; [done|].
  destruct (Ascii.eqb c sep); cbn; [done|].
  intros H. by rewrite (IH H).
Qed.

Lemma append_nil_l (s : string) : EmptyString +:+ s = s.
Proof. reflexivity. Qed.

Lemma append_cons (c : ascii) (a b : string) :
  String c a +:+ b = String c (a +:+ b).
Proof. reflexivity. Qed.

(** Cutting at one separator: the parts before it, then the parts after. *)
Lemma split_app sep a b :
  split sep (a +:+ String sep b) = split sep a ++ split sep b.
Proof.
  induction a as [|c a IH]; rewrite ?append_nil_l, ?append_cons; cbn [split].
  - by rewrite Ascii.eqb_refl.
  - destruct (Ascii.eqb c sep); [by rewrite IH|].
    rewrite IH. pose proof (split_nonempty sep a).
    by destruct (split sep a).
Qed.

Lemma occurs_app c a b : occurs c (a +:+ b) = occurs c a || occurs c b.
Proof.
  induction a as [|c' a IH]; rewrite ?append_nil_l, ?append_cons; cbn [occurs];
    [done|].
  by rewrite IH, orb_assoc.
Qed.

Lemma getitem_neg_last2 {A} (front : list A) (a b : A) :
  getitem_neg (front ++ [a; b]) 2 = Ok a /\
  getitem_neg (front ++ [a; b]) 1 = Ok b.
Proof.
  unfold getitem_neg, getitem. rewrite !length_app. cbn [length].
  replace (2 <=? length front + 2)%nat with true
    by (symmetry; apply Nat.leb_le; lia).
  replace (1 <=? length front + 2)%nat with true
    by (symmetry; apply Nat.leb_le; lia).
  replace (length front + 2 - 2)%nat with (length front + 0)%nat by lia.
  replace (length front + 2 - 1)%nat with (length front + 1)%nat by lia.
  rewrite !nth_error_app2 by lia.
  replace (length front + 0 - length front)%nat with 0%nat by lia.
  replace (length front + 1 - length front)%nat with 1%nat by lia.
  done.
Qed.

Lemma getitem_neg_inv {A} (l : list A) (a b : A) :
  getitem_neg l 2 = Ok a -> getitem_neg l 1 = Ok b ->
  exists front, l = front ++ [a; b].
Proof.
  destruct l as [|b' l1 _] using rev_ind; [discriminate|].
  destruct l1 as [|a' front _] using rev_ind.
  { cbn. discriminate. }
  rewrite <- List.app_assoc. cbn [app].
  destruct (getitem_neg_last2 front a' b') as [-> ->].
  intros [= ->] [= ->]. by exists front.
Qed.

(** When the tile coordinate can be read, and what it is. *)
Lemma tile_of_name_ok file_name z x y :
  tile_of_name file_name = Ok (z, x, y) <->
  z = 15 /\
  exists front xs last_part ys more,
    split "_" file_name = front ++ [xs; last_part] /\
    split "." last_part = ys :: more /\
    int xs = Ok x /\ int ys = Ok y.
Proof.
  unfold tile_of_name. split.
  - destruct (getitem_neg (split "_" file_name) 2) as [xs|] eqn:H2;
      [|discriminate]. cbn.
    destruct (getitem_neg (split "_" file_name) 1) as [lp|] eqn:H1;
      [|discriminate]. cbn.
    destruct (split "." lp) as [|ys more] eqn:Hd; [discriminate|]. cbn.
    destruct (int xs) as [x'|] eqn:Hx; [|discriminate]. cbn.
    destruct (int ys) as [y'|] eqn:Hy; [|discriminate]. cbn.
    intros [= <- <- <-]. split; [done|].
    destruct (getitem_neg_inv _ _ _ H2 H1) as [front Hf].
    exists front, xs, lp, ys, more. done.
  - intros (-> & front & xs & lp & ys & more & Hs & Hd & Hx & Hy).
    rewrite Hs.
    destruct (getitem_neg_last2 front xs lp) as [-> ->]. cbn.
    rewrite Hd. cbn. rewrite Hx. cbn. rewrite Hy. reflexivity.
Qed.

Lemma tile_of_name_matches file_name :
  name_matches file_name <-> exists x y, tile_of_name file_name = Ok (15, x, y).
Proof.
  split.
  - intros (front & xs & lp & ys & more & x & y & H).
    exists x, y. apply tile_of_name_ok. split; [done|].
    exists front, xs, lp, ys, more. done.
  - intros (x & y & H). apply tile_of_name_ok in H as (_ & front & xs & lp & ys & more & H).
    exists front, xs, lp, ys, more, x, y. done.
Qed.

(** A name that does not match makes the conversion raise. *)
Lemma tile_of_name_raises file_name :
  ~ name_matches file_name -> exists e, tile_of_name file_name = Raise e.
Proof.
  intros Hn. destruct (tile_of_name file_name) as [[[z x] y]|e] eqn:E; [|eauto].
  destruct Hn. apply tile_of_name_matches. exists x, y.
  pose proof E as E'. apply tile_of_name_ok in E' as [-> _]. done.
Qed.

(** The conventional shape [<prefix>_<x>_<y>.<ext>]. *)
Lemma tile_of_name_shape prefix xs ys ext :
  occurs "_" xs = false -> occurs "_" ys = false -> occurs "." ys = false ->
  occurs "_" ext = false ->
  tile_of_name (prefix +:+ "_" +:+ xs +:+ "_" +:+ ys +:+ "." +:+ ext) =
  (x ← int xs; y ← int ys; mret (15, x, y)).
Proof.
  intros Hxs Hys Hyd Hext. unfold tile_of_name.
  change ("_" +:+ xs +:+ "_" +:+ ys +:+ "." +:+ ext)
    with (String "_" (xs +:+ String "_" (ys +:+ String "." ext))).
  rewrite split_app, split_app.
  rewrite (split_no_sep "_" xs Hxs).
  rewrite (split_no_sep "_" (ys +:+ String "." ext)).
  2:{ rewrite occurs_app. cbn. by rewrite Hys, Hext. }
  cbn [app].
  destruct (getitem_neg_last2 (split "_" prefix) xs (ys +:+ String "." ext))
    as [-> ->]. cbn.
  rewrite split_app, (split_no_sep "." ys Hyd). reflexivity.
Qed.

(* ================================================================== *)
(** ** Reading decimal numerals                                        *)
(* ================================================================== *)

Lemma is_digit_plain c : is_digit c = true -> plain c = true.
Proof.
  destruct c as [[] [] [] [] [] [] [] []]; try discriminate; reflexivity.
Qed.

Lemma is_digit_unsigned c :
  is_digit c = true -> Ascii.eqb c "-" = false /\ Ascii.eqb c "+" = false.
Proof.
  destruct c as [[] [] [] [] [] [] [] []]; try discriminate; by split.
Qed.

Lemma all_chars_impl (P Q : ascii -> bool) s :
  (forall c, P c = true -> Q c = true) ->
  all_chars P s = true -> all_chars Q s = true.
Proof.
  intros HPQ. induction s as [|c s IH]; cbn; [done|].
  intros [Hc Hs]%andb_prop. by rewrite (HPQ c Hc), (IH Hs).
Qed.

Lemma all_chars_string_rev P s : forall acc,
  all_chars P (string_rev s acc) = all_chars P s && all_chars P acc.
Proof.
  induction s as [|c s IH]; intros acc; cbn; [done|].
  rewrite IH. cbn. by destruct (P c), (all_chars P s).
Qed.

Lemma string_rev_twice s : forall acc acc',
  string_rev (string_rev s acc) acc' = string_rev acc (s +:+ acc').
Proof.
  induction s as [|c s IH]; intros acc acc'; cbn [string_rev]; [done|].
  by rewrite IH.
Qed.

Lemma append_nil_r (s : string) : s +:+ EmptyString = s.
Proof. induction s as [|c s IH]; [done|]. by rewrite append_cons, IH. Qed.

Lemma lstrip_no_space s :
  all_chars (fun c => negb (is_space c)) s = true -> lstrip s = s.
Proof.
  destruct s as [|c s]; cbn; [done|].
  intros [Hc _]%andb_prop. by destruct (is_space c).
Qed.

(** Nothing to strip from a string without blanks. *)
Lemma strip_no_space s :
  all_chars (fun c => negb (is_space c)) s = true -> strip s = s.
Proof.
  intros H. unfold strip. rewrite (lstrip_no_space s H).
  rewrite lstrip_no_space.
  - rewrite string_rev_twice. cbn. apply append_nil_r.
  - rewrite all_chars_string_rev, H. reflexivity.
Qed.

Lemma occurs_all_chars c P s :
  P c = false -> all_chars P s = true -> occurs c s = false.
Proof.
  intros Hc. induction s as [|c' s IH]; cbn; [done|].
  intros [Hc' Hs]%andb_prop. rewrite (IH Hs), orb_false_r.
  destruct (Ascii.eqb_spec c' c) as [->|]; [congruence|done].
Qed.

Lemma digits_of_uint d :
  all_chars is_digit (NilEmpty.string_of_uint d) = true.
Proof. induction d; cbn; [done|assumption..]. Qed.

(** The digits of a numeral, read onto what the digits before gave. *)
Lemma digits_revapp d : forall d',
  digits (NilEmpty.string_of_uint d) (Z.of_N (Unsigned.of_lu d')) true =
  Some (Z.of_N (Unsigned.of_lu (Decimal.revapp d d'))).
Proof.
  induction d; intros d'; cbn [NilEmpty.string_of_uint Decimal.revapp digits];
    [done|..];
    (change (digit_of _) with (Some 0) || change (digit_of _) with (Some 1)
     || change (digit_of _) with (Some 2) || change (digit_of _) with (Some 3)
     || change (digit_of _) with (Some 4) || change (digit_of _) with (Some 5)
     || change (digit_of _) with (Some 6) || change (digit_of _) with (Some 7)
     || change (digit_of _) with (Some 8) || change (digit_of _) with (Some 9));
    cbv iota beta; rewrite <- IHd; f_equal;
    cbn [Unsigned.of_lu]; unfold Unsigned.hd, Unsigned.tl; lia.
Qed.

(** A string that begins with a digit reads the same whatever came
    before. *)
Lemma digits_start c s acc :
  is_digit c = true ->
  digits (String c s) acc false = digits (String c s) acc true.
Proof.
  unfold is_digit. cbn [digits]. by destruct (digit_of c).
Qed.

Lemma count_digits_all s :
  all_chars is_digit s = true -> count_digits s = String.length s.
Proof.
  induction s as [|c s IH]; cbn; [done|]. unfold is_digit.
  destruct (digit_of c); [|done]. cbn. intros H. by rewrite IH.
Qed.

Lemma digits_to_uint (p : positive) :
  digits (NilEmpty.string_of_uint (Pos.to_uint p)) 0 false = Some (Zpos p).
Proof.
  pose proof (Unsigned.to_uint_nonnil p) as Hn.
  pose proof (digits_of_uint (Pos.to_uint p)) as Hd.
  assert (H : digits (NilEmpty.string_of_uint (Pos.to_uint p)) 0 true
              = Some (Zpos p)).
  { change 0 with (Z.of_N (Unsigned.of_lu Decimal.Nil)).
    rewrite digits_revapp. fold (Decimal.rev (Pos.to_uint p)).
    by rewrite <- Unsigned.of_uint_alt, Unsigned.of_to. }
  destruct (NilEmpty.string_of_uint (Pos.to_uint p)) as [|c s] eqn:E.
  - by destruct (Pos.to_uint p).
  - cbn in Hd. apply andb_prop in Hd as [Hc _].
    by rewrite digits_start.
Qed.

Lemma unsigned_literal_to_uint (p : positive) :
  (String.length (NilEmpty.string_of_uint (Pos.to_uint p)) <= max_str_digits)%nat ->
  unsigned_literal (NilEmpty.string_of_uint (Pos.to_uint p)) = Ok (Zpos p).
Proof.
  intros Hlen. apply Nat.leb_le in Hlen.
  unfold unsigned_literal.
  by rewrite digits_to_uint, count_digits_all, Hlen by apply digits_of_uint.
Qed.

Lemma str_pos (p : positive) :
  str (Zpos p) = NilEmpty.string_of_uint (Pos.to_uint p).
Proof.
  unfold str. cbn. pose proof (Unsigned.to_uint_nonnil p) as Hn.
  by destruct (Pos.to_uint p).
Qed.

Lemma str_neg (p : positive) :
  str (Zneg p) = String "-" (NilEmpty.string_of_uint (Pos.to_uint p)).
Proof.
  unfold str. cbn. pose proof (Unsigned.to_uint_nonnil p) as Hn.
  by destruct (Pos.to_uint p).
Qed.

(** [int(str(n)) == n], for a numeral that is not too long. *)
Lemma int_str (n : Z) :
  (digit_count n <= max_str_digits)%nat -> int (str n) = Ok n.
Proof.
  unfold digit_count. destruct n as [|p|p]; [reflexivity| |].
  - change (Z.abs (Z.pos p)) with (Z.pos p).
    rewrite str_pos. intros Hlen. unfold int.
    pose proof (digits_of_uint (Pos.to_uint p)) as Hd.
    rewrite strip_no_space.
    2:{ eapply all_chars_impl; [|exact Hd]. intros c Hc.
        apply is_digit_plain in Hc. unfold plain in Hc.
        by destruct (is_space c). }
    pose proof (unsigned_literal_to_uint p Hlen) as Hu.
    destruct (NilEmpty.string_of_uint (Pos.to_uint p)) as [|c s]; [done|].
    cbn in Hd. apply andb_prop in Hd as [Hc _].
    destruct (is_digit_unsigned c Hc) as [-> ->]. exact Hu.
  - change (Z.abs (Z.neg p)) with (Z.pos p).
    rewrite str_pos, str_neg. intros Hlen. unfold int.
    pose proof (digits_of_uint (Pos.to_uint p)) as Hd.
    rewrite strip_no_space.
    2:{ cbn. eapply all_chars_impl; [|exact Hd]. intros c Hc.
        apply is_digit_plain in Hc. unfold plain in Hc.
        by destruct (is_space c). }
    rewrite Ascii.eqb_refl, (unsigned_literal_to_uint p Hlen). reflexivity.
Qed.

(** A numeral holds neither an underscore nor a dot. *)
Lemma str_plain (n : Z) :
  occurs "_" (str n) = false /\ occurs "." (str n) = false.
Proof.
  assert (H : forall d, occurs "_" (NilEmpty.string_of_uint d) = false /\
                        occurs "." (NilEmpty.string_of_uint d) = false).
  { intros d. pose proof (digits_of_uint d) as Hd. split.
    - apply (occurs_all_chars _ plain); [done|].
      eapply all_chars_impl; [apply is_digit_plain|exact Hd].
    - apply (occurs_all_chars _ plain); [done|].
      eapply all_chars_impl; [apply is_digit_plain|exact Hd]. }
  destruct n as [|p|p]; [done| |].
  - rewrite str_pos. apply H.
  - rewrite str_neg. cbn. apply H.
Qed.

(** The name [<prefix>_<x>_<y>.<ext>] gives the tile [(15, x, y)]. *)
Lemma tile_of_name_numerals (prefix ext : string) (x y : Z) :
  occurs "_" ext = false ->
  (digit_count x <= max_str_digits)%nat ->
  (digit_count y <= max_str_digits)%nat ->
  tile_of_name (prefix +:+ "_" +:+ str x +:+ "_" +:+ str y +:+ "." +:+ ext)
    = Ok (15, x, y).
Proof.
  intros Hext Hdx Hdy. destruct (str_plain x) as [Hx _], (str_plain y) as [Hy Hyd].
  rewrite (tile_of_name_shape prefix (str x) (str y) ext Hx Hy Hyd Hext).
  by rewrite !int_str.
Qed.

(* ================================================================== *)
(** ** Base names and extensions                                       *)
(* ================================================================== *)

Lemma basename_app a file :
  occurs "/" file = false -> basename (a +:+ String "/" file) = file.
Proof.
  intros H. unfold basename. rewrite split_app, (split_no_sep _ _ H).
  by rewrite last_last.
Qed.

(** Joining the parts between the dots gives the string back. *)
Lemma join_dots_cons (p : string) (ps : list string) :
  ps <> [] -> join_dots (p :: ps) = p +:+ String "." (join_dots ps).
Proof. by destruct ps. Qed.

Lemma join_dots_head (c : ascii) (p : string) (ps : list string) :
  join_dots (String c p :: ps) = String c (join_dots (p :: ps)).
Proof. by destruct ps. Qed.

Lemma join_split (s : string) : join_dots (split "." s) = s.
Proof.
  induction s as [|c s IH]; [done|]. cbn [split].
  pose proof (split_nonempty "." s) as Hne.
  destruct (Ascii.eqb_spec c ".") as [->|_].
  - rewrite join_dots_cons by done. by rewrite IH.
  - destruct (split "." s) as [|p ps]; [done|].
    by rewrite join_dots_head, IH.
Qed.

(** A part with at most one dot: stripping its extension leaves what
    comes before the dot. *)
Lemma strip_extension_first (s ys : string) (more : list string) :
  split "." s = ys :: more -> (length more <= 1)%nat ->
  strip_extension s = ys.
Proof.
  intros Hs Hlen. unfold strip_extension. rewrite Hs.
  destruct more as [|ext more].
  - rewrite <- (join_split s), Hs. reflexivity.
  - destruct more; [reflexivity|cbn in Hlen; lia].
Qed.

(** On such names the rule of the specification is the rule of the
    program. *)
Lemma tile_of_name_as_worded_agrees file_name front xs last_part :
  split "_" file_name = front ++ [xs; last_part] ->
  (length (split "." last_part) <= 2)%nat ->
  tile_of_name_as_worded file_name = tile_of_name file_name.
Proof.
  intros Hs Hlen. unfold tile_of_name_as_worded, tile_of_name. rewrite Hs.
  destruct (getitem_neg_last2 front xs last_part) as [-> ->]. cbn.
  pose proof (split_nonempty "." last_part) as Hne.
  destruct (split "." last_part) as [|ys more] eqn:Hd; [done|]. cbn.
  rewrite (strip_extension_first last_part ys more Hd) by (cbn in Hlen; lia).
  destruct (int xs); cbn; [|done]. by destruct (int ys).
Qed.

(* ================================================================== *)
(** ** Marker sizes                                                    *)
(* ================================================================== *)

Lemma counts_of_map data counts :
  counts_of data = Ok counts <-> map passengers data = map VInt counts.
Proof.
  revert counts. induction data as [|r data IH]; intros counts; cbn.
  - split.
    + by intros [= <-].
    + destruct counts; [done|discriminate].
  - destruct (passengers r) as [n|s]; cbn.
    + destruct (counts_of data) as [cs|e]; cbn.
      * split.
        -- intros [= <-]. cbn. f_equal. by apply IH.
        -- destruct counts as [|c counts]; [discriminate|].
           cbn. intros [= -> H]. apply IH in H. unfold mret, res_ret. congruence.
      * split; [discriminate|].
        destruct counts as [|c counts]; [discriminate|].
        cbn. intros [= -> H]. apply IH in H. discriminate.
    + split; [discriminate|]. destruct counts; discriminate.
Qed.

Section MinMax.

Variable c : Z.

Lemma series_min_spec cs :
  In (series_min c cs) (c :: cs) /\
  forall p, In p (c :: cs) -> series_min c cs <= p.
Proof.
  unfold series_min. revert c. induction cs as [|d cs IH]; intros c; cbn.
  - split; [auto|]. intros p [<-|[]]. lia.
  - destruct (IH (Z.min c d)) as [Hin Hle]. split.
    + destruct Hin as [Hm|Hin]; [|auto].
      rewrite <- Hm. destruct (Z.min_spec c d) as [[_ ->]|[_ ->]]; auto.
    + intros p Hp. pose proof (Hle (Z.min c d) (or_introl eq_refl)) as H0.
      destruct Hp as [<-|[<-|Hp]]; [lia|lia|]. apply Hle. by right.
Qed.

Lemma series_max_spec cs :
  In (series_max c cs) (c :: cs) /\
  forall p, In p (c :: cs) -> p <= series_max c cs.
Proof.
  unfold series_max. revert c. induction cs as [|d cs IH]; intros c; cbn.
  - split; [auto|]. intros p [<-|[]]. lia.
  - destruct (IH (Z.max c d)) as [Hin Hle]. split.
    + destruct Hin as [Hm|Hin]; [|auto].
      rewrite <- Hm. destruct (Z.max_spec c d) as [[_ ->]|[_ ->]]; auto.
    + intros p Hp. pose proof (Hle (Z.max c d) (or_introl eq_refl)) as H0.
      destruct Hp as [<-|[<-|Hp]]; [lia|lia|]. apply Hle. by right.
Qed.

(** Counts that are not all equal have a minimum below their maximum. *)
Lemma series_spread cs p q :
  In p (c :: cs) -> In q (c :: cs) -> p <> q ->
  series_min c cs < series_max c cs.
Proof.
  intros Hp Hq Hne.
  destruct (series_min_spec cs) as [_ Hmin].
  destruct (series_max_spec cs) as [_ Hmax].
  pose proof (Hmin p Hp). pose proof (Hmin q Hq).
  pose proof (Hmax p Hp). pose proof (Hmax q Hq). lia.
Qed.

(** Counts that are all equal have their minimum at their maximum. *)
Lemma series_flat cs :
  (forall p, In p cs -> p = c) ->
  series_min c cs = c /\ series_max c cs = c.
Proof.
  intros Hall.
  destruct (series_min_spec cs) as [Hmin _].
  destruct (series_max_spec cs) as [Hmax _].
  split.
  - destruct Hmin as [<-|H]; [done|]. by apply Hall.
  - destruct Hmax as [<-|H]; [done|]. by apply Hall.
Qed.

End MinMax.

(** *** Integer types *)

Lemma forallb_In {A} (f : A -> bool) (l : list A) (a : A) :
  forallb f l = true -> In a l -> f a = true.
Proof. intros H Ha. by apply (proj1 (forallb_forall f l) H). Qed.

Lemma in_int64_bounds (n : Z) : in_int64 n = true <-> - 2 ^ 63 <= n < 2 ^ 63.
Proof. unfold in_int64. rewrite andb_true_iff, Z.leb_le, Z.ltb_lt. done. Qed.

Lemma in_uint64_bounds (n : Z) : in_uint64 n = true <-> 0 <= n < 2 ^ 64.
Proof. unfold in_uint64. rewrite andb_true_iff, Z.leb_le, Z.ltb_lt. done. Qed.

(** The values of a column lie in the range of its type. *)
Lemma series_dtype_int64 counts p :
  series_dtype counts = Int64 -> In p counts -> - 2 ^ 63 <= p < 2 ^ 63.
Proof.
  unfold series_dtype. destruct (forallb in_int64 counts) eqn:H.
  - intros _ Hp. by apply in_int64_bounds, (forallb_In _ counts).
  - by destruct (forallb in_uint64 counts).
Qed.

Lemma series_dtype_uint64 counts p :
  series_dtype counts = UInt64 -> In p counts -> 0 <= p < 2 ^ 64.
Proof.
  unfold series_dtype. destruct (forallb in_int64 counts); [discriminate|].
  destruct (forallb in_uint64 counts) eqn:H; [|discriminate].
  intros _ Hp. by apply in_uint64_bounds, (forallb_In _ counts).
Qed.

(** The type of a column with one value, repeated. *)
Lemma series_dtype_flat c cs :
  (forall p, In p cs -> p = c) ->
  series_dtype (c :: cs) =
    if in_int64 c then Int64 else if in_uint64 c then UInt64 else Object.
Proof.
  intros Hflat. unfold series_dtype.
  assert (Hall : forall f, forallb f (c :: cs) = f c).
  { intros f. cbn. destruct (f c) eqn:Hc; [|done]. cbn.
    apply forallb_forall. intros p Hp. by rewrite (Hflat p Hp). }
  by rewrite !Hall.
Qed.

Lemma wrap_0 dt : wrap dt 0 = 0.
Proof. by destruct dt. Qed.

Lemma wrap_int64 n : - 2 ^ 63 <= n < 2 ^ 63 -> wrap Int64 n = n.
Proof.
  intros H. unfold wrap.
  assert (H64 : 2 ^ 64 = 2 * 2 ^ 63) by reflexivity.
  rewrite Z.mod_small; [lia|]. generalize dependent (2 ^ 63). lia.
Qed.

Lemma wrap_uint64 n : 0 <= n < 2 ^ 64 -> wrap UInt64 n = n.
Proof. intros H. unfold wrap. by apply Z.mod_small. Qed.

(** The differences the rule takes are computed exactly when the spread of
    a signed column stays below [2^63]. *)
Lemma wrap_difference c cs p q :
  exact_spread c cs -> In p (c :: cs) -> In q (c :: cs) -> q <= p ->
  p - q <= series_max c cs - series_min c cs ->
  wrap (series_dtype (c :: cs)) (p - q) = p - q.
Proof.
  intros Hexact Hp Hq Hle Hspread.
  destruct (series_dtype (c :: cs)) eqn:Hdt; [| |done].
  - specialize (Hexact Hdt). apply wrap_int64.
    assert (H63 : 0 < 2 ^ 63) by reflexivity.
    generalize dependent (2 ^ 63). lia.
  - pose proof (series_dtype_uint64 _ p Hdt Hp).
    pose proof (series_dtype_uint64 _ q Hdt Hq).
    apply wrap_uint64. lia.
Qed.

(** *** One marker *)

Section MarkerSize.

Local Open Scope R_scope.

Lemma ratio_bounds (a b : Z) :
  (0 <= a <= b)%Z -> (0 < b)%Z -> 0 <= IZR a / IZR b <= 1.
Proof.
  intros [Ha Hab] Hb.
  assert (HbR : 0 < IZR b) by (by apply IZR_lt).
  assert (HaR : 0 <= IZR a) by (by apply IZR_le).
  assert (HabR : IZR a <= IZR b) by (by apply IZR_le).
  pose proof (Rinv_0_lt_compat _ HbR) as Hi.
  assert (Hone : IZR b * / IZR b = 1) by (field; lra).
  unfold Rdiv. split; nra.
Qed.

(** The radius of a quotient between 0 and 1. *)
Lemma radius_of_quotient (q : R) :
  0 <= q <= 1 ->
  fadd (Finite 5) (fmul (Finite q) (Finite 15)) = Finite (5 + q * 15).
Proof.
  intros Hq. destruct room as [Hone Hroom]. cbn.
  rewrite (round_finite (q * 15)) by (apply Rabs_bound; lra).
  apply round_finite. apply Rabs_bound. lra.
Qed.

(** With differences that are computed exactly and a minimum below the
    maximum, the size is the radius of the linear rule. *)
Lemma marker_size_exact dt p mn mx :
  (mn <= p <= mx)%Z -> (mn < mx)%Z ->
  wrap dt (p - mn) = (p - mn)%Z -> wrap dt (mx - mn) = (mx - mn)%Z ->
  marker_size dt p mn mx = Ok (Finite (linear_radius p mn mx)).
Proof.
  intros Hp Hlt Hnum Hden. unfold marker_size, linear_radius.
  rewrite Hnum, Hden.
  assert (Hq : 0 <= IZR (p - mn) / IZR (mx - mn) <= 1)
    by (apply ratio_bounds; lia).
  assert (Hnp : np_divide (p - mn) (mx - mn)
                = Finite (IZR (p - mn) / IZR (mx - mn))).
  { unfold np_divide. by destruct (Z.eqb_spec (mx - mn) 0); [lia|]. }
  assert (Hpy : int_truediv (p - mn) (mx - mn)
                = Ok (Finite (IZR (p - mn) / IZR (mx - mn)))).
  { unfold int_truediv. destruct (Z.eqb_spec (mx - mn) 0); [lia|].
    pose proof int_overflow_large as Hl.
    assert (H0 : (0 < 2 ^ 1000)%Z) by reflexivity.
    destruct (Z.ltb_spec (Z.abs (p - mn)) (int_overflow * Z.abs (mx - mn)));
      [done|].
    generalize dependent (2 ^ 1000)%Z. nia. }
  destruct dt; rewrite ?Hnp, ?Hpy; cbn [mbind res_bind];
    unfold mret, res_ret; f_equal; by apply radius_of_quotient.
Qed.

(** With a zero divisor numpy gives nan, and Python raises. *)
Lemma marker_size_flat dt c :
  marker_size dt c c c =
    match dt with Object => Raise ZeroDivisionError | _ => Ok NaN end.
Proof.
  unfold marker_size. rewrite Z.sub_diag, wrap_0. by destruct dt.
Qed.

(** numpy's integers never make the rule raise. *)
Lemma marker_size_numpy dt p mn mx :
  dt <> Object -> exists size, marker_size dt p mn mx = Ok size.
Proof. intros Hdt. unfold marker_size. destruct dt; [eauto..|done]. Qed.

End MarkerSize.

(** *** All markers *)

Lemma add_markers_rows data dt mn mx ms :
  add_markers data dt mn mx = Ok ms ->
  length ms = length data /\
  map m_location ms = map (fun row => (snd (location row), fst (location row))) data /\
  map popup ms = map (fun row => (name row, passengers row)) data.
Proof.
  revert ms. induction data as [|row data IH]; intros ms; cbn [add_markers].
  - by intros [= <-].
  - destruct (count_of (passengers row)) as [p|]; [|discriminate]. cbn.
    destruct (marker_size dt p mn mx) as [size|]; [|discriminate]. cbn.
    destruct (add_markers data dt mn mx) as [ms'|]; [|discriminate]. cbn.
    intros [= <-]. destruct (IH ms' eq_refl) as (Hn & Hl & Hp). cbn.
    by rewrite Hn, Hl, Hp.
Qed.

(** Every row gets its marker when the size of each can be computed. *)
Lemma add_markers_sizes data counts dt mn mx (size : Z -> float) :
  map passengers data = map VInt counts ->
  (forall p, In p counts -> marker_size dt p mn mx = Ok (size p)) ->
  exists ms,
    add_markers data dt mn mx = Ok ms /\
    map radius ms = map size counts.
Proof.
  revert counts. induction data as [|row data IH]; intros [|p counts];
    try discriminate.
  - intros _ _. by exists [].
  - cbn [map]. intros [= Hp Hrest] Hsize.
    destruct (IH counts Hrest) as (ms & Hms & Hr).
    { intros q Hq. apply Hsize. by right. }
    eexists. cbn [add_markers]. rewrite Hp. cbn.
    rewrite (Hsize p (or_introl eq_refl)). cbn. rewrite Hms. cbn.
    split; [reflexivity|]. cbn. by rewrite Hr.
Qed.

(** With a zero divisor in Python's own integers the first row fails. *)
Lemma add_markers_zero data c counts :
  map passengers data = map VInt (c :: counts) ->
  add_markers data Object c c = Raise ZeroDivisionError.
Proof.
  destruct data as [|row data]; [discriminate|].
  cbn [map]. intros [= Hp _]. cbn [add_markers]. rewrite Hp.
  cbn [count_of mbind res_bind]. by rewrite marker_size_flat.
Qed.

Lemma create_map_counts data center zoom c cs :
  map passengers data = map VInt (c :: cs) ->
  create_map data center zoom =
  (ms ← add_markers data (series_dtype (c :: cs))
                    (series_min c cs) (series_max c cs);
   mret {| map_center := center; zoom_start := zoom; markers := ms |}).
Proof.
  intros H. pose proof H as Hc. apply counts_of_map in Hc.
  unfold create_map. destruct data as [|r data]; [discriminate|].
  by rewrite Hc.
Qed.

(** Counts that are not all equal and that are computed with exactly: the
    markers have the radii of the linear rule. *)
Lemma create_map_exact data center zoom c cs :
  map passengers data = map VInt (c :: cs) ->
  series_min c cs < series_max c cs ->
  exact_spread c cs ->
  exists ms,
    create_map data center zoom
      = Ok {| map_center := center; zoom_start := zoom; markers := ms |} /\
    map radius ms =
      map (fun p => Finite (linear_radius p (series_min c cs) (series_max c cs)))
          (c :: cs).
Proof.
  intros Hc Hlt Hexact.
  destruct (series_min_spec c cs) as [Hmn Hmin].
  destruct (series_max_spec c cs) as [Hmx Hmax].
  destruct (add_markers_sizes data (c :: cs) (series_dtype (c :: cs))
              (series_min c cs) (series_max c cs)
              (fun p => Finite (linear_radius p (series_min c cs)
                                              (series_max c cs))) Hc)
    as (ms & Hms & Hr).
  { intros p Hp. pose proof (Hmin p Hp). pose proof (Hmax p Hp).
    apply marker_size_exact; [lia|lia| |].
    - apply wrap_difference; [done..|lia|lia].
    - apply wrap_difference; [done..|lia|lia]. }
  exists ms. rewrite (create_map_counts data center zoom c cs Hc), Hms.
  done.
Qed.



Lemma linear_radius_bounds p mn mx :
  mn <= p <= mx -> mn < mx ->
  (5 <= linear_radius p mn mx <= 20)%R.
Proof.
  intros Hp Hlt. unfold linear_radius.
  pose proof (ratio_bounds (p - mn) (mx - mn)) as H.
  destruct H; [lia|lia|]. lra.
Qed.

Lemma linear_radius_mono p q mn mx :
  mn < mx -> p <= q ->
  (linear_radius p mn mx <= linear_radius q mn mx)%R.
Proof.
  intros Hlt Hpq. unfold linear_radius.
  assert (Hd : (0 < IZR (mx - mn))%R) by (apply IZR_lt; lia).
  assert (Hn : (IZR (p - mn) <= IZR (q - mn))%R) by (apply IZR_le; lia).
  pose proof (Rinv_0_lt_compat _ Hd) as Hi.
  unfold Rdiv. nra.
Qed.


(** Counts that are all equal, in numpy's integers: every radius is nan. *)
Lemma create_map_flat data center zoom c cs :
  map passengers data = map VInt (c :: cs) ->
  (forall p, In p cs -> p = c) ->
  series_dtype (c :: cs) <> Object ->
  exists ms,
    create_map data center zoom
      = Ok {| map_center := center; zoom_start := zoom; markers := ms |} /\
    map radius ms = map (fun _ => NaN) (c :: cs).
Proof.
  intros Hc Hflat Hdt.
  destruct (series_flat c cs Hflat) as [Hmin Hmax].
  destruct (add_markers_sizes data (c :: cs) (series_dtype (c :: cs)) c c
              (fun _ => NaN) Hc) as (ms & Hms & Hr).
  { intros p [<-|Hp]; [|rewrite (Hflat p Hp)]; rewrite marker_size_flat;
      by destruct (series_dtype (c :: cs)). }
  exists ms. rewrite (create_map_counts data center zoom c cs Hc).
  by rewrite Hmin, Hmax, Hms.
Qed.

(** Every row gets a marker as soon as every size can be computed. *)
Lemma add_markers_returns data counts dt mn mx :
  map passengers data = map VInt counts ->
  (forall p, In p counts -> exists size, marker_size dt p mn mx = Ok size) ->
  exists ms, add_markers data dt mn mx = Ok ms.
Proof.
  revert counts. induction data as [|row data IH]; intros [|p counts];
    try discriminate.
  - intros _ _. by exists [].
  - cbn [map]. intros [= Hp Hrest] Hsize.
    destruct (IH counts Hrest) as (ms & Hms).
    { intros q Hq. apply Hsize. by right. }
    destruct (Hsize p (or_introl eq_refl)) as [size Hs].
    eexists. cbn [add_markers]. rewrite Hp. cbn [count_of mbind res_bind].
    rewrite Hs. cbn [mbind res_bind]. rewrite Hms. reflexivity.
Qed.

(** Integer counts that are not all equal: [create_map] returns a map
    with one marker per station, whether a difference wraps around or
    not. *)
Lemma create_map_returns data center zoom c cs :
  map passengers data = map VInt (c :: cs) ->
  series_min c cs < series_max c cs ->
  exists ms,
    create_map data center zoom
      = Ok {| map_center := center; zoom_start := zoom; markers := ms |} /\
    length ms = length data.
Proof.
  intros Hc Hlt.
  destruct (series_min_spec c cs) as [_ Hmin].
  destruct (series_max_spec c cs) as [_ Hmax].
  destruct (add_markers_returns data (c :: cs) (series_dtype (c :: cs))
              (series_min c cs) (series_max c cs) Hc) as (ms & Hms).
  { intros p Hp. destruct (series_dtype (c :: cs)) eqn:Hdt.
    - by apply marker_size_numpy.
    - by apply marker_size_numpy.
    - pose proof (Hmin p Hp). pose proof (Hmax p Hp). eexists.
      apply marker_size_exact; [lia|lia|reflexivity|reflexivity]. }
  exists ms. rewrite (create_map_counts data center zoom c cs Hc), Hms.
  split; [reflexivity|].
  by destruct (add_markers_rows _ _ _ _ _ Hms) as (Hn & _).
Qed.

(* ================================================================== *)
(** ** The sample data, read                                           *)
(* ================================================================== *)

Lemma IZR_pow2 (z : Z) : 0 <= z -> IZR (2 ^ z) = powerRZ 2 z.
Proof.
  intros H. rewrite <- (Z2Nat.id z H) at 2.
  rewrite <- pow_powerRZ, pow_IZR. by rewrite Z2Nat.id.
Qed.

Lemma moderate_pow2 (n z : Z) : 0 <= z <= 999 -> Z.abs n <= 2 ^ z -> moderate n.
Proof.
  intros Hz Hn. unfold moderate. etransitivity; [exact Hn|].
  apply Z.pow_le_mono_r; lia.
Qed.

(** A tile of the grid and a local coordinate inside it are in range, at
    every zoom level up to 998. *)
Lemma in_range_grid (ext x y z cx cy : Z) :
  0 <= z <= 998 -> 0 <= x < 2 ^ z -> 0 <= y < 2 ^ z ->
  0 < ext <= 2 ^ 999 -> 0 <= cx <= ext -> 0 <= cy <= ext ->
  in_range ext x y z cx cy.
Proof.
  intros Hz Hx Hy Hext Hcx Hcy. unfold in_range.
  split; [lia|]. split; [lia|].
  split; [apply (moderate_pow2 x z); lia|].
  split; [apply (moderate_pow2 y z); lia|].
  split; [unfold moderate; lia|]. split; [unfold moderate; lia|].
  apply sinh_in_range_grid. rewrite <- IZR_pow2 by lia.
  assert (He : (0 < IZR ext)%R) by (apply IZR_lt; lia).
  assert (Hq : (0 <= IZR cy / IZR ext <= 1)%R) by (apply ratio_bounds; lia).
  assert (H0 : (0 <= IZR y)%R) by (apply IZR_le; lia).
  assert (H1 : (IZR y + 1 <= IZR (2 ^ z))%R).
  { rewrite <- plus_IZR. apply IZR_le. lia. }
  lra.
Qed.

Lemma sample_in_range (cx cy : Z) :
  0 <= cx <= 4096 -> 0 <= cy <= 4096 ->
  in_range (extent Sample.stations) 29102 12903 15 cx cy.
Proof.
  intros Hcx Hcy. apply in_range_grid; cbn [extent Sample.stations];
    try lia; done.
Qed.

(** The loop over the features of the layer [stations]. *)
Lemma sample_loop (out : list diag) :
  for_in (feature_body Sample.stations 29102 12903 15)
         (features Sample.stations) [] out =
  (Ok Sample.extracted, out ++ [WarnUnsupportedGeometry "MultiPolygon"]).
Proof.
  cbn [features Sample.stations for_in].
  rewrite bind_unfold.
  rewrite (feature_body_in_range Sample.stations 29102 12903 15 Sample.tokyo
             [] out (VStr "Tokyo") (PList [PInt 1; PInt 2]) 1 2
             eq_refl eq_refl eq_refl eq_refl)
    by (apply sample_in_range; lia).
  rewrite bind_unfold, feature_body_drop by reflexivity.
  rewrite bind_unfold, feature_body_unsupported by (by eexists).
  rewrite bind_unfold.
  rewrite (feature_body_in_range Sample.stations 29102 12903 15 Sample.ueno
             _ _ (VStr "Ueno") (PList [PInt 3; PInt 4]) 3 4
             eq_refl eq_refl eq_refl eq_refl)
    by (apply sample_in_range; lia).
  rewrite bind_unfold.
  rewrite (feature_body_in_range Sample.stations 29102 12903 15 Sample.shinjuku
             _ _ (VStr "Shinjuku") (PList [PInt 7; PInt 8]) 7 8
             eq_refl eq_refl eq_refl eq_refl)
    by (apply sample_in_range; lia).
  reflexivity.
Qed.

(** The sample tile file, under the three decoders that know it. *)
Lemma sample_read (out : list diag) :
  read_pbf Sample.open_read Sample.decode "mesh/mesh_29102_12903.pbf" out =
  (Ok (Some Sample.extracted),
   out ++ [WarnUnsupportedGeometry "MultiPolygon";
           InfoFeatureCount "mesh/mesh_29102_12903.pbf" 3]).
Proof.
  rewrite read_pbf_cases.
  change (Sample.open_read "mesh/mesh_29102_12903.pbf") with (Ok [Byte.x02]).
  cbv beta iota.
  change (Sample.decode [Byte.x02])
    with (Ok [("stations", Sample.stations); ("roads", Sample.roads)]).
  cbv beta iota.
  change (tile_of_name (basename "mesh/mesh_29102_12903.pbf"))
    with (Ok (15, 29102, 12903)).
  cbv beta iota. rewrite sample_loop. cbn [length Sample.extracted].
  by rewrite <- List.app_assoc.
Qed.

Lemma sample_read_single (out : list diag) :
  read_pbf Sample.open_read Sample.decode_single "mesh/mesh_29102_12903.pbf" out =
  (Ok (Some Sample.extracted),
   out ++ [WarnUnsupportedGeometry "MultiPolygon";
           InfoFeatureCount "mesh/mesh_29102_12903.pbf" 3]).
Proof.
  rewrite read_pbf_cases.
  change (Sample.open_read "mesh/mesh_29102_12903.pbf") with (Ok [Byte.x02]).
  cbv beta iota.
  change (Sample.decode_single [Byte.x02]) with (Ok [("only", Sample.stations)]).
  cbv beta iota.
  change (tile_of_name (basename "mesh/mesh_29102_12903.pbf"))
    with (Ok (15, 29102, 12903)).
  cbv beta iota. rewrite sample_loop. cbn [length Sample.extracted].
  by rewrite <- List.app_assoc.
Qed.

Lemma tokyo_read (out : list diag) :
  read_pbf Tokyo.open_read Sample.decode
           "500m_mesh/station_users_500m_mesh/mesh_29102_12903.pbf" out =
  (Ok (Some Sample.extracted),
   out ++ [WarnUnsupportedGeometry "MultiPolygon";
           InfoFeatureCount
             "500m_mesh/station_users_500m_mesh/mesh_29102_12903.pbf" 3]).
Proof.
  rewrite read_pbf_cases.
  change (Tokyo.open_read _) with (Ok [Byte.x02]).
  cbv beta iota.
  change (Sample.decode [Byte.x02])
    with (Ok [("stations", Sample.stations); ("roads", Sample.roads)]).
  cbv beta iota.
  change (tile_of_name (basename _)) with (Ok (15, 29102, 12903)).
  cbv beta iota. rewrite sample_loop. cbn [length Sample.extracted].
  by rewrite <- List.app_assoc.
Qed.

(** The directory [mesh]: what its tile files give and print. *)
Lemma mesh_records :
  flat_map (file_records Sample.open_read Sample.decode "mesh")
           (matching ["mesh_29102_12903.pbf"; "notes.txt";
                      "mesh_29103_12903.pbf"; "broken.pbf"])
  = Sample.extracted.
Proof.
  change (matching _)
    with ["mesh_29102_12903.pbf"; "mesh_29103_12903.pbf"; "broken.pbf"].
  cbn [flat_map]. unfold file_records at 1, file_result, run.
  change (path_join "mesh" "mesh_29102_12903.pbf")
    with "mesh/mesh_29102_12903.pbf".
  rewrite sample_read. reflexivity.
Qed.

Lemma mesh_log :
  flat_map (file_log Sample.open_read Sample.decode "mesh")
           (matching ["mesh_29102_12903.pbf"; "notes.txt";
                      "mesh_29103_12903.pbf"; "broken.pbf"])
  = [WarnUnsupportedGeometry "MultiPolygon";
     InfoFeatureCount "mesh/mesh_29102_12903.pbf" 3;
     ErrorFile "mesh/mesh_29103_12903.pbf" DecodeError;
     ErrorFile "mesh/broken.pbf" IndexError].
Proof.
  change (matching _)
    with ["mesh_29102_12903.pbf"; "mesh_29103_12903.pbf"; "broken.pbf"].
  cbn [flat_map]. unfold file_log at 1, run.
  change (path_join "mesh" "mesh_29102_12903.pbf")
    with "mesh/mesh_29102_12903.pbf".
  rewrite sample_read. reflexivity.
Qed.

Lemma mesh_valid :
  List.filter (decodes Sample.open_read Sample.decode "mesh")
    (matching ["mesh_29102_12903.pbf"; "notes.txt";
               "mesh_29103_12903.pbf"; "broken.pbf"])
  = ["mesh_29102_12903.pbf"].
Proof.
  change (matching _)
    with ["mesh_29102_12903.pbf"; "mesh_29103_12903.pbf"; "broken.pbf"].
  cbn [List.filter]. unfold decodes at 1, file_result, run.
  change (path_join "mesh" "mesh_29102_12903.pbf")
    with "mesh/mesh_29102_12903.pbf".
  rewrite sample_read. reflexivity.
Qed.

(** The input directory of [main]. *)
Lemma tokyo_records (files : list string) :
  matching files = ["mesh_29102_12903.pbf"] ->
  flat_map (file_records Tokyo.open_read Sample.decode
              "500m_mesh/station_users_500m_mesh") (matching files)
  = Sample.extracted.
Proof.
  intros ->. cbn [flat_map]. unfold file_records, file_result, run.
  change (path_join _ _)
    with "500m_mesh/station_users_500m_mesh/mesh_29102_12903.pbf".
  rewrite tokyo_read. reflexivity.
Qed.

(** The station far below the grid: the loop body raises. *)
Lemma far_south_overflows (acc : list station) (out : list diag) :
  feature_body Sample.unit_layer 0 0 15 Sample.far_south acc out
    = (Raise OverflowError, out).
Proof.
  apply (feature_body_overflow Sample.unit_layer 0 0 15 Sample.far_south acc out
           (VStr "Far south") (PList [PInt 0; PInt 4000000]) 0 4000000);
    try reflexivity; try done; try (apply Z.leb_le; vm_compute; reflexivity).
  apply sinh_overflows_far_south.
Qed.

Lemma far_read (out : list diag) :
  read_pbf Far.open_read Far.decode "mesh/mesh_0_0.pbf" out =
  (Ok None, out ++ [ErrorFile "mesh/mesh_0_0.pbf" OverflowError]).
Proof.
  rewrite read_pbf_cases.
  change (Far.open_read _) with (Ok [Byte.x01]).
  cbv beta iota.
  change (Far.decode [Byte.x01]) with (Ok [("stations", Sample.unit_layer)]).
  cbv beta iota.
  change (tile_of_name (basename _)) with (Ok (15, 0, 0)).
  cbv beta iota. cbn [features Sample.unit_layer for_in].
  rewrite bind_unfold, far_south_overflows. reflexivity.
Qed.

Lemma mesh_load :
  load_all_pbf_files Sample.open_read Sample.listdir Sample.decode "mesh" []
    = (Ok Sample.extracted,
       [WarnUnsupportedGeometry "MultiPolygon";
        InfoFeatureCount "mesh/mesh_29102_12903.pbf" 3;
        ErrorFile "mesh/mesh_29103_12903.pbf" DecodeError;
        ErrorFile "mesh/broken.pbf" IndexError;
        InfoFileCount 3]).
Proof.
  rewrite (load_all_pbf_files_run Sample.open_read Sample.listdir Sample.decode
             "mesh" ["mesh_29102_12903.pbf"; "notes.txt";
                     "mesh_29103_12903.pbf"; "broken.pbf"] [] eq_refl).
  cbv zeta. rewrite mesh_records, mesh_log. reflexivity.
Qed.

(* ================================================================== *)
(** ** The coordinate transform                                        *)
(* ================================================================== *)

Section Transform.

Local Open Scope R_scope.

(** The transform, written with the fractional tile position spelled out. *)
Lemma tile_to_latlon_formula (tileX tileY extent localX localY : R) (zoom : nat) :
  tile_to_latlon (tileX + localX / extent) (tileY + localY / extent)
                 (Z.of_nat zoom) =
  ((tileX + localX / extent) / 2 ^ zoom * 360 - 180,
   atan (sinh (PI * (1 - 2 * (tileY + localY / extent) / 2 ^ zoom)))
     * 180 / PI).
Proof.
  unfold tile_to_latlon. rewrite <- pow_powerRZ, degrees_div. reflexivity.
Qed.

Lemma tile_to_latlon_top_left :
  tile_to_latlon (0 + 0 / 1) (0 + 0 / 1) 0 = (-180, degrees (atan (sinh PI))).
Proof.
  unfold tile_to_latlon. cbn [powerRZ]. f_equal; [field|].
  do 3 f_equal. field.
Qed.

Lemma tile_to_latlon_bottom_right :
  tile_to_latlon (0 + 1 / 1) (0 + 1 / 1) 0 = (180, - degrees (atan (sinh PI))).
Proof.
  unfold tile_to_latlon. cbn [powerRZ]. f_equal; [field|].
  replace (PI * (1 - 2 * (0 + 1 / 1) / 1)) with (- PI) by field.
  rewrite sinh_opp, atan_opp. unfold degrees. ring.
Qed.

(** The corners of the world tile, as the transform runs on them. *)
Lemma corner_run (c : Z) :
  (0 <= c <= 1)%Z ->
  position 0 (PInt c) 1 = Ok (Finite (0 + IZR c / 1)) /\
  tile_to_latlon_float (Finite (0 + IZR c / 1)) (Finite (0 + IZR c / 1)) 0
    = Ok (finite_pair (tile_to_latlon (0 + IZR c / 1) (0 + IZR c / 1) 0)).
Proof.
  intros Hc.
  assert (Hm : moderate c) by (unfold moderate; lia).
  assert (H0 : moderate 0) by (unfold moderate; lia).
  split; [by apply (position_finite 0 c 1)|].
  rewrite tile_to_latlon_float_run;
    [|lia|by apply (position_bound 0 c 1)..].
  assert (Hin : sinh_in_range (0 + IZR c / 1) 0).
  { apply sinh_in_range_grid. cbn [powerRZ].
    assert (0 <= IZR c <= 1) by (split; apply IZR_le; lia). lra. }
  unfold sinh_in_range in Hin. by destruct (Rle_dec _ DBL_MAX).
Qed.

(** C1, as the program has it.  For a tile [(tileX, tileY, zoom)], a
    positive extent and a local coordinate [(localX, localY)] the exact
    value of the transform is
    [lon = (tileX + localX/extent) / 2^zoom * 360 - 180] and
    [lat = degrees(atan(sinh(pi * (1 - 2 * (tileY + localY/extent) / 2^zoom))))].
    The loop body of [read_pbf] stores this value (floats idealised as the
    exact reals) as the station's location whenever [math.sinh] stays
    within the range of doubles, the zoom being at most 1023 and the
    integers at most [2^999] in magnitude; where [math.sinh] overflows the
    loop body raises [OverflowError] instead.  It stays in range for every
    tile of the grid with a local coordinate between 0 and the extent.  At
    [zoom = 0], tile [(0, 0)], [extent = 1] the local coordinate [(0, 0)]
    gives [lon = -180] and a latitude within [0.00005] of [85.0511], and
    the local coordinate [(1, 1)] gives [lon = 180] and a latitude within
    [0.00005] of [-85.0511]. *)
Theorem transform_correct :
  (forall (tileX tileY extent localX localY : R) (zoom : nat),
      tile_to_latlon (tileX + localX / extent) (tileY + localY / extent)
                     (Z.of_nat zoom) =
      ((tileX + localX / extent) / 2 ^ zoom * 360 - 180,
       atan (sinh (PI * (1 - 2 * (tileY + localY / extent) / 2 ^ zoom)))
         * 180 / PI)) /\
  (forall (lay : layer) (tileX tileY : Z) (zoom : nat) (feat : feature)
          (acc : list station) (out : list diag)
          (nm : value) (coords : pyval) (localX localY : Z),
      (0 < extent lay)%Z ->
      props feat !! "S12_001_ja" = Some nm ->
      select_coords (f_geometry feat) = Ok (Some coords) ->
      subscript coords 0 = Ok (PInt localX) ->
      subscript coords 1 = Ok (PInt localY) ->
      (zoom <= 1023)%nat ->
      moderate tileX -> moderate tileY -> moderate localX -> moderate localY ->
      (sinh_in_range (IZR tileY + IZR localY / IZR (extent lay)) (Z.of_nat zoom) ->
       exists r,
         feature_body lay tileX tileY (Z.of_nat zoom) feat acc out
           = (Ok (acc ++ [r]), out) /\
         location r =
           (Finite ((IZR tileX + IZR localX / IZR (extent lay)) / 2 ^ zoom * 360
                    - 180),
            Finite (atan (sinh (PI * (1 - 2 * (IZR tileY
                                                + IZR localY / IZR (extent lay))
                                            / 2 ^ zoom)))
                    * 180 / PI))) /\
      (~ sinh_in_range (IZR tileY + IZR localY / IZR (extent lay)) (Z.of_nat zoom) ->
       feature_body lay tileX tileY (Z.of_nat zoom) feat acc out
         = (Raise OverflowError, out))) /\
  (forall (ext tileX tileY zoom localX localY : Z),
      (0 <= zoom <= 998)%Z ->
      (0 <= tileX < 2 ^ zoom)%Z -> (0 <= tileY < 2 ^ zoom)%Z ->
      (0 < ext <= 2 ^ 999)%Z ->
      (0 <= localX <= ext)%Z -> (0 <= localY <= ext)%Z ->
      moderate tileX /\ moderate tileY /\ moderate localX /\ moderate localY /\
      sinh_in_range (IZR tileY + IZR localY / IZR ext) zoom) /\
  (position 0 (PInt 0) 1 = Ok (Finite (0 + 0 / 1)) /\
   tile_to_latlon_float (Finite (0 + 0 / 1)) (Finite (0 + 0 / 1)) 0
     = Ok (finite_pair (tile_to_latlon (0 + 0 / 1) (0 + 0 / 1) 0)) /\
   fst (tile_to_latlon (0 + 0 / 1) (0 + 0 / 1) 0) = -180 /\
   Rabs (snd (tile_to_latlon (0 + 0 / 1) (0 + 0 / 1) 0) - 85.0511) < 0.00005) /\
  (position 0 (PInt 1) 1 = Ok (Finite (0 + 1 / 1)) /\
   tile_to_latlon_float (Finite (0 + 1 / 1)) (Finite (0 + 1 / 1)) 0
     = Ok (finite_pair (tile_to_latlon (0 + 1 / 1) (0 + 1 / 1) 0)) /\
   fst (tile_to_latlon (0 + 1 / 1) (0 + 1 / 1) 0) = 180 /\
   Rabs (snd (tile_to_latlon (0 + 1 / 1) (0 + 1 / 1) 0) - - 85.0511) < 0.00005).
Proof.
  pose proof mercator_edge_bounds as [Hlo Hhi].
  split; [apply tile_to_latlon_formula|].
  split; [|split; [|split]].
  - intros lay tileX tileY zoom feat acc out nm coords localX localY
      Hext Hnm Hsel H0 H1 Hz Hx Hy Hcx Hcy.
    assert (Hne : extent lay <> 0%Z) by lia.
    assert (Hzoom : (0 <= Z.of_nat zoom <= 1023)%Z) by lia.
    split.
    + intros Hin. eexists. split.
      * apply (feature_body_in_range lay tileX tileY (Z.of_nat zoom) feat acc out
                 nm coords localX localY Hnm Hsel H0 H1).
        unfold in_range. auto 10.
      * cbn [location]. unfold finite_pair.
        by rewrite tile_to_latlon_formula.
    + intros Hout.
      by apply (feature_body_overflow lay tileX tileY (Z.of_nat zoom) feat acc out
                  nm coords localX localY).
  - intros ext tileX tileY zoom localX localY Hz Hx Hy Hext Hcx Hcy.
    destruct (in_range_grid ext tileX tileY zoom localX localY Hz Hx Hy Hext
                Hcx Hcy) as (_ & _ & H).
    exact H.
  - destruct (corner_run 0) as [Hp Hr]; [lia|].
    split; [exact Hp|]. split; [exact Hr|].
    rewrite tile_to_latlon_top_left. cbn [fst snd].
    split; [reflexivity|]. apply Rabs_def1; lra.
  - destruct (corner_run 1) as [Hp Hr]; [lia|].
    split; [exact Hp|]. split; [exact Hr|].
    rewrite tile_to_latlon_bottom_right. cbn [fst snd].
    split; [reflexivity|]. apply Rabs_def1; lra.
Qed.

End Transform.

(* ================================================================== *)
(** ** Geometry and filtering                                          *)
(* ================================================================== *)

Lemma supported_false (ty : string) :
  ty <> "Point" -> ty <> "LineString" -> ty <> "Polygon" ->
  supported ty = false.
Proof.
  intros Hp Hl Hg. unfold supported.
  apply String.eqb_neq in Hp, Hl, Hg. by rewrite Hp, Hl, Hg.
Qed.

Lemma first_coordinate_some geom cx cy :
  first_coordinate geom = Some (cx, cy) ->
  exists coords,
    select_coords geom = Ok (Some coords) /\
    subscript coords 0 = Ok (PInt cx) /\
    subscript coords 1 = Ok (PInt cy).
Proof.
  unfold first_coordinate.
  destruct (select_coords geom) as [[coords|]|]; try discriminate.
  destruct (subscript coords 0) as [[x|]|] eqn:H0,
           (subscript coords 1) as [[y|]|] eqn:H1; try discriminate.
  intros [= <- <-]. eauto.
Qed.

(** The loop returns when every kept feature has a coordinate pair that
    is in range. *)
Lemma for_features_returns lay x y z feats :
  (forall feat, In feat feats -> kept feat = true ->
     exists cx cy, first_coordinate (f_geometry feat) = Some (cx, cy) /\
                   in_range (extent lay) x y z cx cy) ->
  forall acc out,
    exists recs out', for_in (feature_body lay x y z) feats acc out = (Ok recs, out').
Proof.
  induction feats as [|feat feats IH]; intros Hwf acc out.
  - cbn. eauto.
  - cbn [for_in]. rewrite bind_unfold.
    assert (Hrest : forall f, In f feats -> kept f = true ->
              exists cx cy, first_coordinate (f_geometry f) = Some (cx, cy) /\
                            in_range (extent lay) x y z cx cy).
    { intros f Hf. apply Hwf. by right. }
    destruct (props feat !! "S12_001_ja") as [nm|] eqn:Hnm.
    2:{ rewrite (feature_body_drop _ _ _ _ _ _ _ Hnm). by apply IH. }
    destruct (supported (gtype (f_geometry feat))) eqn:Hs.
    2:{ rewrite feature_body_unsupported by eauto. by apply IH. }
    destruct (Hwf feat (or_introl eq_refl)) as (cx & cy & Hc & Hin).
    { unfold kept. rewrite Hnm, Hs. rewrite bool_decide_eq_true_2; eauto. }
    apply first_coordinate_some in Hc as (coords & Hsel & H0 & H1).
    rewrite (feature_body_in_range _ _ _ _ _ _ _ _ _ _ _ Hnm Hsel H0 H1 Hin).
    by apply IH.
Qed.

(** C2. The local coordinate of a kept feature is the coordinate pair
    itself for a [Point], the first pair for a [LineString] and the first
    pair of the first ring for a [Polygon]: the loop body transforms the
    position of that pair, adds the station when the transform returns
    and raises what the transform raises, and for a pair in range the
    station lies where the exact transform puts the pair.  A named feature
    with any other geometry type adds no station, prints one warning, and
    the loop goes on with the features that follow. *)
Theorem geometry_policy :
  (forall c : pyval,
      select_coords {| gtype := "Point"; coordinates := c |} = Ok (Some c)) /\
  (forall (c : pyval) (cs : list pyval),
      select_coords {| gtype := "LineString"; coordinates := PList (c :: cs) |}
        = Ok (Some c)) /\
  (forall (c : pyval) (cs rings : list pyval),
      select_coords {| gtype := "Polygon";
                       coordinates := PList (PList (c :: cs) :: rings) |}
        = Ok (Some c)) /\
  (forall (lay : layer) (x y z : Z) (feat : feature) (acc : list station)
          (out : list diag) (nm : value) (cx cy : Z) (more : list pyval)
          (px py : float),
      props feat !! "S12_001_ja" = Some nm ->
      select_coords (f_geometry feat) = Ok (Some (PList (PInt cx :: PInt cy :: more))) ->
      position x (PInt cx) (extent lay) = Ok px ->
      position y (PInt cy) (extent lay) = Ok py ->
      feature_body lay x y z feat acc out =
        match tile_to_latlon_float px py z with
        | Ok loc =>
            (Ok (acc ++ [ {| location := loc; name := nm;
                             passengers :=
                               default (VInt 0) (props feat !! "S12_009") |} ]),
             out)
        | Raise e => (Raise e, out)
        end) /\
  (forall (lay : layer) (x y z : Z) (feat : feature) (acc : list station)
          (out : list diag) (nm : value) (cx cy : Z) (more : list pyval),
      props feat !! "S12_001_ja" = Some nm ->
      select_coords (f_geometry feat) = Ok (Some (PList (PInt cx :: PInt cy :: more))) ->
      in_range (extent lay) x y z cx cy ->
      exists r,
        feature_body lay x y z feat acc out = (Ok (acc ++ [r]), out) /\
        location r =
          finite_pair (tile_to_latlon (IZR x + IZR cx / IZR (extent lay))
                                      (IZR y + IZR cy / IZR (extent lay)) z)) /\
  (forall (lay : layer) (x y z : Z) (feat : feature) (rest : list feature)
          (acc : list station) (out : list diag),
      is_Some (props feat !! "S12_001_ja") ->
      gtype (f_geometry feat) <> "Point" ->
      gtype (f_geometry feat) <> "LineString" ->
      gtype (f_geometry feat) <> "Polygon" ->
      feature_body lay x y z feat acc out =
        (Ok acc, out ++ [WarnUnsupportedGeometry (gtype (f_geometry feat))]) /\
      for_in (feature_body lay x y z) (feat :: rest) acc out =
        for_in (feature_body lay x y z) rest acc
               (out ++ [WarnUnsupportedGeometry (gtype (f_geometry feat))])).
Proof.
  split; [reflexivity|]. split; [reflexivity|]. split; [reflexivity|].
  split; [|split].
  - intros lay x y z feat acc out nm cx cy more px py Hnm Hsel Hpx Hpy.
    by apply (feature_body_keep lay x y z feat acc out nm _ cx cy px py Hnm Hsel).
  - intros lay x y z feat acc out nm cx cy more Hnm Hsel Hin.
    eexists. split.
    + by apply (feature_body_in_range lay x y z feat acc out nm _ cx cy Hnm Hsel).
    + reflexivity.
  - intros lay x y z feat rest acc out Hnm Hp Hl Hg.
    pose proof (supported_false _ Hp Hl Hg) as Hs.
    pose proof (feature_body_unsupported lay x y z feat acc out Hnm Hs) as Hb.
    split; [exact Hb|]. cbn [for_in]. by rewrite bind_unfold, Hb.
Qed.

(** C3. A feature gives a station only if its properties hold the key
    [S12_001_ja]: the loop body leaves the list as it is for a feature
    without it, and the stations of a layer are, in the order of the
    features, those of its kept features, each with the feature's name and
    with the value of [S12_009] as passenger count, 0 when the feature has
    none; so there are at most as many stations as features.  The loop
    returns whenever each kept feature has a coordinate pair in range. *)
Theorem station_filter :
  (forall (lay : layer) (x y z : Z) (feat : feature) (acc : list station)
          (out : list diag),
      props feat !! "S12_001_ja" = None ->
      feature_body lay x y z feat acc out = (Ok acc, out)) /\
  (forall (lay : layer) (x y z : Z) (recs : list station) (out out' : list diag),
      for_in (feature_body lay x y z) (features lay) [] out = (Ok recs, out') ->
      Forall2 (fun feat r =>
                 props feat !! "S12_001_ja" = Some (name r) /\
                 (forall v, props feat !! "S12_009" = Some v -> passengers r = v) /\
                 (props feat !! "S12_009" = None -> passengers r = VInt 0))
              (List.filter kept (features lay)) recs /\
      (length recs <= length (features lay))%nat) /\
  (forall (lay : layer) (x y z : Z) (out : list diag),
      (forall feat, In feat (features lay) -> kept feat = true ->
         exists cx cy, first_coordinate (f_geometry feat) = Some (cx, cy) /\
                       in_range (extent lay) x y z cx cy) ->
      exists recs out',
        for_in (feature_body lay x y z) (features lay) [] out = (Ok recs, out') /\
        length recs = length (List.filter kept (features lay))).
Proof.
  split; [|split].
  - intros. by apply feature_body_drop.
  - intros lay x y z recs out out' Hrun.
    apply for_features_ok in Hrun as (new & -> & Hnew). cbn [app].
    split.
    + eapply Forall2_impl; [exact Hnew|].
      intros feat r (Hn & Hp & _). split; [exact Hn|]. rewrite Hp.
      split; [by intros v ->|by intros ->].
    + apply Forall2_length in Hnew. rewrite <- Hnew. apply filter_length_le.
  - intros lay x y z out Hwf.
    destruct (for_features_returns lay x y z (features lay) Hwf [] out)
      as (recs & out' & Hrun).
    exists recs, out'. split; [exact Hrun|].
    apply for_features_ok in Hrun as (new & -> & Hnew). cbn [app].
    symmetry. by apply Forall2_length in Hnew.
Qed.

(* ================================================================== *)
(** ** Decoding one file                                               *)
(* ================================================================== *)

(** C4. [read_pbf] returns for every path; it never raises.  When the
    bytes do not parse, when the decoded tile is empty, or when the file
    name does not give a tile coordinate, it returns [None] and the failure
    is in the log; so is every other exception of its body, and one of
    [open]. *)
Theorem read_pbf_never_raises :
  forall (open_read : string -> res (list Byte.byte))
         (decode : list Byte.byte -> res tile)
         (file_path : string) (out : list diag),
    (exists r out', read_pbf open_read decode file_path out = (Ok r, out')) /\
    (forall data e,
        open_read file_path = Ok data -> decode data = Raise e ->
        read_pbf open_read decode file_path out
          = (Ok None, out ++ [ErrorFile file_path e])) /\
    (forall data,
        open_read file_path = Ok data -> decode data = Ok [] ->
        read_pbf open_read decode file_path out
          = (Ok None, out ++ [WarnEmptyFile file_path])) /\
    (forall data layer_name lay rest,
        open_read file_path = Ok data ->
        decode data = Ok ((layer_name, lay) :: rest) ->
        ~ name_matches (basename file_path) ->
        exists e,
          tile_of_name (basename file_path) = Raise e /\
          read_pbf open_read decode file_path out
            = (Ok None, out ++ [ErrorFile file_path e])) /\
    (forall e,
        open_read file_path = Raise e ->
        read_pbf open_read decode file_path out
          = (Ok None, out ++ [ErrorFile file_path e])) /\
    (forall e log,
        read_pbf_body open_read decode file_path out = (Raise e, log) ->
        read_pbf open_read decode file_path out
          = (Ok None, log ++ [ErrorFile file_path e])).
Proof.
  intros open_read decode file_path out.
  split; [apply read_pbf_returns|].
  split; [|split; [|split; [|split]]].
  - intros data e Ho Hd. by rewrite read_pbf_cases, Ho, Hd.
  - intros data Ho Hd. by rewrite read_pbf_cases, Ho, Hd.
  - intros data layer_name lay rest Ho Hd Hn.
    destruct (tile_of_name_raises _ Hn) as [e He].
    exists e. split; [exact He|]. by rewrite read_pbf_cases, Ho, Hd, He.
  - intros e Ho. by rewrite read_pbf_cases, Ho.
  - intros e log Hb. unfold read_pbf, try_except. by rewrite Hb.
Qed.

(** C6, as the program has it.  The tile coordinate of a file comes from
    its base name, what follows the last slash of the path, split at [_]:
    [x] is the second to last part and [y] the last part up to its first
    dot, both read as integers, and the zoom is 15 whatever the name and
    the contents are.  For a name [<prefix>_<x>_<y>.<ext>] these are the
    parts between the last two underscores and the dot, so that the name
    written with the numerals of [x] and [y] gives the tile [(15, x, y)].
    When the last part holds at most one dot this [y] is the last part
    with its trailing extension stripped.  A file that [read_pbf]
    processes has its stations computed at zoom 15 from the [x] and [y] of
    its base name: of its own name, whatever the directory is called. *)
Theorem tile_coordinate_from_name :
  (forall (file_name : string) (z x y : Z),
      tile_of_name file_name = Ok (z, x, y) <->
      z = 15 /\
      exists front xs last_part ys more,
        split "_" file_name = front ++ [xs; last_part] /\
        split "." last_part = ys :: more /\
        int xs = Ok x /\ int ys = Ok y) /\
  (forall prefix xs ys ext : string,
      occurs "_" xs = false -> occurs "_" ys = false ->
      occurs "." ys = false -> occurs "_" ext = false ->
      tile_of_name (prefix +:+ "_" +:+ xs +:+ "_" +:+ ys +:+ "." +:+ ext) =
      (x ← int xs; y ← int ys; mret (15, x, y))) /\
  (forall (prefix ext : string) (x y : Z),
      occurs "_" ext = false ->
      (digit_count x <= max_str_digits)%nat ->
      (digit_count y <= max_str_digits)%nat ->
      tile_of_name (prefix +:+ "_" +:+ str x +:+ "_" +:+ str y +:+ "." +:+ ext)
        = Ok (15, x, y)) /\
  (forall (file_name : string) (front : list string) (xs last_part : string),
      split "_" file_name = front ++ [xs; last_part] ->
      (length (split "." last_part) <= 2)%nat ->
      tile_of_name_as_worded file_name = tile_of_name file_name) /\
  (forall directory file_name : string,
      occurs "/" file_name = false ->
      basename file_name = file_name /\
      basename (directory +:+ "/" +:+ file_name) = file_name) /\
  (forall (open_read : string -> res (list Byte.byte))
          (decode : list Byte.byte -> res tile)
          (file_path : string) (out out' : list diag) (recs : list station),
      read_pbf open_read decode file_path out = (Ok (Some recs), out') ->
      exists data layer_name lay rest x y log,
        open_read file_path = Ok data /\
        decode data = Ok ((layer_name, lay) :: rest) /\
        tile_of_name (basename file_path) = Ok (15, x, y) /\
        for_in (feature_body lay x y 15) (features lay) [] out = (Ok recs, log) /\
        out' = log ++ [InfoFeatureCount file_path (length recs)]) /\
  (forall (open_read : string -> res (list Byte.byte))
          (decode : list Byte.byte -> res tile)
          (directory file_name : string) (out out' : list diag)
          (recs : list station),
      occurs "/" file_name = false ->
      read_pbf open_read decode (directory +:+ "/" +:+ file_name) out
        = (Ok (Some recs), out') ->
      exists data layer_name lay rest x y log,
        open_read (directory +:+ "/" +:+ file_name) = Ok data /\
        decode data = Ok ((layer_name, lay) :: rest) /\
        tile_of_name file_name = Ok (15, x, y) /\
        for_in (feature_body lay x y 15) (features lay) [] out = (Ok recs, log) /\
        out' = log ++ [InfoFeatureCount (directory +:+ "/" +:+ file_name)
                                        (length recs)]).
Proof.
  assert (Hread : forall (open_read : string -> res (list Byte.byte))
            (decode : list Byte.byte -> res tile)
            (file_path : string) (out out' : list diag) (recs : list station),
      read_pbf open_read decode file_path out = (Ok (Some recs), out') ->
      exists data layer_name lay rest x y log,
        open_read file_path = Ok data /\
        decode data = Ok ((layer_name, lay) :: rest) /\
        tile_of_name (basename file_path) = Ok (15, x, y) /\
        for_in (feature_body lay x y 15) (features lay) [] out = (Ok recs, log) /\
        out' = log ++ [InfoFeatureCount file_path (length recs)]).
  { intros open_read decode file_path out out' recs. rewrite read_pbf_cases.
    destruct (open_read file_path) as [data|e] eqn:Ho; [|discriminate].
    destruct (decode data) as [[|[k lay] rest]|e] eqn:Hd;
      [discriminate| |discriminate].
    destruct (tile_of_name (basename file_path)) as [[[z x] y]|e] eqn:Hn;
      [|discriminate].
    pose proof Hn as Hz. apply tile_of_name_ok in Hz as [-> _].
    destruct (for_in (feature_body lay x y 15) (features lay) [] out)
      as [[feats|e] log] eqn:Hl; [|discriminate].
    intros [= <- <-]. exists data, k, lay, rest, x, y, log. done. }
  split; [exact tile_of_name_ok|]. split; [exact tile_of_name_shape|].
  split; [exact tile_of_name_numerals|].
  split; [exact tile_of_name_as_worded_agrees|].
  split; [|split; [exact Hread|]].
  - intros directory file_name Hslash. split; [|by apply basename_app].
    unfold basename. by rewrite (split_no_sep _ _ Hslash).
  - intros open_read decode directory file_name out out' recs Hslash Hrun.
    destruct (Hread _ _ _ _ _ _ Hrun)
      as (data & k & lay & rest & x & y & log & Ho & Hd & Hn & Hl & Hout).
    change ("/" +:+ file_name) with (String "/" file_name) in Hn.
    rewrite (basename_app directory file_name Hslash) in Hn.
    exists data, k, lay, rest, x, y, log. done.
Qed.

(** C8. Only the first layer of a decoded tile is used.  Two decoders
    whose tiles for a file start with the same layer, whatever its name
    and whatever layers follow, give the same result and the same log;
    the stations [read_pbf] returns are, in order, those of the kept
    features of the first layer; and it returns them, one for each kept
    feature of the first layer, whenever these features have a coordinate
    pair in range, whatever the other layers hold. *)
Theorem first_layer_only :
  forall (open_read : string -> res (list Byte.byte))
         (decode : list Byte.byte -> res tile)
         (file_path : string) (data : list Byte.byte)
         (layer_name : string) (lay : layer)
         (rest : list (string * layer)) (out : list diag),
    open_read file_path = Ok data ->
    decode data = Ok ((layer_name, lay) :: rest) ->
    (forall (decode' : list Byte.byte -> res tile) (layer_name' : string)
            (rest' : list (string * layer)),
        decode' data = Ok ((layer_name', lay) :: rest') ->
        read_pbf open_read decode file_path out =
        read_pbf open_read decode' file_path out) /\
    (forall (recs : list station) (out' : list diag),
        read_pbf open_read decode file_path out = (Ok (Some recs), out') ->
        exists x y,
          tile_of_name (basename file_path) = Ok (15, x, y) /\
          Forall2 (station_of lay x y 15) (List.filter kept (features lay)) recs) /\
    (forall x y : Z,
        tile_of_name (basename file_path) = Ok (15, x, y) ->
        (forall feat, In feat (features lay) -> kept feat = true ->
           exists cx cy, first_coordinate (f_geometry feat) = Some (cx, cy) /\
                         in_range (extent lay) x y 15 cx cy) ->
        exists recs out',
          read_pbf open_read decode file_path out = (Ok (Some recs), out') /\
          Forall2 (station_of lay x y 15) (List.filter kept (features lay)) recs).
Proof.
  intros open_read decode file_path data k lay rest out Ho Hd.
  split; [|split].
  - intros decode' k' rest' Hd'. by rewrite !read_pbf_cases, Ho, Hd, Hd'.
  - intros recs out'. rewrite read_pbf_cases, Ho, Hd.
    destruct (tile_of_name (basename file_path)) as [[[z x] y]|e] eqn:Hn;
      [|discriminate].
    pose proof Hn as Hz. apply tile_of_name_ok in Hz as [-> _].
    destruct (for_in (feature_body lay x y 15) (features lay) [] out)
      as [[feats|e] log] eqn:Hl; [|discriminate].
    intros [= <- <-]. exists x, y. split; [done|].
    apply for_features_ok in Hl as (new & -> & Hnew). exact Hnew.
  - intros x y Hn Hwf. rewrite read_pbf_cases, Ho, Hd, Hn.
    destruct (for_features_returns lay x y 15 (features lay) Hwf [] out)
      as (recs & out' & Hrun).
    rewrite Hrun. eexists _, _. split; [reflexivity|].
    apply for_features_ok in Hrun as (new & -> & Hnew). exact Hnew.
Qed.

(* ================================================================== *)
(** ** Aggregating a directory                                         *)
(* ================================================================== *)

Lemma length_flat_map_sum {A B} (f : A -> list B) (l : list A) :
  length (flat_map f l) = list_sum (map (fun a => length (f a)) l).
Proof.
  induction l as [|a l IH]; cbn; [done|]. by rewrite length_app, IH.
Qed.

Lemma filter_all {A} (f : A -> bool) (l : list A) :
  length (List.filter f l) = length l <-> forall a, In a l -> f a = true.
Proof.
  induction l as [|a l IH]; cbn.
  - split; [intros _ ? []|done].
  - pose proof (filter_length_le f l) as Hle.
    destruct (f a) eqn:Ha; cbn.
    + split.
      * intros [= H]. intros b [<-|Hb]; [done|]. by apply IH.
      * intros H. f_equal. apply IH. intros b Hb. apply H. by right.
    + split; [lia|]. intros H. specialize (H a (or_introl eq_refl)). congruence.
Qed.

(** C5, as the program has it.  On a directory that can be listed,
    [load_all_pbf_files] returns the stations of the files whose name ends
    with [.pbf], file after file in listing order: those [read_pbf]
    returned for the file, none for a file it returned [None] for; their
    number is the sum over these files.  The file-count diagnostic follows
    the diagnostics of the files and reports how many names ended with
    [.pbf], the files that failed to decode included; that is the number of
    files that decoded exactly when none of them failed. *)
Theorem aggregation_complete :
  forall (open_read : string -> res (list Byte.byte))
         (listdir : string -> res (list string))
         (decode : list Byte.byte -> res tile)
         (directory : string) (files : list string) (out : list diag),
    listdir directory = Ok files ->
    let considered := matching files in
    let all_data := flat_map (file_records open_read decode directory) considered in
    load_all_pbf_files open_read listdir decode directory out =
      (Ok all_data,
       out ++ flat_map (file_log open_read decode directory) considered
           ++ InfoFileCount (length considered)
           :: match all_data with [] => [WarnNoData] | _ => [] end) /\
    (forall file recs,
        fst (run (read_pbf open_read decode (path_join directory file)))
          = Ok (Some recs) ->
        file_records open_read decode directory file = recs) /\
    (forall file,
        fst (run (read_pbf open_read decode (path_join directory file)))
          = Ok None ->
        file_records open_read decode directory file = []) /\
    length all_data =
      list_sum (map (fun file => length (file_records open_read decode directory file))
                    considered) /\
    (length considered
       = length (List.filter (decodes open_read decode directory) considered)
     <-> forall file, In file considered ->
                      decodes open_read decode directory file = true).
Proof.
  intros open_read listdir decode directory files out Hls considered all_data.
  split; [by apply load_all_pbf_files_run|].
  split; [|split; [|split]].
  - intros file recs H. unfold file_records, file_result. by rewrite H.
  - intros file H. unfold file_records, file_result. by rewrite H.
  - apply length_flat_map_sum.
  - split.
    + intros H. by apply filter_all.
    + intros H. symmetry. by apply filter_all.
Qed.

Lemma matching_none (files : list string) :
  (forall file, In file files -> endswith file ".pbf" = false) ->
  matching files = [].
Proof.
  unfold matching. induction files as [|f fs IH]; intros Hnone; [done|].
  cbn. rewrite (Hnone f (or_introl eq_refl)). apply IH.
  intros g Hg. apply Hnone. by right.
Qed.

Lemma records_all_failed open_read decode directory (files : list string) :
  (forall file, In file files -> endswith file ".pbf" = true ->
     fst (run (read_pbf open_read decode (path_join directory file))) = Ok None) ->
  flat_map (file_records open_read decode directory) (matching files) = [].
Proof.
  unfold matching. induction files as [|f fs IH]; intros Hfail; [done|].
  assert (Hrest : flat_map (file_records open_read decode directory)
                    (List.filter (fun file => endswith file ".pbf") fs) = []).
  { apply IH. intros g Hg. apply Hfail. by right. }
  cbn [List.filter]. destruct (endswith f ".pbf") eqn:Hf; [|exact Hrest].
  cbn [flat_map]. rewrite Hrest. unfold file_records, file_result.
  by rewrite (Hfail f (or_introl eq_refl) Hf).
Qed.

(** C7. On a directory that can be listed and in which no name ends with
    [.pbf], or in which [read_pbf] returns [None] for every such name,
    [load_all_pbf_files] returns the empty collection; it does not raise. *)
Theorem empty_directory :
  forall (open_read : string -> res (list Byte.byte))
         (listdir : string -> res (list string))
         (decode : list Byte.byte -> res tile)
         (directory : string) (files : list string) (out : list diag),
    listdir directory = Ok files ->
    (forall file, In file files -> endswith file ".pbf" = false) \/
    (forall file, In file files -> endswith file ".pbf" = true ->
       fst (run (read_pbf open_read decode (path_join directory file))) = Ok None) ->
    exists log,
      load_all_pbf_files open_read listdir decode directory out = (Ok [], log).
Proof.
  intros open_read listdir decode directory files out Hls Hcase.
  rewrite (load_all_pbf_files_run open_read listdir decode directory files out Hls).
  assert (Hnil : flat_map (file_records open_read decode directory)
                   (matching files) = []).
  { destruct Hcase as [Hnone|Hfail].
    - by rewrite (matching_none files Hnone).
    - by apply records_all_failed. }
  rewrite Hnil. eauto.
Qed.

(* ================================================================== *)
(** ** Marker sizes                                                    *)
(* ================================================================== *)


(** C10. A collection with at least one record whose passenger counts are
    all equal, a single record for one, has [max - min = 0], and
    [marker_size] checks nothing before it divides by it.  With numpy's
    64-bit integers the quotient of zero by zero is nan: [create_map]
    still returns the map, one marker per record, and the radius of every
    marker is nan, no number at all.  With counts that need Python's own
    integers the division raises [ZeroDivisionError]. *)
Theorem marker_size_division_by_zero :
  (forall (dt : dtype) (c : Z),
      marker_size dt c c c =
        match dt with Object => Raise ZeroDivisionError | _ => Ok NaN end) /\
  (forall (data : list station) (center : R * R) (zoom : Z) (c : Z) (cs : list Z),
      map passengers data = map VInt (c :: cs) ->
      (forall p, In p cs -> p = c) ->
      series_max c cs - series_min c cs = 0 /\
      (- 2 ^ 63 <= c < 2 ^ 64 ->
       exists m,
         create_map data center zoom = Ok m /\
         length (markers m) = length data /\
         Forall (fun mk => radius mk = NaN) (markers m)) /\
      (~ - 2 ^ 63 <= c < 2 ^ 64 ->
       create_map data center zoom = Raise ZeroDivisionError)) /\
  (forall (r : station) (center : R * R) (zoom : Z) (c : Z),
      passengers r = VInt c -> - 2 ^ 63 <= c < 2 ^ 64 ->
      exists m,
        create_map [r] center zoom = Ok m /\
        map radius (markers m) = [NaN]).
Proof.
  assert (Hdtype : forall c cs,
             (forall p, In p cs -> p = c) ->
             (- 2 ^ 63 <= c < 2 ^ 64 <-> series_dtype (c :: cs) <> Object)).
  { intros c cs Hflat. rewrite (series_dtype_flat c cs Hflat).
    destruct (in_int64 c) eqn:E1.
    { apply in_int64_bounds in E1. split; [done|]. intros _. lia. }
    destruct (in_uint64 c) eqn:E2.
    { apply in_uint64_bounds in E2. split; [done|]. intros _. lia. }
    split; [|done]. intros Hc. exfalso.
    assert (N1 : ~ - 2 ^ 63 <= c < 2 ^ 63).
    { intros H. apply in_int64_bounds in H. congruence. }
    assert (N2 : ~ 0 <= c < 2 ^ 64).
    { intros H. apply in_uint64_bounds in H. congruence. }
    lia. }
  split; [exact marker_size_flat|]. split.
  - intros data center zoom c cs Hc Hflat.
    destruct (series_flat c cs Hflat) as [Hmin Hmax].
    split; [lia|]. split.
    + intros Hrange. apply (Hdtype c cs Hflat) in Hrange.
      destruct (create_map_flat data center zoom c cs Hc Hflat Hrange)
        as (ms & Hm & Hr).
      eexists. split; [exact Hm|]. cbn [markers]. split.
      * rewrite <- (length_map radius ms), Hr, length_map.
        rewrite <- (length_map passengers data), Hc. by rewrite length_map.
      * apply Forall_forall. intros mk Hmk. apply list_elem_of_In in Hmk.
        apply (in_map radius) in Hmk. rewrite Hr in Hmk.
        apply in_map_iff in Hmk as (p & Hp & _). by symmetry.
    + intros Hrange.
      assert (Hdt : series_dtype (c :: cs) = Object).
      { destruct (series_dtype (c :: cs)) eqn:E; [| |done];
          exfalso; apply Hrange, (Hdtype c cs Hflat); by rewrite E. }
      rewrite (create_map_counts data center zoom c cs Hc), Hmin, Hmax, Hdt.
      by rewrite (add_markers_zero data c cs Hc).
  - intros r center zoom c Hr Hrange.
    assert (Hflat : forall p, In p [] -> p = c) by (intros p []).
    apply (Hdtype c [] Hflat) in Hrange.
    destruct (create_map_flat [r] center zoom c []) as (ms & Hm & Hrad);
      [cbn; by rewrite Hr|done..|].
    eexists. split; [exact Hm|exact Hrad].
Qed.

(* ================================================================== *)
(** ** The theorems at work on the sample data                         *)
(* ================================================================== *)

(** The station of Tokyo: local coordinate (1, 2) in tile (29102, 12903). *)
Lemma transform_correct_witness :
  exists r,
    feature_body Sample.stations 29102 12903 (Z.of_nat 15) Sample.tokyo [] []
      = (Ok ([] ++ [r]), []) /\
    location r =
      (Finite ((IZR 29102 + IZR 1 / IZR (extent Sample.stations)) / 2 ^ 15 * 360
               - 180),
       Finite (atan (sinh (PI * (1 - 2 * (IZR 12903
                                          + IZR 2 / IZR (extent Sample.stations))
                                       / 2 ^ 15)))
               * 180 / PI))%R.
Proof.
  destruct transform_correct as (_ & H & Hgrid & _).
  destruct (H Sample.stations 29102 12903 15%nat Sample.tokyo [] []
              (VStr "Tokyo") (PList [PInt 1; PInt 2]) 1 2) as [Hin _];
    try reflexivity; try (unfold moderate; lia).
  apply Hin. apply (Hgrid 4096 29102 12903 15 1 2); lia.
Defined.

(** C1 as the specification words it does not hold: at zoom 15, tile
    (0, 0), extent 1, the local coordinate (0, 4000000) of a named point
    makes [math.sinh] overflow; the loop body raises and [read_pbf]
    returns [None] for the file. *)
Lemma transform_overflow_counterexample :
  0 < extent Sample.unit_layer /\
  props Sample.far_south !! "S12_001_ja" = Some (VStr "Far south") /\
  first_coordinate (f_geometry Sample.far_south) = Some (0, 4000000) /\
  feature_body Sample.unit_layer 0 0 15 Sample.far_south [] []
    = (Raise OverflowError, []) /\
  read_pbf Far.open_read Far.decode "mesh/mesh_0_0.pbf" []
    = (Ok None, [ErrorFile "mesh/mesh_0_0.pbf" OverflowError]).
Proof.
  split; [reflexivity|]. split; [reflexivity|]. split; [reflexivity|].
  split; [apply far_south_overflows|apply far_read].
Qed.

(** A polygon is kept with the first point of its ring; a multipolygon is
    skipped with a warning and the loop goes on. *)
Lemma geometry_policy_witness :
  (exists r,
      feature_body Sample.stations 29102 12903 15 Sample.shinjuku [] []
        = (Ok ([] ++ [r]), []) /\
      location r =
        finite_pair (tile_to_latlon (IZR 29102 + IZR 7 / IZR 4096)
                                    (IZR 12903 + IZR 8 / IZR 4096) 15)) /\
  feature_body Sample.stations 29102 12903 15 Sample.shibuya [] []
    = (Ok [], [] ++ [WarnUnsupportedGeometry "MultiPolygon"]) /\
  for_in (feature_body Sample.stations 29102 12903 15)
         [Sample.shibuya; Sample.ueno] [] []
    = for_in (feature_body Sample.stations 29102 12903 15) [Sample.ueno] []
             ([] ++ [WarnUnsupportedGeometry "MultiPolygon"]).
Proof.
  destruct geometry_policy as (_ & _ & _ & _ & Hkeep & Hskip). split.
  - apply (Hkeep Sample.stations 29102 12903 15 Sample.shinjuku [] []
             (VStr "Shinjuku") 7 8 []); [reflexivity|reflexivity|].
    apply sample_in_range; lia.
  - apply (Hskip Sample.stations 29102 12903 15 Sample.shibuya [Sample.ueno] [] []);
      [by eexists|discriminate..].
Defined.

(** The layer [stations]: five features, three stations. *)
Lemma station_filter_witness :
  (Forall2 (fun feat r =>
              props feat !! "S12_001_ja" = Some (name r) /\
              (forall v, props feat !! "S12_009" = Some v -> passengers r = v) /\
              (props feat !! "S12_009" = None -> passengers r = VInt 0))
           (List.filter kept (features Sample.stations))
           Sample.extracted /\
   (length Sample.extracted <= length (features Sample.stations))%nat) /\
  exists recs out',
    for_in (feature_body Sample.stations 29102 12903 15)
           (features Sample.stations) [] [] = (Ok recs, out') /\
    length recs = length (List.filter kept (features Sample.stations)).
Proof.
  destruct station_filter as (_ & Hloop & Hret). split.
  - apply (Hloop Sample.stations 29102 12903 15 Sample.extracted []
             ([] ++ [WarnUnsupportedGeometry "MultiPolygon"])).
    apply sample_loop.
  - apply (Hret Sample.stations 29102 12903 15 []).
    intros feat [<-|[<-|[<-|[<-|[<-|[]]]]]] Hk; try discriminate Hk.
    + exists 1, 2. split; [reflexivity|apply sample_in_range; lia].
    + exists 3, 4. split; [reflexivity|apply sample_in_range; lia].
    + exists 7, 8. split; [reflexivity|apply sample_in_range; lia].
Defined.

(** Bytes that do not parse, an empty tile, a name without coordinate and
    a file that cannot be opened. *)
Lemma read_pbf_never_raises_witness :
  read_pbf Sample.open_read Sample.decode "mesh/mesh_29103_12903.pbf" []
    = (Ok None, [] ++ [ErrorFile "mesh/mesh_29103_12903.pbf" DecodeError]) /\
  read_pbf Sample.open_read Sample.decode "mesh/notes.txt" []
    = (Ok None, [] ++ [WarnEmptyFile "mesh/notes.txt"]) /\
  (exists e,
      tile_of_name (basename "mesh/broken.pbf") = Raise e /\
      read_pbf Sample.open_read Sample.decode "mesh/broken.pbf" []
        = (Ok None, [] ++ [ErrorFile "mesh/broken.pbf" e])) /\
  read_pbf Sample.open_read Sample.decode "mesh/missing_1_2.pbf" []
    = (Ok None, [] ++ [ErrorFile "mesh/missing_1_2.pbf" OSError]).
Proof.
  split; [|split; [|split]].
  - destruct (read_pbf_never_raises Sample.open_read Sample.decode
                "mesh/mesh_29103_12903.pbf" []) as (_ & H & _).
    apply (H [Byte.xff] DecodeError); reflexivity.
  - destruct (read_pbf_never_raises Sample.open_read Sample.decode
                "mesh/notes.txt" []) as (_ & _ & H & _).
    apply (H [Byte.x00]); reflexivity.
  - destruct (read_pbf_never_raises Sample.open_read Sample.decode
                "mesh/broken.pbf" []) as (_ & _ & _ & H & _).
    apply (H [Byte.x01] "stations" Sample.stations []); [reflexivity..|].
    intros Hm. apply tile_of_name_matches in Hm as (x & y & Hm).
    vm_compute in Hm. discriminate Hm.
  - destruct (read_pbf_never_raises Sample.open_read Sample.decode
                "mesh/missing_1_2.pbf" []) as (_ & _ & _ & _ & H & _).
    apply (H OSError). reflexivity.
Defined.

(** The file [mesh_29102_12903.pbf] in the directory [mesh]. *)
Lemma tile_coordinate_from_name_witness :
  tile_of_name "mesh_29102_12903.pbf" = Ok (15, 29102, 12903) /\
  tile_of_name ("station_users" +:+ "_" +:+ str 29103 +:+ "_" +:+ str 12904
                +:+ "." +:+ "pbf") = Ok (15, 29103, 12904) /\
  tile_of_name_as_worded "mesh_29102_12903.pbf"
    = tile_of_name "mesh_29102_12903.pbf" /\
  basename ("mesh" +:+ "/" +:+ "mesh_29102_12903.pbf") = "mesh_29102_12903.pbf" /\
  exists data layer_name lay rest x y log,
    Sample.open_read ("mesh" +:+ "/" +:+ "mesh_29102_12903.pbf") = Ok data /\
    Sample.decode data = Ok ((layer_name, lay) :: rest) /\
    tile_of_name "mesh_29102_12903.pbf" = Ok (15, x, y) /\
    for_in (feature_body lay x y 15) (features lay) [] []
      = (Ok Sample.extracted, log) /\
    [] ++ [WarnUnsupportedGeometry "MultiPolygon";
           InfoFeatureCount "mesh/mesh_29102_12903.pbf" 3]
      = log ++ [InfoFeatureCount ("mesh" +:+ "/" +:+ "mesh_29102_12903.pbf")
                                 (length Sample.extracted)].
Proof.
  destruct tile_coordinate_from_name
    as (_ & Hshape & Hnum & Hworded & Hbase & _ & Hread).
  split; [|split; [|split; [|split]]].
  - apply (Hshape "mesh" "29102" "12903" "pbf"); reflexivity.
  - apply (Hnum "station_users" "pbf" 29103 12904); [reflexivity|..];
      apply Nat.leb_le; vm_compute; reflexivity.
  - apply (Hworded "mesh_29102_12903.pbf" ["mesh"] "29102" "12903.pbf");
      [reflexivity|]. apply Nat.leb_le. vm_compute. reflexivity.
  - apply (proj2 (Hbase "mesh" "mesh_29102_12903.pbf" eq_refl)).
  - apply (Hread Sample.open_read Sample.decode "mesh" "mesh_29102_12903.pbf" []);
      [reflexivity|]. exact (sample_read []).
Defined.

(** C6 as the specification words it does not hold: in the name
    [mesh_1_2.5.pbf] the last part without its trailing extension is
    [2.5], which is no integer, and the program reads the tile (1, 2). *)
Lemma tile_coordinate_counterexample :
  tile_of_name "mesh_1_2.5.pbf" = Ok (15, 1, 2) /\
  strip_extension "2.5.pbf" = "2.5" /\
  int "2.5" = Raise ValueError /\
  tile_of_name_as_worded "mesh_1_2.5.pbf" = Raise ValueError.
Proof. repeat split; reflexivity. Qed.

(** A tile with two layers reads as the tile with its first layer alone:
    the three stations of the layer [stations], none of the layer
    [roads]. *)
Lemma first_layer_only_witness :
  read_pbf Sample.open_read Sample.decode "mesh/mesh_29102_12903.pbf" [] =
  read_pbf Sample.open_read Sample.decode_single "mesh/mesh_29102_12903.pbf" [] /\
  (exists x y,
      tile_of_name (basename "mesh/mesh_29102_12903.pbf") = Ok (15, x, y) /\
      Forall2 (station_of Sample.stations x y 15)
              (List.filter kept (features Sample.stations)) Sample.extracted) /\
  (exists recs out',
      read_pbf Sample.open_read Sample.decode "mesh/mesh_29102_12903.pbf" []
        = (Ok (Some recs), out') /\
      Forall2 (station_of Sample.stations 29102 12903 15)
              (List.filter kept (features Sample.stations)) recs).
Proof.
  destruct (first_layer_only Sample.open_read Sample.decode
              "mesh/mesh_29102_12903.pbf" [Byte.x02] "stations"
              Sample.stations [("roads", Sample.roads)] [] eq_refl eq_refl)
    as (Hsame & Hfirst & Hreads).
  split; [|split].
  - apply (Hsame Sample.decode_single "only" []). reflexivity.
  - apply (Hfirst Sample.extracted _ (sample_read [])).
  - apply (Hreads 29102 12903 eq_refl).
    intros feat [<-|[<-|[<-|[<-|[<-|[]]]]]] Hk; try discriminate Hk.
    + exists 1, 2. split; [reflexivity|apply sample_in_range; lia].
    + exists 3, 4. split; [reflexivity|apply sample_in_range; lia].
    + exists 7, 8. split; [reflexivity|apply sample_in_range; lia].
Defined.

(** A directory without tile files and one whose tile files all fail. *)
Lemma empty_directory_witness :
  (exists log,
      load_all_pbf_files Sample.open_read Sample.listdir Sample.decode "docs" []
        = (Ok [], log)) /\
  (exists log,
      load_all_pbf_files Sample.open_read Sample.listdir Sample.decode "bad" []
        = (Ok [], log)).
Proof.
  split.
  - apply (empty_directory Sample.open_read Sample.listdir Sample.decode
             "docs" ["notes.txt"; "README"] []); [reflexivity|].
    left. intros file [<-|[<-|[]]]; reflexivity.
  - apply (empty_directory Sample.open_read Sample.listdir Sample.decode
             "bad" ["broken.pbf"; "empty_1_2.pbf"] []); [reflexivity|].
    right. intros file [<-|[<-|[]]] _; reflexivity.
Defined.



(** Two stations with 7 passengers each, and one station alone. *)
Lemma marker_size_division_by_zero_witness :
  (series_max 7 [7] - series_min 7 [7] = 0 /\
   exists m,
     create_map [Sample.station_with 7; Sample.station_with 7]
                (35.6852, 139.7528)%R 11 = Ok m /\
     length (markers m) = 2%nat /\
     Forall (fun mk => radius mk = NaN) (markers m)) /\
  (exists m,
      create_map [Sample.station_with 7] (35.6852, 139.7528)%R 11 = Ok m /\
      map radius (markers m) = [NaN]).
Proof.
  destruct marker_size_division_by_zero as (_ & Hall & Hone). split.
  - destruct (Hall [Sample.station_with 7; Sample.station_with 7]
                (35.6852, 139.7528)%R 11 7 [7]) as (Hzero & Hnan & _).
    + reflexivity.
    + intros p [<-|[]]. reflexivity.
    + split; [exact Hzero|]. apply Hnan. lia.
  - apply (Hone (Sample.station_with 7) (35.6852, 139.7528)%R 11 7);
      [reflexivity|lia].
Defined.

(** The directory [mesh]: three names end with [.pbf], one file decodes. *)
Lemma aggregation_complete_witness :
  load_all_pbf_files Sample.open_read Sample.listdir Sample.decode "mesh" []
    = (Ok Sample.extracted,
       [WarnUnsupportedGeometry "MultiPolygon";
        InfoFeatureCount "mesh/mesh_29102_12903.pbf" 3;
        ErrorFile "mesh/mesh_29103_12903.pbf" DecodeError;
        ErrorFile "mesh/broken.pbf" IndexError;
        InfoFileCount 3]).
Proof.
  destruct (aggregation_complete Sample.open_read Sample.listdir Sample.decode
              "mesh" ["mesh_29102_12903.pbf"; "notes.txt";
                      "mesh_29103_12903.pbf"; "broken.pbf"] [] eq_refl)
    as (H & _).
  cbv zeta in H. rewrite mesh_records, mesh_log in H. exact H.
Defined.

(** C5 as the specification words it does not hold: in the directory
    [mesh] one matching file is valid and the file-count diagnostic reports
    three. *)
Lemma aggregation_count_counterexample :
  length (List.filter (decodes Sample.open_read Sample.decode "mesh")
            (matching ["mesh_29102_12903.pbf"; "notes.txt";
                       "mesh_29103_12903.pbf"; "broken.pbf"])) = 1%nat /\
  (exists recs log,
      run (load_all_pbf_files Sample.open_read Sample.listdir Sample.decode "mesh")
        = (Ok recs, log) /\
      In (InfoFileCount 3) log /\ ~ In (InfoFileCount 1) log) /\
  ~ count_reports_valid Sample.open_read Sample.decode Sample.listdir "mesh".
Proof.
  assert (Hrun :
    run (load_all_pbf_files Sample.open_read Sample.listdir Sample.decode "mesh")
    = (Ok Sample.extracted,
       [WarnUnsupportedGeometry "MultiPolygon";
        InfoFeatureCount "mesh/mesh_29102_12903.pbf" 3;
        ErrorFile "mesh/mesh_29103_12903.pbf" DecodeError;
        ErrorFile "mesh/broken.pbf" IndexError;
        InfoFileCount 3])).
  { unfold run.
    rewrite (load_all_pbf_files_run Sample.open_read Sample.listdir Sample.decode
               "mesh" ["mesh_29102_12903.pbf"; "notes.txt";
                       "mesh_29103_12903.pbf"; "broken.pbf"] [] eq_refl).
    cbv zeta. rewrite mesh_records, mesh_log. reflexivity. }
  assert (Hvalid :
    length (List.filter (decodes Sample.open_read Sample.decode "mesh")
              (matching ["mesh_29102_12903.pbf"; "notes.txt";
                         "mesh_29103_12903.pbf"; "broken.pbf"])) = 1%nat)
    by (by rewrite mesh_valid).
  split; [exact Hvalid|]. split.
  - eexists _, _. split; [exact Hrun|]. split.
    + simpl. auto 10.
    + simpl. intros [H|[H|[H|[H|[H|[]]]]]]; discriminate H.
  - intros Hclaim. specialize (Hclaim _ _ _ eq_refl Hrun).
    rewrite Hvalid in Hclaim. simpl in Hclaim.
    destruct Hclaim as [H|[H|[H|[H|[H|[]]]]]]; discriminate H.
Qed.


(* ================================================================== *)
(** ** More on the coordinate transform                                *)
(* ================================================================== *)

Section TransformFacts.

Local Open Scope R_scope.

(** X1. Whatever the tile position and the zoom, the latitude the transform
    returns lies strictly between -90 and 90 degrees. *)
Theorem latitude_in_range (x y : R) (z : Z) :
  -90 < snd (tile_to_latlon x y z) < 90.
Proof. unfold tile_to_latlon. cbn [snd]. apply degrees_atan_bound. Qed.

(** X2. With floats idealised as reals, the longitude the transform
    returns grows strictly with the tile position [x]; over the width of
    the world, [0 <= x <= 2^z], it runs from -180 to 180, and one more turn
    of the world, [x + 2^z], adds 360 degrees: the transform does not wrap
    longitudes. *)
Theorem longitude_range (y : R) (z : Z) :
  (forall x1 x2, x1 < x2 ->
     fst (tile_to_latlon x1 y z) < fst (tile_to_latlon x2 y z)) /\
  (forall x, 0 <= x <= powerRZ 2 z ->
     -180 <= fst (tile_to_latlon x y z) <= 180) /\
  (forall x, fst (tile_to_latlon (x + powerRZ 2 z) y z)
             = fst (tile_to_latlon x y z) + 360).
Proof.
  pose proof (pow2Z_pos z) as Hn. unfold tile_to_latlon. cbn [fst].
  set (n := powerRZ 2 z) in *.
  assert (Hi : 0 < / n) by (by apply Rinv_0_lt_compat).
  split; [|split].
  - intros x1 x2 H. unfold Rdiv. nra.
  - intros x [H0 H1].
    assert (0 <= x / n) by (unfold Rdiv; nra).
    assert (x / n <= 1).
    { apply Rmult_le_reg_r with n; [exact Hn|].
      unfold Rdiv. rewrite Rmult_assoc, Rinv_l; lra. }
    split; lra.
  - intros x. field. lra.
Qed.

(** X3. With floats idealised as reals, the latitude the transform
    returns falls strictly as the tile position [y] grows: rows further
    down the tile grid lie further south. *)
Theorem latitude_decreasing (x1 x2 y1 y2 : R) (z : Z) :
  y1 < y2 ->
  snd (tile_to_latlon x2 y2 z) < snd (tile_to_latlon x1 y1 z).
Proof.
  intros H. pose proof (pow2Z_pos z) as Hn. unfold tile_to_latlon. cbn [snd].
  set (n := powerRZ 2 z) in *.
  apply degrees_lt, atan_increasing, sinh_lt.
  apply Rmult_lt_compat_l; [apply PI_RGT_0|].
  assert (Hi : 0 < / n) by (by apply Rinv_0_lt_compat).
  unfold Rdiv. nra.
Qed.

(** X4. The transform is symmetric about the equator: the row [2^z - y]
    has the opposite latitude of the row [y], and the middle row,
    [y = 2^z / 2], has latitude 0. *)
Theorem latitude_symmetric (x x' y : R) (z : Z) :
  snd (tile_to_latlon x (powerRZ 2 z - y) z) = - snd (tile_to_latlon x' y z) /\
  snd (tile_to_latlon x (powerRZ 2 z / 2) z) = 0.
Proof.
  pose proof (pow2Z_pos z) as Hn. unfold tile_to_latlon. cbn [snd].
  set (n := powerRZ 2 z) in *. split.
  - replace (PI * (1 - 2 * (n - y) / n)) with (- (PI * (1 - 2 * y / n)))
      by (field; lra).
    by rewrite sinh_opp, atan_opp, degrees_opp.
  - replace (PI * (1 - 2 * (n / 2) / n)) with 0 by (field; lra).
    rewrite sinh_0, atan_0. unfold degrees. ring.
Qed.

(** X6. Zoom levels nest: the position [(2x, 2y)] at zoom [z + 1] is the
    position [(x, y)] at zoom [z]. *)
Theorem zoom_levels_nest (x y : R) (z : Z) :
  tile_to_latlon (2 * x) (2 * y) (z + 1) = tile_to_latlon x y z.
Proof.
  pose proof (pow2Z_pos z) as Hn. unfold tile_to_latlon.
  rewrite powerRZ_add by lra.
  change (powerRZ 2 1) with (2 * 1). set (n := powerRZ 2 z) in *.
  f_equal; [field; lra|]. do 3 f_equal. field. lra.
Qed.

(** X22. Inside the tile grid, [0 <= y <= 2^z], the latitude stays within
    the Mercator limit: it lies strictly between -85.05114 and 85.05114
    degrees at every zoom, and the top row of the grid, [y = 0], lies
    above 85.05112 degrees. *)
Theorem latitude_within_mercator (x y : R) (z : Z) :
  0 <= y <= powerRZ 2 z ->
  -8505114 / 100000 < snd (tile_to_latlon x y z) < 8505114 / 100000 /\
  8505112 / 100000 < snd (tile_to_latlon x 0 z).
Proof.
  intros [H0 H1]. pose proof (pow2Z_pos z) as Hn.
  pose proof mercator_edge_bounds as [Hlo Hhi].
  pose proof PI_RGT_0 as Hpi.
  unfold tile_to_latlon. cbn [snd]. set (n := powerRZ 2 z) in *.
  assert (Hi : 0 < / n) by (by apply Rinv_0_lt_compat).
  assert (Hy0 : 0 <= y / n) by (unfold Rdiv; nra).
  assert (Hy1 : y / n <= 1).
  { apply Rmult_le_reg_r with n; [exact Hn|].
    unfold Rdiv. rewrite Rmult_assoc, Rinv_l; lra. }
  set (t := PI * (1 - 2 * y / n)).
  assert (Ht : - PI <= t <= PI).
  { unfold t. replace (2 * y / n) with (2 * (y / n)) by (field; lra).
    split; nra. }
  assert (Hmono : forall a b, a <= b ->
                    degrees (atan (sinh a)) <= degrees (atan (sinh b))).
  { intros a b [Hab| ->]; [|lra].
    left. by apply degrees_lt, atan_increasing, sinh_lt. }
  split; [split|].
  - apply Rlt_le_trans with (degrees (atan (sinh (- PI)))); [|apply Hmono; lra].
    rewrite sinh_opp, atan_opp, degrees_opp. lra.
  - apply Rle_lt_trans with (degrees (atan (sinh PI))); [apply Hmono; lra|lra].
  - replace (PI * (1 - 2 * 0 / n)) with PI by (field; lra). exact Hlo.
Qed.

(** X23. [tile_to_latlon] as it runs on doubles: for a zoom between 0 and
    1023 and a position of magnitude up to [2^1000] it returns the exact
    value of its formulas (floats idealised as reals) when the hyperbolic
    sine stays within the range of doubles, and it raises [OverflowError]
    when it does not. *)
Theorem transform_runs (x y : R) (z : Z) :
  (0 <= z <= 1023)%Z -> Rabs x <= IZR (2 ^ 1000) -> Rabs y <= IZR (2 ^ 1000) ->
  (sinh_in_range y z ->
   tile_to_latlon_float (Finite x) (Finite y) z
     = Ok (finite_pair (tile_to_latlon x y z))) /\
  (~ sinh_in_range y z ->
   tile_to_latlon_float (Finite x) (Finite y) z = Raise OverflowError).
Proof.
  intros Hz Hx Hy.
  assert (H2 : IZR (2 ^ 1000) = 2 * IZR (2 ^ 999)).
  { rewrite <- mult_IZR. f_equal. }
  rewrite H2 in Hx, Hy.
  rewrite (tile_to_latlon_float_run x y z Hz Hx Hy).
  unfold sinh_in_range. by destruct (Rle_dec _ DBL_MAX).
Qed.

(** X24. A zoom beyond the range of doubles makes [tile_to_latlon] raise,
    whatever the position: [2.0 ** z] raises [OverflowError] from zoom 1024
    on, and from zoom -1075 down the power is zero and the division by it
    raises [ZeroDivisionError], until the zoom itself is too large an
    integer to convert. *)
Theorem zoom_out_of_range (x y : float) (z : Z) :
  ((1024 <= z)%Z -> tile_to_latlon_float x y z = Raise OverflowError) /\
  ((- int_overflow < z <= -1075)%Z ->
   tile_to_latlon_float x y z = Raise ZeroDivisionError) /\
  ((z <= - int_overflow)%Z -> tile_to_latlon_float x y z = Raise OverflowError).
Proof.
  pose proof int_overflow_large as Hl.
  unfold tile_to_latlon_float, pow2, float_of_int.
  split; [|split]; intros Hz.
  - destruct (Z.ltb_spec (Z.abs z) int_overflow); [|done]. cbn.
    by destruct (Z.leb_spec 1024 z); [|lia].
  - destruct (Z.ltb_spec (Z.abs z) int_overflow); [|lia]. cbn.
    destruct (Z.leb_spec 1024 z); [lia|].
    destruct (Z.leb_spec z (-1075)); [|lia]. cbn.
    destruct x; cbn; by destruct (Req_dec_T 0 0).
  - by destruct (Z.ltb_spec (Z.abs z) int_overflow); [lia|].
Qed.

End TransformFacts.


(* ================================================================== *)
(** ** More on decoding one file                                       *)
(* ================================================================== *)

Lemma kept_named feat :
  kept feat = true -> exists nm, props feat !! "S12_001_ja" = Some nm.
Proof.
  unfold kept. intros [Hn _]%andb_prop.
  apply bool_decide_eq_true_1 in Hn as [nm Hnm]. eauto.
Qed.

Lemma first_coordinate_none geom :
  supported (gtype geom) = true -> first_coordinate geom = None ->
  (exists e, select_coords geom = Raise e) \/
  (exists coords,
      select_coords geom = Ok (Some coords) /\
      ((exists e, subscript coords 0 = Raise e) \/
       (exists l, subscript coords 0 = Ok (PList l)) \/
       (exists n, subscript coords 0 = Ok (PInt n) /\
                  ((exists e, subscript coords 1 = Raise e) \/
                   (exists l, subscript coords 1 = Ok (PList l)))))).
Proof.
  intros Hs. unfold first_coordinate.
  destruct (select_coords geom) as [[coords|]|e] eqn:Hsel.
  - intros H. right. exists coords. split; [done|].
    destruct (subscript coords 0) as [[n|l]|e0]; [|eauto|eauto].
    right. right. exists n. split; [done|].
    destruct (subscript coords 1) as [[m|l]|e1]; [discriminate|eauto|eauto].
  - apply select_coords_none in Hsel. congruence.
  - eauto.
Qed.

(** The loop body raises on a kept feature it cannot read a coordinate
    pair from, and on any kept feature when the extent is zero. *)
Lemma feature_body_raises lay x y z feat acc out :
  kept feat = true ->
  first_coordinate (f_geometry feat) = None \/ extent lay = 0 ->
  exists e, feature_body lay x y z feat acc out = (Raise e, out).
Proof.
  intros Hk Hbad. destruct (kept_named feat Hk) as [nm Hnm].
  pose proof Hk as Hs. unfold kept in Hs. apply andb_prop in Hs as [_ Hs].
  unfold feature_body. fold (props feat). rewrite Hnm.
  rewrite bind_unfold. cbn [lift].
  destruct (first_coordinate (f_geometry feat)) as [[cx cy]|] eqn:Hfc.
  - destruct Hbad as [|Hext]; [discriminate|].
    apply first_coordinate_some in Hfc as (coords & Hsel & H0 & H1).
    rewrite Hsel, bind_unfold. cbn [lift]. rewrite H0, bind_unfold.
    cbn [lift]. rewrite Hext.
    destruct (position_zero_extent x (PInt cx)) as [e ->]. eauto.
  - destruct (first_coordinate_none _ Hs Hfc)
      as [[e He]|(coords & Hsel & Hc)].
    + rewrite He. eauto.
    + rewrite Hsel, bind_unfold. cbn [lift].
      destruct Hc as [[e He]|[[l Hl]|(n & Hn & Hc)]].
      * rewrite He. eauto.
      * rewrite Hl, bind_unfold. cbn [lift]. rewrite position_list. eauto.
      * rewrite Hn, bind_unfold. cbn [lift].
        destruct (position x (PInt n) (extent lay)) as [px|e]; [|eauto].
        rewrite bind_unfold. cbn [lift].
        destruct Hc as [[e He]|[l Hl]].
        -- rewrite He. eauto.
        -- rewrite Hl, bind_unfold. cbn [lift]. rewrite position_list. eauto.
Qed.

Lemma for_features_raises lay x y z feat feats :
  In feat feats -> kept feat = true ->
  first_coordinate (f_geometry feat) = None \/ extent lay = 0 ->
  forall acc out,
    exists e out', for_in (feature_body lay x y z) feats acc out = (Raise e, out').
Proof.
  intros Hin Hk Hbad. induction feats as [|f feats IH]; [destruct Hin|].
  intros acc out. cbn [for_in]. rewrite bind_unfold.
  destruct Hin as [->|Hin].
  - destruct (feature_body_raises lay x y z feat acc out Hk Hbad) as [e ->].
    eauto.
  - destruct (feature_body lay x y z f acc out) as [[acc'|e] out']; [|eauto].
    by apply IH.
Qed.

(** X7. One kept feature that cannot be read spoils its file: when a
    feature with a station name and a supported geometry type has no
    coordinate pair to read (an empty line, a ring without points, a
    coordinate that is not a number), or when the extent of the layer is
    zero, [read_pbf] returns [None] with the error in the log, so the
    stations of all other features of the file are lost. *)
Theorem read_pbf_all_or_nothing :
  forall (open_read : string -> res (list Byte.byte))
         (decode : list Byte.byte -> res tile)
         (file_path : string) (out : list diag) (data : list Byte.byte)
         (layer_name : string) (lay : layer) (rest : list (string * layer))
         (feat : feature),
    open_read file_path = Ok data ->
    decode data = Ok ((layer_name, lay) :: rest) ->
    In feat (features lay) ->
    kept feat = true ->
    first_coordinate (f_geometry feat) = None \/ extent lay = 0 ->
    exists e log,
      read_pbf open_read decode file_path out
        = (Ok None, log ++ [ErrorFile file_path e]).
Proof.
  intros open_read decode file_path out data k lay rest feat Ho Hd Hin Hk Hbad.
  rewrite read_pbf_cases, Ho, Hd.
  destruct (tile_of_name (basename file_path)) as [[[z x] y]|e]; [|eauto].
  destruct (for_features_raises lay x y z feat (features lay) Hin Hk Hbad [] out)
    as (e & out' & ->).
  eauto.
Qed.

Lemma feature_body_log lay x y z feat acc out acc' out' :
  feature_body lay x y z feat acc out = (Ok acc', out') ->
  out' = out ++ warnings [feat].
Proof.
  intros H. unfold warnings, skipped. cbn [List.filter].
  destruct (props feat !! "S12_001_ja") as [nm|] eqn:Hnm.
  - rewrite bool_decide_eq_true_2 by eauto. cbn [andb].
    destruct (supported (gtype (f_geometry feat))) eqn:Hs; cbn.
    + apply feature_body_ok in H as [(Hk & _)|(_ & -> & _)];
        [|by rewrite app_nil_r].
      unfold kept in Hk. rewrite Hnm, Hs in Hk.
      rewrite bool_decide_eq_true_2 in Hk by eauto. discriminate.
    + rewrite feature_body_unsupported in H by eauto. by injection H.
  - rewrite feature_body_drop in H by done. injection H as _ <-.
    rewrite bool_decide_eq_false_2 by (by intros [? ?]).
    cbn. by rewrite app_nil_r.
Qed.

Lemma warnings_cons feat feats :
  warnings (feat :: feats) = warnings [feat] ++ warnings feats.
Proof.
  unfold warnings. cbn [List.filter]. by destruct (skipped feat).
Qed.

Lemma for_features_log lay x y z feats :
  forall acc out recs out',
    for_in (feature_body lay x y z) feats acc out = (Ok recs, out') ->
    out' = out ++ warnings feats /\
    length recs = (length acc + length (List.filter kept feats))%nat.
Proof.
  induction feats as [|feat feats IH]; intros acc out recs out'; cbn [for_in].
  - intros [= <- <-]. cbn. by rewrite app_nil_r, Nat.add_0_r.
  - rewrite bind_unfold.
    destruct (feature_body lay x y z feat acc out) as [[acc1|e] out1] eqn:Hb;
      [|discriminate].
    intros Hrest. apply IH in Hrest as [-> Hlen].
    pose proof (feature_body_log _ _ _ _ _ _ _ _ _ Hb) as ->.
    rewrite (warnings_cons feat feats), <- List.app_assoc. split; [done|].
    rewrite Hlen. cbn [List.filter].
    apply feature_body_ok in Hb as [(Hk & -> & _)|(Hk & _ & r & -> & _)];
      rewrite Hk; [done|].
    rewrite length_app. cbn. lia.
Qed.

(** X8. What a successful [read_pbf] prints: one warning for each named
    feature with an unsupported geometry type, in the order of the
    features, and then the number of stations, which is the number of
    named features with a supported geometry type. *)
Theorem read_pbf_log :
  forall (open_read : string -> res (list Byte.byte))
         (decode : list Byte.byte -> res tile)
         (file_path : string) (out out' : list diag) (recs : list station)
         (data : list Byte.byte) (layer_name : string) (lay : layer)
         (rest : list (string * layer)),
    open_read file_path = Ok data ->
    decode data = Ok ((layer_name, lay) :: rest) ->
    read_pbf open_read decode file_path out = (Ok (Some recs), out') ->
    out' = out ++ warnings (features lay)
               ++ [InfoFeatureCount file_path (length recs)] /\
    length recs = length (List.filter kept (features lay)).
Proof.
  intros open_read decode file_path out out' recs data k lay rest Ho Hd.
  rewrite read_pbf_cases, Ho, Hd.
  destruct (tile_of_name (basename file_path)) as [[[z x] y]|e]; [|discriminate].
  destruct (for_in (feature_body lay x y z) (features lay) [] out)
    as [[feats|e] log] eqn:Hl; [|discriminate].
  intros [= <- <-]. apply for_features_log in Hl as [-> Hlen].
  by rewrite <- List.app_assoc.
Qed.

Lemma for_features_none lay x y z feats :
  (forall feat, In feat feats -> props feat !! "S12_001_ja" = None) ->
  forall acc out,
    for_in (feature_body lay x y z) feats acc out = (Ok acc, out).
Proof.
  induction feats as [|feat feats IH]; intros Hnone acc out; cbn [for_in];
    [done|].
  rewrite bind_unfold, feature_body_drop by (apply Hnone; by left).
  apply IH. intros f Hf. apply Hnone. by right.
Qed.

(** X9. A file that can be opened and decoded and whose name gives a tile
    coordinate, with a first layer that holds no feature with a station
    name, reads as the empty list, not as [None], whatever the geometries
    and the extent of the layer are: nothing of a feature without the name
    is looked at. *)
Theorem read_pbf_no_station :
  forall (open_read : string -> res (list Byte.byte))
         (decode : list Byte.byte -> res tile)
         (file_path : string) (out : list diag) (data : list Byte.byte)
         (layer_name : string) (lay : layer) (rest : list (string * layer)),
    open_read file_path = Ok data ->
    decode data = Ok ((layer_name, lay) :: rest) ->
    name_matches (basename file_path) ->
    (forall feat, In feat (features lay) -> props feat !! "S12_001_ja" = None) ->
    read_pbf open_read decode file_path out
      = (Ok (Some []), out ++ [InfoFeatureCount file_path 0]).
Proof.
  intros open_read decode file_path out data k lay rest Ho Hd Hm Hnone.
  rewrite read_pbf_cases, Ho, Hd.
  apply tile_of_name_matches in Hm as (x & y & ->).
  by rewrite (for_features_none lay x y 15 (features lay) Hnone).
Qed.

(* ================================================================== *)
(** ** More on file names                                              *)
(* ================================================================== *)

Lemma split_two_parts sep s :
  occurs sep s = true -> (2 <= length (split sep s))%nat.
Proof.
  induction s as [|c s IH]; cbn; [discriminate|].
  destruct (Ascii.eqb c sep); cbn.
  - intros _. pose proof (split_nonempty sep s).
    destruct (split sep s); [done|cbn; lia].
  - intros H. specialize (IH H). destruct (split sep s); cbn in *; lia.
Qed.

Lemma last_two {A} (l : list A) :
  (2 <= length l)%nat -> exists front a b, l = front ++ [a; b].
Proof.
  destruct l as [|b l _] using rev_ind; [cbn; lia|].
  destruct l as [|a front _] using rev_ind; [cbn; lia|].
  intros _. exists front, a, b. by rewrite <- List.app_assoc.
Qed.

Lemma getitem_neg_short {A} (l : list A) (k : nat) :
  (length l < k)%nat -> getitem_neg l k = Raise IndexError.
Proof.
  intros H. unfold getitem_neg.
  by destruct (Nat.leb_spec k (length l)); [lia|].
Qed.

Lemma unsigned_literal_raises s e :
  unsigned_literal s = Raise e -> e = ValueError.
Proof.
  unfold unsigned_literal. destruct (digits s 0 false); [|by intros [= <-]].
  destruct (_ <=? _)%nat; [discriminate|by intros [= <-]].
Qed.

Lemma int_raises s e : int s = Raise e -> e = ValueError.
Proof.
  unfold int. destruct (strip s) as [|c s']; [by intros [= <-]|].
  destruct (Ascii.eqb c "-").
  - destruct (unsigned_literal s') eqn:Hu; cbn; [discriminate|].
    intros [= <-]. by apply unsigned_literal_raises in Hu.
  - destruct (Ascii.eqb c "+"); apply unsigned_literal_raises.
Qed.

(** X10. How reading the tile coordinate fails: with [IndexError] exactly
    when the name holds no underscore, and otherwise only with
    [ValueError], when one of the two parts is no integer literal. *)
Theorem tile_of_name_errors (file_name : string) :
  (tile_of_name file_name = Raise IndexError <-> occurs "_" file_name = false) /\
  (forall e, tile_of_name file_name = Raise e ->
             e = IndexError \/ e = ValueError).
Proof.
  unfold tile_of_name.
  destruct (occurs "_" file_name) eqn:Hocc.
  - apply split_two_parts, last_two in Hocc as (front & xs & lp & ->).
    destruct (getitem_neg_last2 front xs lp) as [-> ->]. cbn.
    pose proof (split_nonempty "." lp) as Hne.
    destruct (split "." lp) as [|ys more]; [done|]. cbn.
    destruct (int xs) as [x|ex] eqn:Hx; cbn.
    + destruct (int ys) as [y|ey] eqn:Hy; cbn.
      * split; [split; discriminate|discriminate].
      * apply int_raises in Hy as ->.
        split; [split; discriminate|]. intros e [= <-]. by right.
    + apply int_raises in Hx as ->.
      split; [split; discriminate|]. intros e [= <-]. by right.
  - rewrite (split_no_sep _ _ Hocc). cbn. split; [done|].
    intros e [= <-]. by left.
Qed.

(** X11. Only the last two parts of a name count: what comes before an
    underscore makes no difference as soon as what follows it still holds
    an underscore. *)
Theorem tile_of_name_prefix (prefix s : string) :
  occurs "_" s = true ->
  tile_of_name (prefix +:+ "_" +:+ s) = tile_of_name s.
Proof.
  intros Hocc. unfold tile_of_name.
  change ("_" +:+ s) with (String "_" s). rewrite split_app.
  apply split_two_parts, last_two in Hocc as (front & xs & lp & ->).
  rewrite List.app_assoc.
  destruct (getitem_neg_last2 (split "_" prefix ++ front) xs lp) as [-> ->].
  by destruct (getitem_neg_last2 front xs lp) as [-> ->].
Qed.

Lemma substring_all s : substring 0 (String.length s) s = s.
Proof. induction s as [|c s IH]; cbn; [done|]. by rewrite IH. Qed.

Lemma substring_tail s : forall n,
  (n <= String.length s)%nat ->
  exists p, s = p +:+ substring n (String.length s - n) s.
Proof.
  induction s as [|c s IH]; intros n Hn.
  - exists EmptyString. cbn in Hn. by destruct n.
  - destruct n as [|n].
    + exists EmptyString. rewrite Nat.sub_0_r, substring_all. done.
    + cbn in Hn. destruct (IH n) as [p Hp]; [lia|].
      exists (String c p). cbn [String.length Nat.sub substring].
      rewrite append_cons. by f_equal.
Qed.

Lemma endswith_suffix s suffix :
  endswith s suffix = true -> exists p, s = p +:+ suffix.
Proof.
  unfold endswith. intros [Hle Heq]%andb_prop.
  apply Nat.leb_le in Hle. apply String.eqb_eq in Heq.
  destruct (substring_tail s (String.length s - String.length suffix))
    as [p Hp]; [lia|].
  exists p. rewrite Hp at 1. f_equal. rewrite <- Heq at 3. f_equal. lia.
Qed.

Lemma occurs_head c s : startswith_char c s = true -> occurs c s = true.
Proof. destruct s as [|c' s]; cbn; [done|]. by intros ->. Qed.

(** X12. The name a file is listed under is the name its tile coordinate
    is read from: for a name without slash, the base name of the path
    [os.path.join] builds is the name itself, whatever the directory. *)
Theorem basename_path_join (directory file : string) :
  occurs "/" file = false ->
  basename (path_join directory file) = file.
Proof.
  intros H. unfold path_join.
  destruct (startswith_char "/" file) eqn:Hs.
  { apply occurs_head in Hs. congruence. }
  destruct (String.eqb directory EmptyString) eqn:He; cbn [orb].
  { apply String.eqb_eq in He as ->. rewrite append_nil_l.
    unfold basename. by rewrite (split_no_sep _ _ H). }
  destruct (endswith directory "/") eqn:Hd.
  - apply endswith_suffix in Hd as [p ->].
    replace ((p +:+ "/") +:+ file) with (p +:+ String "/" file).
    + by apply basename_app.
    + clear. induction p as [|c p IH]; [done|].
      by rewrite !append_cons, IH.
  - by apply basename_app.
Qed.

(* ================================================================== *)
(** ** More on aggregating a directory                                 *)
(* ================================================================== *)

(** X13. [load_all_pbf_files] raises exactly when the directory cannot be
    listed: it then raises what [os.listdir] raised, before it has printed
    anything; no failure of a file makes it raise. *)
Theorem load_all_raises_iff :
  forall (open_read : string -> res (list Byte.byte))
         (listdir : string -> res (list string))
         (decode : list Byte.byte -> res tile)
         (directory : string) (out out' : list diag) (e : exn),
    load_all_pbf_files open_read listdir decode directory out = (Raise e, out')
    <-> listdir directory = Raise e /\ out' = out.
Proof.
  intros open_read listdir decode directory out out' e.
  destruct (listdir directory) as [files|e'] eqn:Hls.
  - rewrite (load_all_pbf_files_run open_read listdir decode directory files
               out Hls).
    split; [discriminate|]. intros [H _]. discriminate H.
  - unfold load_all_pbf_files. rewrite bind_unfold. cbn [lift]. rewrite Hls.
    split.
    + by intros [= -> ->].
    + by intros [[= ->] ->].
Qed.

Lemma read_pbf_same_bytes open_read open_read' decode file_path out :
  open_read file_path = open_read' file_path ->
  read_pbf open_read decode file_path out =
  read_pbf open_read' decode file_path out.
Proof. intros H. by rewrite !read_pbf_cases, H. Qed.

Lemma flat_map_ext_in {A B} (f g : A -> list B) (l : list A) :
  (forall a, In a l -> f a = g a) -> flat_map f l = flat_map g l.
Proof.
  induction l as [|a l IH]; intros H; cbn; [done|].
  rewrite (H a (or_introl eq_refl)), IH; [done|].
  intros b Hb. apply H. by right.
Qed.

(** X14. Entries whose name does not end with [.pbf] play no part: two
    listings with the same [.pbf] names in the same order, over file
    contents that agree on these names, give the same stations and the
    same log; no other file is opened. *)
Theorem load_all_other_files :
  forall (open_read open_read' : string -> res (list Byte.byte))
         (listdir listdir' : string -> res (list string))
         (decode : list Byte.byte -> res tile)
         (directory : string) (files files' : list string) (out : list diag),
    listdir directory = Ok files ->
    listdir' directory = Ok files' ->
    matching files = matching files' ->
    (forall file, In file (matching files) ->
       open_read (path_join directory file)
         = open_read' (path_join directory file)) ->
    load_all_pbf_files open_read listdir decode directory out =
    load_all_pbf_files open_read' listdir' decode directory out.
Proof.
  intros open_read open_read' listdir listdir' decode directory files files'
    out Hls Hls' Hm Hopen.
  rewrite (load_all_pbf_files_run open_read listdir decode directory files
             out Hls).
  rewrite (load_all_pbf_files_run open_read' listdir' decode directory files'
             out Hls').
  rewrite <- Hm.
  assert (Hrec : flat_map (file_records open_read decode directory) (matching files)
                 = flat_map (file_records open_read' decode directory) (matching files)).
  { apply flat_map_ext_in. intros file Hf.
    unfold file_records, file_result, run.
    by rewrite (read_pbf_same_bytes open_read open_read' decode _ []
                  (Hopen file Hf)). }
  assert (Hlog : flat_map (file_log open_read decode directory) (matching files)
                 = flat_map (file_log open_read' decode directory) (matching files)).
  { apply flat_map_ext_in. intros file Hf.
    unfold file_log, run.
    by rewrite (read_pbf_same_bytes open_read open_read' decode _ []
                  (Hopen file Hf)). }
  by rewrite Hrec, Hlog.
Qed.

Lemma Forall2_In_r {A B} (P : A -> B -> Prop) (l : list A) (l' : list B) (b : B) :
  Forall2 P l l' -> In b l' -> exists a, In a l /\ P a b.
Proof.
  induction 1 as [|a b' l l' Hab _ IH]; [intros []|].
  intros [<-|Hb].
  - exists a. split; [by left|done].
  - destruct (IH Hb) as (a' & Ha' & HP). exists a'. split; [by right|done].
Qed.

(** X15. Where a station comes from: every station [load_all_pbf_files]
    returns was read from a kept feature of the first layer of a listed
    file whose name ends with [.pbf], at zoom 15 and at the tile position
    that file's name gives. *)
Theorem station_provenance :
  forall (open_read : string -> res (list Byte.byte))
         (listdir : string -> res (list string))
         (decode : list Byte.byte -> res tile)
         (directory : string) (files : list string) (out log : list diag)
         (recs : list station) (r : station),
    listdir directory = Ok files ->
    load_all_pbf_files open_read listdir decode directory out = (Ok recs, log) ->
    In r recs ->
    exists file data layer_name lay rest x y feat,
      In file files /\ endswith file ".pbf" = true /\
      open_read (path_join directory file) = Ok data /\
      decode data = Ok ((layer_name, lay) :: rest) /\
      tile_of_name (basename (path_join directory file)) = Ok (15, x, y) /\
      In feat (features lay) /\ kept feat = true /\
      station_of lay x y 15 feat r.
Proof.
  intros open_read listdir decode directory files out log recs r Hls Hrun Hr.
  rewrite (load_all_pbf_files_run open_read listdir decode directory files
             out Hls) in Hrun.
  injection Hrun as <- _.
  apply in_flat_map in Hr as (file & Hfile & Hr).
  unfold matching in Hfile. apply filter_In in Hfile as [Hin Hends].
  unfold file_records, file_result, run in Hr.
  rewrite read_pbf_cases in Hr.
  destruct (open_read (path_join directory file)) as [data|e] eqn:Ho;
    [|destruct Hr].
  destruct (decode data) as [[|[k lay] rest]|e] eqn:Hd;
    [destruct Hr| |destruct Hr].
  destruct (tile_of_name (basename (path_join directory file)))
    as [[[z x] y]|e] eqn:Hn; [|destruct Hr].
  pose proof Hn as Hz. apply tile_of_name_ok in Hz as [-> _].
  destruct (for_in (feature_body lay x y 15) (features lay) [] [])
    as [[feats|e] log'] eqn:Hl; [|destruct Hr].
  cbn in Hr. apply for_features_ok in Hl as (new & -> & Hnew). cbn [app] in Hr.
  destruct (Forall2_In_r _ _ _ r Hnew Hr) as (feat & Hfeat & Hst).
  apply filter_In in Hfeat as [Hfeat Hk].
  exists file, data, k, lay, rest, x, y, feat. done.
Qed.

(* ================================================================== *)
(** ** More on marker sizes                                            *)
(* ================================================================== *)

(** X16. With integer counts that are not all equal and whose differences
    numpy computes without wrapping around, every marker has a radius
    between 5 and 20, and of two stations the one with more passengers
    never has the smaller marker. *)
Theorem radius_between_5_and_20 :
  forall (data : list station) (center : R * R) (zoom : Z) (c : Z) (cs : list Z),
    map passengers data = map VInt (c :: cs) ->
    (exists p q, In p (c :: cs) /\ In q (c :: cs) /\ p <> q) ->
    exact_spread c cs ->
    exists m,
      create_map data center zoom = Ok m /\
      Forall (fun mk => exists r, radius mk = Finite r /\ (5 <= r <= 20)%R)
             (markers m) /\
      (forall (i j : nat) (p q : Z) (mi mj : marker),
          nth_error (c :: cs) i = Some p -> nth_error (c :: cs) j = Some q ->
          nth_error (markers m) i = Some mi -> nth_error (markers m) j = Some mj ->
          p <= q ->
          exists ri rj, radius mi = Finite ri /\ radius mj = Finite rj /\
                        (ri <= rj)%R).
Proof.
  intros data center zoom c cs Hc (p & q & Hp & Hq & Hne) Hexact.
  pose proof (series_spread c cs p q Hp Hq Hne) as Hlt.
  destruct (series_min_spec c cs) as [_ Hmin].
  destruct (series_max_spec c cs) as [_ Hmax].
  destruct (create_map_exact data center zoom c cs Hc Hlt Hexact)
    as (ms & Hm & Hr).
  set (mn := series_min c cs) in *. set (mx := series_max c cs) in *.
  eexists. split; [exact Hm|]. cbn [markers]. split.
  - apply Forall_forall. intros mk Hmk. apply list_elem_of_In in Hmk.
    apply (in_map radius) in Hmk. rewrite Hr in Hmk.
    apply in_map_iff in Hmk as (p' & Hrad & Hp').
    eexists. split; [symmetry; exact Hrad|].
    apply linear_radius_bounds; [|exact Hlt].
    split; [by apply Hmin|by apply Hmax].
  - intros i j p' q' mi mj Hi Hj Hmi Hmj Hle.
    assert (Ri : nth_error (map radius ms) i = Some (radius mi))
      by (by rewrite nth_error_map, Hmi).
    assert (Rj : nth_error (map radius ms) j = Some (radius mj))
      by (by rewrite nth_error_map, Hmj).
    rewrite Hr, nth_error_map in Ri, Rj. rewrite Hi in Ri. rewrite Hj in Rj.
    injection Ri as Ri. injection Rj as Rj.
    eexists _, _. split; [symmetry; exact Ri|]. split; [symmetry; exact Rj|].
    by apply linear_radius_mono.
Qed.

(** X17. A map [create_map] has drawn holds one marker per station, in
    the order of the stations; each marker sits at [[lat, lon]], the
    station's point [(lon, lat)] with its coordinates swapped, and its
    popup shows the station's name and passenger count; the map has the
    centre and the zoom that were asked for.  There is no map of no
    station: on the empty collection [create_map] raises [KeyError]. *)
Theorem markers_follow_stations :
  (forall (data : list station) (center : R * R) (zoom : Z) (m : folium_map),
      create_map data center zoom = Ok m ->
      data <> [] /\
      length (markers m) = length data /\
      map m_location (markers m)
        = map (fun row => (snd (location row), fst (location row))) data /\
      map popup (markers m) = map (fun row => (name row, passengers row)) data /\
      map_center m = center /\ zoom_start m = zoom) /\
  (forall (center : R * R) (zoom : Z), create_map [] center zoom = Raise KeyError).
Proof.
  split; [|reflexivity].
  intros data center zoom m. unfold create_map.
  destruct data as [|r0 data0]; [discriminate|].
  set (data := r0 :: data0).
  destruct (counts_of data) as [[|c cs]|] eqn:Hc; cbn [mbind res_bind];
    [discriminate| |discriminate].
  destruct (add_markers data (series_dtype (c :: cs)) (series_min c cs)
                        (series_max c cs)) as [ms|] eqn:Hms;
    cbn [mbind res_bind]; [|discriminate].
  unfold mret, res_ret. intros [= <-]. cbn [markers map_center zoom_start].
  destruct (add_markers_rows _ _ _ _ _ Hms) as (Hn & Hl & Hp).
  done.
Qed.

Lemma linear_radius_shift k p mn mx :
  linear_radius (k + p) (k + mn) (k + mx) = linear_radius p mn mx.
Proof.
  unfold linear_radius.
  replace (k + mx - (k + mn)) with (mx - mn) by lia.
  by replace (k + p - (k + mn)) with (p - mn) by lia.
Qed.

Lemma series_min_shift k c cs :
  series_min (k + c) (map (Z.add k) cs) = k + series_min c cs.
Proof.
  unfold series_min. revert c. induction cs as [|d cs IH]; intros c; cbn;
    [done|].
  rewrite <- IH. f_equal. lia.
Qed.

Lemma series_max_shift k c cs :
  series_max (k + c) (map (Z.add k) cs) = k + series_max c cs.
Proof.
  unfold series_max. revert c. induction cs as [|d cs IH]; intros c; cbn;
    [done|].
  rewrite <- IH. f_equal. lia.
Qed.

(** X18. Where no difference wraps around, marker sizes depend on the
    differences between the counts only: adding the same number to the
    passenger count of every station, the counts being integers that are
    not all equal, leaves every radius as it was. *)
Theorem radii_shift_invariant :
  forall (data data' : list station) (center : R * R) (zoom : Z) (k : Z)
         (c : Z) (cs : list Z),
    map passengers data = map VInt (c :: cs) ->
    map passengers data' = map VInt (map (Z.add k) (c :: cs)) ->
    (exists p q, In p (c :: cs) /\ In q (c :: cs) /\ p <> q) ->
    exact_spread c cs -> exact_spread (k + c) (map (Z.add k) cs) ->
    exists radii,
      radii_of (create_map data center zoom) = Ok radii /\
      radii_of (create_map data' center zoom) = Ok radii.
Proof.
  intros data data' center zoom k c cs Hc Hc' (p & q & Hp & Hq & Hne)
    Hexact Hexact'.
  pose proof (series_spread c cs p q Hp Hq Hne) as Hlt.
  cbn [map] in Hc'.
  assert (Hlt' : series_min (k + c) (map (Z.add k) cs)
                 < series_max (k + c) (map (Z.add k) cs)).
  { rewrite series_min_shift, series_max_shift. lia. }
  destruct (create_map_exact data center zoom c cs Hc Hlt Hexact)
    as (ms & Hm & Hr).
  destruct (create_map_exact data' center zoom (k + c) (map (Z.add k) cs)
              Hc' Hlt' Hexact') as (ms' & Hm' & Hr').
  exists (map radius ms). rewrite Hm, Hm'. cbn. unfold mret, res_ret.
  split; [reflexivity|]. f_equal. rewrite Hr, Hr'.
  rewrite series_min_shift, series_max_shift.
  change (k + c :: map (Z.add k) cs) with (map (Z.add k) (c :: cs)).
  rewrite map_map. apply map_ext. intros a.
  by rewrite linear_radius_shift.
Qed.

(* ================================================================== *)
(** ** The entry point                                                 *)
(* ================================================================== *)

Section MainFacts.

Variable open_read : string -> res (list Byte.byte).
Variable listdir : string -> res (list string).
Variable decode : list Byte.byte -> res tile.
Variable save : string -> folium_map -> res unit.

(** X19. When the fixed input directory can be listed but gives no station
    (no tile file, or none that decodes to a station), [main] ends
    normally: it draws and writes nothing, whatever [save] would do, and
    the "no valid data" warning is printed twice, once by
    [load_all_pbf_files] and once by [main] itself. *)
Theorem main_without_data (files : list string) :
  listdir "500m_mesh/station_users_500m_mesh" = Ok files ->
  flat_map (file_records open_read decode "500m_mesh/station_users_500m_mesh")
           (matching files) = [] ->
  main open_read listdir decode save =
    (Ok None,
     PrintLoading
       :: map Printed
            (flat_map (file_log open_read decode "500m_mesh/station_users_500m_mesh")
                      (matching files)
             ++ [InfoFileCount (length (matching files)); WarnNoData])
       ++ [Printed WarnNoData]).
Proof.
  intros Hls Hnil. unfold main, run.
  rewrite (load_all_pbf_files_run open_read listdir decode _ files [] Hls).
  rewrite Hnil. reflexivity.
Qed.

(** X20. When the directory gives at least one station, the passenger
    counts are integers that are not all equal, and the document can be
    written, [main] writes a map with one marker per station, centred on
    (35.6852, 139.7528) at zoom 11, and its last line reports the save. *)
Theorem main_saves_map (files : list string) (c : Z) (cs : list Z) :
  let stations :=
    flat_map (file_records open_read decode "500m_mesh/station_users_500m_mesh")
             (matching files) in
  listdir "500m_mesh/station_users_500m_mesh" = Ok files ->
  map passengers stations = map VInt (c :: cs) ->
  (exists p q, In p (c :: cs) /\ In q (c :: cs) /\ p <> q) ->
  (forall m, save "tokyo_station_map.html" m = Ok tt) ->
  exists m out,
    main open_read listdir decode save = (Ok (Some m), out ++ [PrintSaved]) /\
    create_map stations (35.6852, 139.7528)%R 11 = Ok m /\
    length (markers m) = length stations /\
    map_center m = (35.6852, 139.7528)%R /\ zoom_start m = 11.
Proof.
  intros stations Hls Hc (p & q & Hp & Hq & Hne) Hsave.
  pose proof (series_spread c cs p q Hp Hq Hne) as Hlt.
  destruct (create_map_returns stations (35.6852, 139.7528)%R 11 c cs Hc Hlt)
    as (ms & Hmap & Hlen).
  unfold main, run.
  rewrite (load_all_pbf_files_run open_read listdir decode _ files [] Hls).
  fold stations. destruct stations as [|r rs] eqn:Hst; [discriminate|].
  rewrite Hmap. cbv beta iota. rewrite Hsave. eexists _, _.
  split; [reflexivity|].
  split; [reflexivity|]. cbn [markers map_center zoom_start]. done.
Qed.

(** X21. [main] has no handler of its own.  It raises exactly in these
    cases: the directory cannot be listed; or stations were loaded and
    [create_map] raises; or the map was drawn and [save] raises.  A file
    that fails to decode never makes it raise, and neither do passenger
    counts that are all equal, within 64 bits: [main] then writes a map
    whose markers all have the radius nan. *)
Theorem main_raises_iff (e : exn) :
  ((exists out, main open_read listdir decode save = (Raise e, out)) <->
   listdir "500m_mesh/station_users_500m_mesh" = Raise e \/
   exists files r rs,
     listdir "500m_mesh/station_users_500m_mesh" = Ok files /\
     flat_map (file_records open_read decode "500m_mesh/station_users_500m_mesh")
              (matching files) = r :: rs /\
     (create_map (r :: rs) (35.6852, 139.7528)%R 11 = Raise e \/
      exists m, create_map (r :: rs) (35.6852, 139.7528)%R 11 = Ok m /\
                save "tokyo_station_map.html" m = Raise e)) /\
  (forall (files : list string) (c : Z) (cs : list Z),
      listdir "500m_mesh/station_users_500m_mesh" = Ok files ->
      map passengers
          (flat_map (file_records open_read decode
                       "500m_mesh/station_users_500m_mesh") (matching files))
        = map VInt (c :: cs) ->
      (forall p, In p cs -> p = c) ->
      - 2 ^ 63 <= c < 2 ^ 63 ->
      (forall m, save "tokyo_station_map.html" m = Ok tt) ->
      exists m out,
        main open_read listdir decode save = (Ok (Some m), out ++ [PrintSaved]) /\
        map radius (markers m) = map (fun _ => NaN) (c :: cs)).
Proof.
  split.
  - unfold main, run.
    destruct (listdir "500m_mesh/station_users_500m_mesh") as [files|e'] eqn:Hls.
    + rewrite (load_all_pbf_files_run open_read listdir decode _ files [] Hls).
      split.
      * intros [out H].
        destruct (flat_map _ (matching files)) as [|r rs] eqn:Hst;
          [discriminate H|].
        right. exists files, r, rs. split; [done|]. split; [done|].
        destruct (create_map (r :: rs) (35.6852, 139.7528)%R 11) as [m|e1].
        -- right. exists m. split; [done|].
           destruct (save "tokyo_station_map.html" m) as [u|e2];
             [discriminate H|]. by injection H as <- _.
        -- left. by injection H as <- _.
      * intros [H|(files' & r & rs & Hf & Hst & Hcase)]; [discriminate H|].
        injection Hf as <-. rewrite Hst.
        destruct Hcase as [Hc|(m & Hc & Hs)]; rewrite Hc; [eauto|].
        rewrite Hs. eauto.
    + assert (Hload : load_all_pbf_files open_read listdir decode
                        "500m_mesh/station_users_500m_mesh" [] = (Raise e', [])).
      { unfold load_all_pbf_files. rewrite bind_unfold. cbn [lift].
        by rewrite Hls. }
      rewrite Hload. split.
      * intros [out [= <- _]]. by left.
      * intros [[= ->]|(files' & r & rs & H & _)]; [eauto|discriminate H].
  - intros files c cs Hls Hc Hflat Hrange Hsave.
    assert (Hdt : series_dtype (c :: cs) <> Object).
    { rewrite (series_dtype_flat c cs Hflat).
      by rewrite (proj2 (in_int64_bounds c) Hrange). }
    destruct (create_map_flat _ (35.6852, 139.7528)%R 11 c cs Hc Hflat Hdt)
      as (ms & Hmap & Hr).
    unfold main, run.
    rewrite (load_all_pbf_files_run open_read listdir decode _ files [] Hls).
    destruct (flat_map _ (matching files)) as [|r rs] eqn:Hst; [discriminate|].
    rewrite Hmap. cbv beta iota. rewrite Hsave. eexists _, _.
    split; [reflexivity|]. exact Hr.
Qed.

End MainFacts.

(* ================================================================== *)
(** ** The further theorems at work                                    *)
(* ================================================================== *)

(** Tile 29102 lies east of tile 29101 and inside the world at zoom 15. *)
Lemma longitude_range_witness :
  (fst (tile_to_latlon 29101 12903 15) < fst (tile_to_latlon 29102 12903 15))%R /\
  (-180 <= fst (tile_to_latlon 29102 12903 15) <= 180)%R.
Proof.
  destruct (longitude_range 12903 15) as (Hmono & Hrange & _). split.
  - apply (Hmono 29101 29102)%R. lra.
  - apply (Hrange 29102%R). change (powerRZ 2 15) with (2 ^ 15)%R. lra.
Defined.

(** Row 12904 lies south of row 12903. *)
Lemma latitude_decreasing_witness :
  (snd (tile_to_latlon 29102 12904 15) < snd (tile_to_latlon 29102 12903 15))%R.
Proof. apply (latitude_decreasing 29102 29102 12903 12904 15)%R. lra. Defined.


(** A line without points after two good stations: the file gives nothing. *)
Lemma read_pbf_all_or_nothing_witness :
  exists e log,
    read_pbf Broken.open_read Broken.decode "mesh/mesh_1_2.pbf" []
      = (Ok None, log ++ [ErrorFile "mesh/mesh_1_2.pbf" e]).
Proof.
  apply (read_pbf_all_or_nothing Broken.open_read Broken.decode
           "mesh/mesh_1_2.pbf" [] [Byte.x01] "stations" Broken.stations []
           Broken.empty_line); [reflexivity|reflexivity| |reflexivity|].
  - simpl. auto.
  - left. reflexivity.
Defined.

(** The sample tile: one warning, three stations. *)
Lemma read_pbf_log_witness :
  [WarnUnsupportedGeometry "MultiPolygon";
   InfoFeatureCount "mesh/mesh_29102_12903.pbf" 3]
  = [] ++ warnings (features Sample.stations)
       ++ [InfoFeatureCount "mesh/mesh_29102_12903.pbf" (length Sample.extracted)] /\
  length Sample.extracted = length (List.filter kept (features Sample.stations)).
Proof.
  apply (read_pbf_log Sample.open_read Sample.decode "mesh/mesh_29102_12903.pbf"
           [] _ Sample.extracted [Byte.x02] "stations" Sample.stations
           [("roads", Sample.roads)]); [reflexivity|reflexivity|].
  exact (sample_read []).
Defined.

(** A layer of roads with extent zero reads as the empty list. *)
Lemma read_pbf_no_station_witness :
  read_pbf Broken.open_read Broken.decode "mesh/roads_1_2.pbf" []
    = (Ok (Some []), [] ++ [InfoFeatureCount "mesh/roads_1_2.pbf" 0]).
Proof.
  apply (read_pbf_no_station Broken.open_read Broken.decode "mesh/roads_1_2.pbf"
           [] [Byte.x02] "roads" Broken.roads []); [reflexivity|reflexivity| |].
  - apply tile_of_name_matches. exists 1, 2. reflexivity.
  - intros feat [<-|[<-|[]]]; reflexivity.
Defined.

(** A name without underscore, and a name with a part that is no number. *)
Lemma tile_of_name_errors_witness :
  tile_of_name "broken.pbf" = Raise IndexError /\
  (ValueError = IndexError \/ ValueError = ValueError).
Proof.
  split.
  - apply (proj2 (proj1 (tile_of_name_errors "broken.pbf"))). reflexivity.
  - apply (proj2 (tile_of_name_errors "mesh_a_3.pbf") ValueError). reflexivity.
Defined.

Lemma tile_of_name_prefix_witness :
  tile_of_name ("station_users_500m" +:+ "_" +:+ "mesh_29102_12903.pbf")
    = tile_of_name "mesh_29102_12903.pbf".
Proof.
  apply (tile_of_name_prefix "station_users_500m" "mesh_29102_12903.pbf").
  reflexivity.
Defined.

Lemma basename_path_join_witness :
  basename (path_join "500m_mesh/station_users_500m_mesh" "mesh_29102_12903.pbf")
    = "mesh_29102_12903.pbf".
Proof.
  apply (basename_path_join "500m_mesh/station_users_500m_mesh"
           "mesh_29102_12903.pbf").
  reflexivity.
Defined.

(** A directory that does not exist. *)
Lemma load_all_raises_iff_witness :
  load_all_pbf_files Sample.open_read Sample.listdir Sample.decode "nowhere" []
    = (Raise OSError, []).
Proof.
  apply (proj2 (load_all_raises_iff Sample.open_read Sample.listdir Sample.decode
                  "nowhere" [] [] OSError)).
  split; reflexivity.
Defined.

(** The note in the directory makes no difference. *)
Lemma load_all_other_files_witness :
  load_all_pbf_files Tokyo.open_read Tokyo.listdir Sample.decode
                     "500m_mesh/station_users_500m_mesh" [] =
  load_all_pbf_files Tokyo.open_read Tokyo.listdir_tiles Sample.decode
                     "500m_mesh/station_users_500m_mesh" [].
Proof.
  apply (load_all_other_files Tokyo.open_read Tokyo.open_read
           Tokyo.listdir Tokyo.listdir_tiles Sample.decode
           "500m_mesh/station_users_500m_mesh"
           ["mesh_29102_12903.pbf"; "notes.txt"] ["mesh_29102_12903.pbf"] []);
    reflexivity.
Defined.

(** The station of Ueno comes from a feature of the first sample file. *)
Lemma station_provenance_witness :
  exists file data layer_name lay rest x y feat,
    In file ["mesh_29102_12903.pbf"; "notes.txt"; "mesh_29103_12903.pbf";
             "broken.pbf"] /\ endswith file ".pbf" = true /\
    Sample.open_read (path_join "mesh" file) = Ok data /\
    Sample.decode data = Ok ((layer_name, lay) :: rest) /\
    tile_of_name (basename (path_join "mesh" file)) = Ok (15, x, y) /\
    In feat (features lay) /\ kept feat = true /\
    station_of lay x y 15 feat (nth 1 Sample.extracted (Sample.station_with 0)).
Proof.
  eapply (station_provenance Sample.open_read Sample.listdir Sample.decode
            "mesh" _ [] _ Sample.extracted); [reflexivity|exact mesh_load|].
  simpl. auto.
Defined.

(** Counts 30, 10, 20: radii between 5 and 20. *)
Lemma radius_between_5_and_20_witness :
  exists m,
    create_map [Sample.station_with 30; Sample.station_with 10;
                Sample.station_with 20] (35.6852, 139.7528)%R 11 = Ok m /\
    Forall (fun mk => exists r, radius mk = Finite r /\ (5 <= r <= 20)%R)
           (markers m).
Proof.
  destruct (radius_between_5_and_20
              [Sample.station_with 30; Sample.station_with 10;
               Sample.station_with 20] (35.6852, 139.7528)%R 11 30 [10; 20])
    as (m & Hm & Hall & _).
  - reflexivity.
  - exists 30, 10. simpl. split; [auto|]. split; [auto|]. discriminate.
  - intros _. reflexivity.
  - exists m. split; [exact Hm|exact Hall].
Defined.

(** The three sample stations drawn. *)
Lemma markers_follow_stations_witness :
  exists m,
    create_map Sample.extracted (35.6852, 139.7528)%R 11 = Ok m /\
    length (markers m) = length Sample.extracted /\
    map m_location (markers m)
      = map (fun row => (snd (location row), fst (location row))) Sample.extracted /\
    map popup (markers m)
      = map (fun row => (name row, passengers row)) Sample.extracted /\
    map_center m = (35.6852, 139.7528)%R /\ zoom_start m = 11.
Proof.
  destruct (create_map_returns Sample.extracted (35.6852, 139.7528)%R 11
              100 [0; 50]) as (ms & Hm & _); [reflexivity..|].
  eexists. split; [exact Hm|].
  apply (proj1 markers_follow_stations Sample.extracted (35.6852, 139.7528)%R 11).
  exact Hm.
Defined.

(** Counts 0, 50, 100 and counts 7, 57, 107. *)
Lemma radii_shift_invariant_witness :
  exists radii,
    radii_of (create_map [Sample.station_with 0; Sample.station_with 50;
                          Sample.station_with 100] (35.6852, 139.7528)%R 11)
      = Ok radii /\
    radii_of (create_map [Sample.station_with 7; Sample.station_with 57;
                          Sample.station_with 107] (35.6852, 139.7528)%R 11)
      = Ok radii.
Proof.
  apply (radii_shift_invariant
           [Sample.station_with 0; Sample.station_with 50; Sample.station_with 100]
           [Sample.station_with 7; Sample.station_with 57; Sample.station_with 107]
           (35.6852, 139.7528)%R 11 7 0 [50; 100]);
    [reflexivity|reflexivity| |intros _; reflexivity..].
  exists 0, 50. simpl. split; [auto|]. split; [auto|]. discriminate.
Defined.

(** A directory that holds a note only. *)
Lemma main_without_data_witness :
  main Tokyo.open_read Tokyo.listdir_notes Sample.decode Tokyo.save =
    (Ok None,
     [PrintLoading; Printed (InfoFileCount 0); Printed WarnNoData;
      Printed WarnNoData]).
Proof.
  apply (main_without_data Tokyo.open_read Tokyo.listdir_notes Sample.decode
           Tokyo.save ["notes.txt"]); reflexivity.
Defined.

(** The directory with the sample tile: a map of three markers. *)
Lemma main_saves_map_witness :
  exists m out,
    main Tokyo.open_read Tokyo.listdir Sample.decode Tokyo.save
      = (Ok (Some m), out ++ [PrintSaved]) /\
    length (markers m) = 3%nat.
Proof.
  destruct (main_saves_map Tokyo.open_read Tokyo.listdir Sample.decode Tokyo.save
              ["mesh_29102_12903.pbf"; "notes.txt"] 100 [0; 50])
    as (m & out & Hmain & _ & Hlen & _).
  - reflexivity.
  - rewrite tokyo_records by reflexivity. reflexivity.
  - exists 100, 0. simpl. split; [auto|]. split; [auto|]. discriminate.
  - reflexivity.
  - exists m, out. split; [exact Hmain|].
    rewrite tokyo_records in Hlen by reflexivity. exact Hlen.
Defined.

(** A directory that does not exist: [main] raises after its first line. *)
Lemma main_raises_iff_witness :
  exists out,
    main Tokyo.open_read Tokyo.listdir_missing Sample.decode Tokyo.save
      = (Raise OSError, out).
Proof.
  apply (proj2 (proj1 (main_raises_iff Tokyo.open_read Tokyo.listdir_missing
                         Sample.decode Tokyo.save OSError))).
  left. reflexivity.
Defined.

(** Row 12903 of the 32768 rows at zoom 15. *)
Lemma latitude_within_mercator_witness :
  (-8505114 / 100000 < snd (tile_to_latlon 29102 12903 15) < 8505114 / 100000 /\
   8505112 / 100000 < snd (tile_to_latlon 29102 0 15))%R.
Proof.
  apply (latitude_within_mercator 29102 12903 15)%R.
  change (powerRZ 2 15) with (2 ^ 15)%R. lra.
Defined.

(** The position of the sample tile at zoom 15. *)
Lemma transform_runs_witness :
  tile_to_latlon_float (Finite 29102) (Finite 12903) 15
    = Ok (finite_pair (tile_to_latlon 29102 12903 15)).
Proof.
  assert (Hbig : (29102 <= IZR (2 ^ 1000))%R).
  { apply IZR_le. apply Z.leb_le. vm_compute. reflexivity. }
  destruct (transform_runs 29102 12903 15) as [H _].
  - lia.
  - apply Rabs_bound. lra.
  - apply Rabs_bound. lra.
  - apply H. apply sinh_in_range_grid.
    change (powerRZ 2 15) with (2 ^ 15)%R. lra.
Defined.

(** Zoom 1024 and zoom -1080. *)
Lemma zoom_out_of_range_witness :
  tile_to_latlon_float (Finite 5) (Finite 5) 1024 = Raise OverflowError /\
  tile_to_latlon_float (Finite 5) (Finite 5) (-1080) = Raise ZeroDivisionError.
Proof.
  split.
  - apply (proj1 (zoom_out_of_range (Finite 5) (Finite 5) 1024)). lia.
  - apply (proj1 (proj2 (zoom_out_of_range (Finite 5) (Finite 5) (-1080)))).
    split; [|lia]. apply Z.ltb_lt. vm_compute. reflexivity.
Defined.
